(** * eventdb: destination selection, ingestion and the domain error model

    A shallow embedding of the Go packages [errors], [eventdb] (the
    bad-event classifier), [pg] (the PostgreSQL stores) and [service]
    (DestGenerate / nextEvent / EventSubmit / retry), with the properties
    the specification states about them.

    Conventions.
    - Go's [error] interface is the inductive [error]; a nil error is
      [None : option error].
    - [time.Time] and [time.Duration] are integers in nanoseconds ([Z]).
    - Go strings are [string] (byte sequences); the regular expressions of
      the classifier read them as runes through [runes].
    - Stateful code runs in the monad [M] over a [World] holding the three
      tables, the schedule of injected database faults, the random source,
      the Facebook responses and a log of the effects performed. *)

From stdpp Require Import base decidable option list gmap strings pretty.
From Stdlib Require Import ZArith String Ascii List Bool Lia PrimFloat Sorted.
Import ListNotations.

#[local] Set Warnings "-register-all".
#[local] Open Scope string_scope.

(* ===================================================================== *)
(** * Package errors                                                      *)
(* ===================================================================== *)

Module Errors.

(** [type Kind int], in the order of the [iota] block. *)
Inductive Kind : Type :=
| Other | Invalid | NotLoggedIn | Permission | NotExist | Exist | Internal.

#[global] Instance Kind_eq_dec : EqDecision Kind.
Proof. solve_decision. Defined.

(** The fields of [type Error struct]; [stack] is empty without the debug
    build tag.  The record is parametric in the type of the cause so that
    [error] below can nest it. *)
Record ErrorOf (err : Type) : Type := mkError {
  UserID : string;
  Op : string;
  EKind : Kind;
  Err : option err
}.
Arguments mkError {err} _ _ _ _.
Arguments UserID {err} _.
Arguments Op {err} _.
Arguments EKind {err} _.
Arguments Err {err} _.

(** The facebook.Error struct (package facebook). *)
Record FBError : Type := mkFBError {
  Message : string;
  FBType : string;
  Code : Z;
  Subcode : Z;
  FBTraceID : string
}.

(** The dynamic types of [error] values other than [*Error]; none of them
    is ever written to after it is built. *)
Inductive leaf : Type :=
| LString (s : string)               (* *errorString: Str, Errorf, fmt.Errorf *)
| LCanceled                          (* context.Canceled *)
| LDeadlineExceeded                  (* context.DeadlineExceeded *)
| LNoRows                            (* sql.ErrNoRows *)
| LPq (codeName msg : string)        (* *pq.Error, with Code.Name() and Message *)
| LFacebook (fe : FBError)           (* facebook.Error *)
| LForeign (msg : string).           (* any other library error *)

(** Go's [error] values, read as trees: a [*Error] with its chain of
    causes, or a leaf. *)
Inductive error : Type :=
| ErrDomain (e : ErrorOf error)
| ErrLeaf (l : leaf).

Abbreviation Error := (ErrorOf error).
Abbreviation ErrString s := (ErrLeaf (LString s)).
Abbreviation ErrCanceled := (ErrLeaf LCanceled).
Abbreviation ErrDeadlineExceeded := (ErrLeaf LDeadlineExceeded).
Abbreviation ErrNoRows := (ErrLeaf LNoRows).
Abbreviation ErrPq c m := (ErrLeaf (LPq c m)).
Abbreviation ErrFacebook fe := (ErrLeaf (LFacebook fe)).
Abbreviation ErrForeign m := (ErrLeaf (LForeign m)).

Definition zeroError {err} : ErrorOf err := mkError "" "" Other None.

(** Field assignments [e.UserID = u], [e.Op = o], [e.Kind = k], [e.Err = c]. *)
Definition setUserID {err} (u : string) (e : ErrorOf err) : ErrorOf err :=
  mkError u (Op e) (EKind e) (Err e).
Definition setOp {err} (o : string) (e : ErrorOf err) : ErrorOf err :=
  mkError (UserID e) o (EKind e) (Err e).
Definition setKind {err} (k : Kind) (e : ErrorOf err) : ErrorOf err :=
  mkError (UserID e) (Op e) k (Err e).
Definition setErr {err} (c : option err) (e : ErrorOf err) : ErrorOf err :=
  mkError (UserID e) (Op e) (EKind e) c.

(** [func (e *Error) isZero() bool] *)
Definition isZero (e : Error) : bool :=
  bool_decide (UserID e = "") && bool_decide (Op e = "")
  && bool_decide (EKind e = Other)
  && match Err e with None => true | Some _ => false end.

(** The arguments of the variadic [E(args ...interface{})], by the case of
    the type switch they select.  [ArgOther] stands for a value of any
    other type (the untyped nil included). *)
Inductive arg : Type :=
| ArgUserID (u : string)     (* case eventdb.UserID *)
| ArgOp (o : string)         (* case Op *)
| ArgString (s : string)     (* case string *)
| ArgKind (k : Kind)         (* case Kind *)
| ArgError (e : error)       (* case *Error (copied) and case error *)
| ArgOther (ty : string).    (* default *)

(** [Str] and [Errorf]; the formatted text of [Errorf] is kept abstract as
    the name of the offending type. *)
Definition Str (text : string) : leaf := LString text.
Definition Errorf_unknown_type (ty : string) : leaf :=
  LString ("unknown type " ++ ty ++ " in error call").

(** The [for _, arg := range args] loop of [E]: the fields of [e] are
    overwritten from left to right, and the default case returns early. *)
Fixpoint E_loop (e : Error) (args : list arg) : Error + error :=
  match args with
  | [] => inl e
  | ArgUserID u :: rest => E_loop (setUserID u e) rest
  | ArgOp o :: rest => E_loop (setOp o e) rest
  | ArgString s :: rest => E_loop (setErr (Some (ErrLeaf (Str s))) e) rest
  | ArgKind k :: rest => E_loop (setKind k e) rest
  | ArgError c :: rest => E_loop (setErr (Some c) e) rest
  | ArgOther ty :: _ => inr (ErrLeaf (Errorf_unknown_type ty))
  end.

(** The tail of [E] after the loop: when the cause is one of ours, the
    duplicated user and kind are suppressed on the (copied) cause and an
    unset kind is pulled up. *)
Definition suppress (e : Error) : Error :=
  match Err e with
  | Some (ErrDomain prev) =>
      let prev1 :=
        if bool_decide (UserID prev = UserID e) then setUserID "" prev else prev in
      let prev2 :=
        if bool_decide (EKind prev1 = EKind e) then setKind Other prev1 else prev1 in
      if bool_decide (EKind e = Other)
      then setErr (Some (ErrDomain (setKind Other prev2))) (setKind (EKind prev2) e)
      else setErr (Some (ErrDomain prev2)) e
  | _ => e
  end.

(** [E] on a non-empty argument list, as every call site has it. *)
Definition E_of (a : arg) (rest : list arg) : error :=
  match E_loop zeroError (a :: rest) with
  | inl e => ErrDomain (suppress e)
  | inr bad => bad
  end.

(** [func E(args ...interface{}) error]; [None] is the panic on an empty
    argument list. *)
Definition E (args : list arg) : option error :=
  match args with
  | [] => None
  | a :: rest => Some (E_of a rest)
  end.

(** [func Is(kind Kind, err error) bool] *)
Fixpoint Is (kind : Kind) (err : error) : bool :=
  match err with
  | ErrDomain e =>
      if bool_decide (EKind e = Other)
      then match Err e with
           | Some inner => Is kind inner
           | None => false
           end
      else bool_decide (EKind e = kind)
  | _ => false
  end.

(** The kind a domain error reports at its outermost level. *)
Definition kindOf (err : error) : option Kind :=
  match err with
  | ErrDomain e => Some (EKind e)
  | _ => None
  end.

End Errors.

(* ===================================================================== *)
(** * Package errors, with the pointers                                   *)
(* ===================================================================== *)

(** [E] allocates: [e := &Error{}] and [copy := *arg; e.Err = &copy], and
    then writes through [prev], which aliases [e.Err].  This module keeps
    the [*Error] values in a heap so that what those writes reach can be
    stated. *)
Module ErrHeap.
Import Errors.

Definition loc := positive.

(** An [error] interface value: a pointer to an [Error] cell, or a leaf. *)
Inductive ref : Type :=
| RefError (l : loc)
| RefLeaf (v : leaf).

Abbreviation cell := (ErrorOf ref).
Abbreviation heap := (gmap loc cell).

Inductive harg : Type :=
| HUserID (u : string)
| HOp (o : string)
| HString (s : string)
| HKind (k : Kind)
| HError (r : ref)
| HOther (ty : string).

(** [&T{...}]: a cell at an address not in use. *)
Definition alloc (c : cell) (h : heap) : loc * heap :=
  let l := fresh (dom h) in (l, <[l := c]> h).

(** The loop of [E] writing the fields of the cell at [le].  [None] is the
    run-time panic of [*arg] on a pointer that holds no cell; a result
    [(h, Some bad)] is the early return of the default case. *)
Fixpoint E_loop (le : loc) (args : list harg) (h : heap)
  : option (heap * option ref) :=
  match args with
  | [] => Some (h, None)
  | HUserID u :: rest => E_loop le rest (alter (setUserID u) le h)
  | HOp o :: rest => E_loop le rest (alter (setOp o) le h)
  | HString s :: rest =>
      E_loop le rest (alter (setErr (Some (RefLeaf (Str s)))) le h)
  | HKind k :: rest => E_loop le rest (alter (setKind k) le h)
  | HError (RefError p) :: rest =>
      match h !! p with
      | None => None
      | Some c =>
          let '(lc, h1) := alloc c h in
          E_loop le rest (alter (setErr (Some (RefError lc))) le h1)
      end
  | HError (RefLeaf v) :: rest =>
      E_loop le rest (alter (setErr (Some (RefLeaf v))) le h)
  | HOther ty :: _ => Some (h, Some (RefLeaf (Errorf_unknown_type ty)))
  end.

(** The writes after the loop, each reading the heap as it then is. *)
Definition suppress (le : loc) (h : heap) : option heap :=
  e ← h !! le;
  match Err e with
  | Some (RefError lp) =>
      prev ← h !! lp;
      let h1 :=
        if bool_decide (UserID prev = UserID e)
        then alter (setUserID "") lp h else h in
      prev1 ← h1 !! lp;
      e1 ← h1 !! le;
      let h2 :=
        if bool_decide (EKind prev1 = EKind e1)
        then alter (setKind Other) lp h1 else h1 in
      e2 ← h2 !! le;
      if bool_decide (EKind e2 = Other)
      then
        prev2 ← h2 !! lp;
        let h3 := alter (setKind (EKind prev2)) le h2 in
        Some (alter (setKind Other) lp h3)
      else Some h2
  | _ => Some h
  end.

(** [E] on the heap: the new error and the heap it leaves. *)
Definition E (args : list harg) (h : heap) : option (ref * heap) :=
  match args with
  | [] => None
  | _ =>
      let '(le, h0) := alloc zeroError h in
      r ← E_loop le args h0;
      match r with
      | (h1, None) => h2 ← suppress le h1; Some (RefError le, h2)
      | (h1, Some bad) => Some (bad, h1)
      end
  end.

(** Reading a heap value back as a tree, to a given depth. *)
Fixpoint decode (depth : nat) (h : heap) (r : ref) : option error :=
  match r with
  | RefLeaf v => Some (ErrLeaf v)
  | RefError l =>
      match depth with
      | O => None
      | S d =>
          c ← h !! l;
          match Err c with
          | None => Some (ErrDomain (mkError (UserID c) (Op c) (EKind c) None))
          | Some r' =>
              inner ← decode d h r';
              Some (ErrDomain (mkError (UserID c) (Op c) (EKind c) (Some inner)))
          end
      end
  end.

Definition decode_arg (depth : nat) (h : heap) (a : harg) : option arg :=
  match a with
  | HUserID u => Some (ArgUserID u)
  | HOp o => Some (ArgOp o)
  | HString s => Some (ArgString s)
  | HKind k => Some (ArgKind k)
  | HError r => ArgError <$> decode depth h r
  | HOther ty => Some (ArgOther ty)
  end.

(** ** Predicates on heaps *)

(** Every cell of [h0] is in [h] with the same fields. *)
Definition preserves (h0 h : heap) : Prop :=
  forall l c, h0 !! l = Some c -> h !! l = Some c.

(** The invariant of [E] with respect to the caller's heap [h0]: the
    caller's cells are as they were, the cell under construction exists,
    and its cause, when a pointer, is not one of the caller's. *)
Definition loop_inv (h0 : heap) (le : loc) (h : heap) : Prop :=
  preserves h0 h
  /\ is_Some (h !! le)
  /\ forall e lp, h !! le = Some e -> Err e = Some (RefError lp) -> h0 !! lp = None.

(** The cause of the cell under construction, when a pointer, holds a cell. *)
Definition cause_valid (le : loc) (h : heap) : Prop :=
  is_Some (h !! le)
  /\ forall e lp, h !! le = Some e -> Err e = Some (RefError lp) -> is_Some (h !! lp).

(** A cell read as a tree, to a given depth ([decode] of a pointer to it). *)
Definition readCell (depth : nat) (h : heap) (c : cell) : option Error :=
  match depth with
  | O => None
  | S d =>
      match Err c with
      | None => Some (mkError (UserID c) (Op c) (EKind c) None)
      | Some r' =>
          inner ← decode d h r';
          Some (mkError (UserID c) (Op c) (EKind c) (Some inner))
      end
  end.

(** The cell under construction at [le] in [h] reads as the tree [e],
    with a cause that is a leaf or a copy, outside the caller's heap
    [h0], of a cell that reads as a tree in [h0]. *)
Definition reads_as (depth : nat) (h0 : heap) (le : loc) (h : heap) (e : Error)
  : Prop :=
  preserves h0 h /\ h0 !! le = None
  /\ exists c, h !! le = Some c
     /\ UserID c = UserID e /\ Op c = Op e /\ EKind c = EKind e
     /\ match Err c, Err e with
        | None, None => True
        | Some (RefLeaf v), Some (ErrLeaf v') => v = v'
        | Some (RefError lp), Some (ErrDomain tp) =>
            lp <> le /\ h0 !! lp = None
            /\ exists cp, h !! lp = Some cp /\ readCell depth h0 cp = Some tp
        | _, _ => False
        end.

End ErrHeap.

(* ===================================================================== *)
(** * The regular expressions of the classifier                           *)
(* ===================================================================== *)

(** The fragment of Go's [regexp] syntax that [nameFilters] and
    [descFilters] use, with [MatchString] as an unanchored search. *)
Module Regexp.

#[local] Open Scope Z_scope.

(** A Unicode code point. *)
Definition rune := Z.

Definition RuneError : rune := 0xFFFD.

Definition bytes (s : string) : list Z :=
  map (fun a => Z.of_N (N_of_ascii a)) (list_ascii_of_string s).

Definition between (lo hi b : Z) : bool := (lo <=? b) && (b <=? hi).
Definition cont (b : Z) : bool := between 0x80 0xBF b.

(** [utf8.DecodeRuneInString] on the byte [b0] followed by [t]: the rune
    and its width.  An invalid or truncated encoding is [RuneError] of
    width 1. *)
Definition decodeRune (b0 : Z) (t : list Z) : rune * nat :=
  if b0 <? 0x80 then (b0, 1%nat)
  else if between 0xC2 0xDF b0 then
    match t with
    | b1 :: _ =>
        if cont b1 then ((b0 - 0xC0) * 64 + (b1 - 0x80), 2%nat)
        else (RuneError, 1%nat)
    | _ => (RuneError, 1%nat)
    end
  else if between 0xE0 0xEF b0 then
    match t with
    | b1 :: b2 :: _ =>
        let lo := if b0 =? 0xE0 then 0xA0 else 0x80 in
        let hi := if b0 =? 0xED then 0x9F else 0xBF in
        if between lo hi b1 && cont b2
        then ((b0 - 0xE0) * 4096 + (b1 - 0x80) * 64 + (b2 - 0x80), 3%nat)
        else (RuneError, 1%nat)
    | _ => (RuneError, 1%nat)
    end
  else if between 0xF0 0xF4 b0 then
    match t with
    | b1 :: b2 :: b3 :: _ =>
        let lo := if b0 =? 0xF0 then 0x90 else 0x80 in
        let hi := if b0 =? 0xF4 then 0x8F else 0xBF in
        if between lo hi b1 && cont b2 && cont b3
        then ((b0 - 0xF0) * 262144 + (b1 - 0x80) * 4096
              + (b2 - 0x80) * 64 + (b3 - 0x80), 4%nat)
        else (RuneError, 1%nat)
    | _ => (RuneError, 1%nat)
    end
  else (RuneError, 1%nat).

(** The runes of a byte sequence, as the matcher steps through it; every
    step consumes at least one byte, so [n] steps suffice for [n] bytes. *)
Fixpoint runes_of (n : nat) (bs : list Z) : list rune :=
  match n, bs with
  | S n', b0 :: t =>
      let '(r, w) := decodeRune b0 t in
      r :: runes_of n' (skipn (w - 1) t)
  | _, _ => []
  end.

Definition runes (s : string) : list rune :=
  let bs := bytes s in runes_of (length bs) bs.

Inductive re : Type :=
| NoMatch                     (* matches nothing *)
| Empty                       (* the empty pattern *)
| Lit (c : rune)              (* a literal rune *)
| LitFold (c : rune)          (* a literal rune under (?i) *)
| Digit                       (* \d *)
| WordBoundary                (* \b *)
| Cat (r1 r2 : re)
| Alt (r1 r2 : re)
| Star (r : re).

(** [\w] and [\b] are ASCII-only in RE2. *)
Definition isWordChar (c : rune) : bool :=
  between 48 57 c || between 65 90 c || (c =? 95) || between 97 122 c.

Definition isWord (o : option rune) : bool :=
  match o with Some c => isWordChar c | None => false end.

(** Matching a literal under (?i) walks the orbit of [unicode.SimpleFold]:
    the other case of an ASCII letter, and besides that U+017F for s and
    U+212A for k. *)
Definition foldEq (c x : rune) : bool :=
  (x =? c)
  || (between 65 90 c && (x =? c + 32))
  || (between 97 122 c && (x =? c - 32))
  || (((c =? 115) || (c =? 83)) && (x =? 0x17F))
  || (((c =? 107) || (c =? 75)) && (x =? 0x212A)).

(** [run r prev s k]: [r] matches a prefix of [s] (the rune before [s]
    being [prev]) and the continuation [k] accepts what follows. *)
Fixpoint run (r : re) (prev : option rune) (s : list rune)
  (k : option rune -> list rune -> bool) : bool :=
  match r with
  | NoMatch => false
  | Empty => k prev s
  | Lit c =>
      match s with
      | x :: s' => (x =? c) && k (Some x) s'
      | [] => false
      end
  | LitFold c =>
      match s with
      | x :: s' => foldEq c x && k (Some x) s'
      | [] => false
      end
  | Digit =>
      match s with
      | x :: s' => between 48 57 x && k (Some x) s'
      | [] => false
      end
  | WordBoundary => xorb (isWord prev) (isWord (head s)) && k prev s
  | Cat r1 r2 => run r1 prev s (fun p s' => run r2 p s' k)
  | Alt r1 r2 => run r1 prev s k || run r2 prev s k
  | Star r0 =>
      (fix star (n : nat) (prev : option rune) (s : list rune) : bool :=
         k prev s
         || match n with
            | O => false
            | S n' =>
                run r0 prev s
                  (fun p s' => (length s' <? length s)%nat && star n' p s')
            end) (length s) prev s
  end.

(** An unanchored search: a match may start at any position. *)
Fixpoint search (r : re) (prev : option rune) (s : list rune) : bool :=
  run r prev s (fun _ _ => true)
  || match s with
     | [] => false
     | x :: s' => search r (Some x) s'
     end.

(** [func (re *Regexp) MatchString(s string) bool] *)
Definition MatchString (r : re) (s : string) : bool :=
  search r None (runes s).

(** Building patterns: a run of literals, plain or under (?i). *)
Definition lits (s : string) : re :=
  fold_right (fun c r => Cat (Lit c) r) Empty (bytes s).
Definition litsFold (s : string) : re :=
  fold_right (fun c r => Cat (LitFold c) r) Empty (bytes s).
Definition oneOf (cs : list rune) : re :=
  fold_right (fun c r => Alt (Lit c) r) NoMatch cs.
(** (?i)\bword\b *)
Definition wordFold (s : string) : re :=
  Cat WordBoundary (Cat (litsFold s) WordBoundary).

(** The currency symbols of Unicode (general category Sc), the reading of
    "a currency symbol" that does not depend on the list in the code. *)
Definition isCurrencySymbol (c : rune) : bool :=
  (c =? 0x24) || between 0xA2 0xA5 c || (c =? 0x58F) || (c =? 0x60B)
  || between 0x7FE 0x7FF c || between 0x9F2 0x9F3 c || (c =? 0x9FB)
  || (c =? 0xAF1) || (c =? 0xBF9) || (c =? 0xE3F) || (c =? 0x17DB)
  || between 0x20A0 0x20C0 c || (c =? 0xA838) || (c =? 0xFDFC)
  || (c =? 0xFE69) || (c =? 0xFF04) || between 0xFFE0 0xFFE1 c
  || between 0xFFE5 0xFFE6 c || between 0x11FDD 0x11FE0 c
  || (c =? 0x1E2FF) || (c =? 0x1ECB0).

End Regexp.

(* ===================================================================== *)
(** * Package eventdb: the data types and the bad-event classifier        *)
(* ===================================================================== *)

Module Eventdb.
Import Regexp.

Definition EventID := string.
Definition UserID := string.
Definition DestID := string.

(** [time.Time] as an instant and [time.Duration], both in nanoseconds. *)
Definition Instant := Z.
Definition Duration := Z.
Definition Second : Duration := 1000000000%Z.
Definition Minute : Duration := (60 * Second)%Z.
Definition Hour : Duration := (60 * Minute)%Z.

(** [type Event struct] *)
Record Event : Type := mkEvent {
  ID : EventID;
  Name : string;
  Description : string;
  Latitude : PrimFloat.float;
  Longitude : PrimFloat.float;
  StartTime : Instant;
  EndTime : Instant;
  IsCanceled : bool;
  Cover : string;
  Place : string;
  Address : string;
  IsBad : bool
}.

(** [type Dest struct]; [Event] is the side-loaded [*Event]. *)
Record Dest : Type := mkDest {
  DID : DestID;
  DUserID : UserID;
  DEventID : EventID;
  DEvent : option Event;
  Status : string;
  Feedback : string;
  CreatedAt : Instant
}.

(** [type DestGenerateRequest struct] *)
Record DestGenerateRequest : Type := mkDestGenerateRequest {
  ReqUserID : UserID;
  Lat : PrimFloat.float;
  Lng : PrimFloat.float
}.

(** [type DestGenerateResult string] and its four constants. *)
Inductive DestGenerateResult : Type :=
| GenerateOK | GenerateWait | GenerateNoResults | GenerateError.

#[global] Instance DestGenerateResult_eq_dec : EqDecision DestGenerateResult.
Proof. solve_decision. Defined.

(** [type DestGenerateReply struct] *)
Record DestGenerateReply : Type := mkReply {
  Result : DestGenerateResult;
  Dests : list Dest;
  Events : list Event
}.

(** [type DestListRequest struct] *)
Record DestListRequest : Type := mkDestListRequest { Page : Z }.

(** [type EventSearchRequest struct] *)
Record EventSearchRequest : Type := mkEventSearchRequest {
  Bounds : string;
  Start : Instant;
  End_ : Instant;
  IncludeBad : bool
}.

(** [type UserUpdate struct] *)
Record UserUpdate : Type := mkUserUpdate {
  UTimeZone : string;
  UFacebookID : string;
  UFacebookToken : string;
  UBirthday : Instant;
  Mask : string
}.

(** [type User struct] *)
Record User : Type := mkUser {
  UID : UserID;
  TimeZone : string;
  FacebookID : string;
  FacebookToken : string;
  Birthday : Instant
}.

(** [var nameFilters], in source order. *)
Definition nameFilters : list re :=
  [ wordFold "Sold Out";
    wordFold "Cancel";
    wordFold "geschlossene";
    wordFold "abgesagte";
    wordFold "annulliert";
    wordFold "Funeral";
    wordFold "bar";
    wordFold "pub" ].

(** The runes of the first description pattern:
    $ ¥ ₹ ₡ ₱ £ € ₩ ₨ ﷼ ₱ ₽ *)
Definition currencyRunes : list rune :=
  [ 0x24; 0xA5; 0x20B9; 0x20A1; 0x20B1; 0xA3; 0x20AC; 0x20A9; 0x20A8;
    0xFDFC; 0x20B1; 0x20BD ]%Z.

(** [var descFilters], in source order. *)
Definition descFilters : list re :=
  [ oneOf currencyRunes;
    litsFold "dollars";
    Cat (lits "Rs") (Cat (Star (Lit 32%Z)) Digit);
    litsFold "support group";
    Cat (Alt (litsFold "men") (Alt (litsFold "women") (litsFold "children")))
        (litsFold " only");
    litsFold "regist";
    litsFold "RSVP";
    litsFold "anmelden";
    litsFold "anmeldung" ].

(** [func IsBadEvent(event Event) bool]: the two loops return true at the
    first filter that matches. *)
Definition IsBadEvent (event : Event) : bool :=
  existsb (fun filt => MatchString filt (Name event)) nameFilters
  || existsb (fun filt => MatchString filt (Description event)) descFilters.

End Eventdb.

(* ===================================================================== *)
(** * The world the service runs in                                       *)
(* ===================================================================== *)

Module World.
Import Errors Eventdb.

#[local] Open Scope Z_scope.

(** A row of table [dests]. *)
Record DestRow : Type := mkDestRow {
  d_sequence : Z;
  d_id : string;
  d_user_id : string;
  d_event_id : string;
  d_feedback : option string;
  d_status : option string;
  d_created_at : Instant
}.

(** The JSON document of a Graph API event, by the paths the queries read.
    [j_location] is (longitude, latitude) of place.location. *)
Record EventData : Type := mkEventData {
  j_id : string;
  j_name : option string;
  j_description : option string;
  j_cover : option string;
  j_start_time : Instant;
  j_end_time : option Instant;
  j_is_canceled : option bool;
  j_place_name : option string;
  j_street : option string;
  j_location : option (PrimFloat.float * PrimFloat.float)
}.

(** [json.RawMessage] of an event body: [None] when [json.Unmarshal]
    rejects it. *)
Definition RawMessage := option EventData.

(** A row of table [events]. *)
Record EventRow : Type := mkEventRow {
  e_id : string;
  e_data : EventData;
  e_is_bad : option bool;
  e_geom : option (PrimFloat.float * PrimFloat.float)
}.

(** A row of table [users]. *)
Record UserRow : Type := mkUserRow {
  u_sequence : Z;
  u_user_id : string;
  u_time_zone : option string;
  u_facebook_id : option string;
  u_facebook_token : option string;
  u_birthday : option Instant
}.

(** The SQL statements of package pg, and the effects a run performs. *)
Inductive Stmt : Type :=
| BeginTx | Commit
| SelectDests | InsertDest | UpdateDestID
| SelectEvents | UpsertEvent | UpdateGeom | UpdateBad
| SearchEvents (params : EventSearchRequest)
| SelectRandomToken | UpsertUser | SelectUser.

Inductive Effect : Type :=
| Sql (s : Stmt) (err : option error)  (* a statement was sent; the driver's error *)
| GraphAPI (token : string) (ids : list string)  (* GetEventInfo *)
| Sleep (d : Duration)                       (* time.Sleep *)
| Rand.                                      (* a draw from math/rand *)

(** What the Graph API answers to one [GetEventInfo]. *)
Definition FBReply : Type := list RawMessage * option error.

Record World : Type := mkWorld {
  dests : list DestRow;            (* newest first *)
  dest_seq : Z;                    (* last value of dests.sequence *)
  events : list EventRow;
  users : list UserRow;            (* by sequence *)
  user_seq : Z;
  db_now : Instant;                (* NOW() of the database *)
  clock : Instant;                 (* Service.Time.Now() *)
  faults : list (option error);    (* driver error of the next statements *)
  rands : list Z;                  (* the next draws of the random sources *)
  graph : list FBReply;            (* the next answers of the Graph API *)
  ctx_err : option error;          (* ctx.Err() *)
  log : list Effect                (* effects so far, latest first *)
}.

Definition set_dests (v : list DestRow) (w : World) : World :=
  mkWorld v (dest_seq w) (events w) (users w) (user_seq w) (db_now w)
    (clock w) (faults w) (rands w) (graph w) (ctx_err w) (log w).
Definition set_dest_seq (v : Z) (w : World) : World :=
  mkWorld (dests w) v (events w) (users w) (user_seq w) (db_now w)
    (clock w) (faults w) (rands w) (graph w) (ctx_err w) (log w).
Definition set_events (v : list EventRow) (w : World) : World :=
  mkWorld (dests w) (dest_seq w) v (users w) (user_seq w) (db_now w)
    (clock w) (faults w) (rands w) (graph w) (ctx_err w) (log w).
Definition set_users (v : list UserRow) (w : World) : World :=
  mkWorld (dests w) (dest_seq w) (events w) v (user_seq w) (db_now w)
    (clock w) (faults w) (rands w) (graph w) (ctx_err w) (log w).
Definition set_user_seq (v : Z) (w : World) : World :=
  mkWorld (dests w) (dest_seq w) (events w) (users w) v (db_now w)
    (clock w) (faults w) (rands w) (graph w) (ctx_err w) (log w).
Definition set_faults (v : list (option error)) (w : World) : World :=
  mkWorld (dests w) (dest_seq w) (events w) (users w) (user_seq w) (db_now w)
    (clock w) v (rands w) (graph w) (ctx_err w) (log w).
Definition set_rands (v : list Z) (w : World) : World :=
  mkWorld (dests w) (dest_seq w) (events w) (users w) (user_seq w) (db_now w)
    (clock w) (faults w) v (graph w) (ctx_err w) (log w).
Definition set_graph (v : list FBReply) (w : World) : World :=
  mkWorld (dests w) (dest_seq w) (events w) (users w) (user_seq w) (db_now w)
    (clock w) (faults w) (rands w) v (ctx_err w) (log w).
Definition set_ctx_err (v : option error) (w : World) : World :=
  mkWorld (dests w) (dest_seq w) (events w) (users w) (user_seq w) (db_now w)
    (clock w) (faults w) (rands w) (graph w) v (log w).
Definition add_log (ev : Effect) (w : World) : World :=
  mkWorld (dests w) (dest_seq w) (events w) (users w) (user_seq w) (db_now w)
    (clock w) (faults w) (rands w) (graph w) (ctx_err w) (ev :: log w).

(** The outcome of a run: a value and the world it leaves, a panic, or a
    loop that has not finished within the steps it was given. *)
Inductive Res (A : Type) : Type :=
| Ret (a : A) (w : World)
| Panic (msg : string) (w : World)
| Unfinished (w : World).
Arguments Ret {A} _ _.
Arguments Panic {A} _ _.
Arguments Unfinished {A} _.

Definition M (A : Type) : Type := World -> Res A.

#[global] Instance M_ret : MRet M := fun A a w => Ret a w.
#[global] Instance M_bind : MBind M := fun A B f m w =>
  match m w with
  | Ret a w' => f a w'
  | Panic msg w' => Panic msg w'
  | Unfinished w' => Unfinished w'
  end.

Definition get : M World := fun w => Ret w w.
Definition modify (f : World -> World) : M unit := fun w => Ret tt (f w).
Definition panic {A} (msg : string) : M A := fun w => Panic msg w.
Definition unfinished {A} : M A := fun w => Unfinished w.

Definition world_of {A} (r : Res A) : World :=
  match r with Ret _ w => w | Panic _ w => w | Unfinished w => w end.

(** Sending one statement: the head of the fault schedule says whether the
    driver fails it; an exhausted schedule means no fault. *)
Definition sql (s : Stmt) : M (option error) := fun w =>
  match faults w with
  | [] => Ret None (add_log (Sql s None) w)
  | f :: rest => Ret f (add_log (Sql s f) (set_faults rest w))
  end.

(** One draw of a random source, as a non-negative integer. *)
Definition draw : M Z := fun w =>
  match rands w with
  | [] => Ret 0 (add_log Rand w)
  | r :: rest => Ret (Z.abs r) (add_log Rand (set_rands rest w))
  end.

(** [rand.Intn(n)] for [n > 0]; it panics otherwise. *)
Definition Intn (n : Z) : M Z :=
  if n <=? 0 then panic "invalid argument to Intn"
  else r ← draw; mret (r mod n).

(** [time.Sleep(d)] *)
Definition sleep (d : Duration) : M unit := modify (add_log (Sleep d)).

(** ** What a run leaves behind *)

(** The state of the database: the three tables and the two sequences. *)
Definition database (w : World)
  : list DestRow * Z * list EventRow * list UserRow * Z :=
  (dests w, dest_seq w, events w, users w, user_seq w).

(** The world after one statement: the fault at the head of the schedule
    is consumed and the statement is logged with it. *)
Definition next_fault (w : World) : option error := hd None (faults w).
Definition after_sql (s : Stmt) (w : World) : World :=
  add_log (Sql s (next_fault w)) (set_faults (tl (faults w)) w).

(** Nothing but the schedule, the random draws and the log differ. *)
Definition same_db (w w' : World) : Prop :=
  database w' = database w /\ clock w' = clock w /\ ctx_err w' = ctx_err w
  /\ graph w' = graph w.

(** The log only grows. *)
Definition log_grows (w w' : World) : Prop :=
  exists l, log w' = (l ++ log w)%list.

(** A computation whose every run, whatever the outcome, relates the world
    it starts in to the world it ends in. *)
Definition respects (R : World -> World -> Prop) {A} (m : M A) : Prop :=
  forall w, R w (world_of (m w)).

(** No statement left in the schedule is made to fail. *)
Definition no_faults (w : World) : Prop :=
  Forall (fun f => f = None) (faults w).

(** The statements of a log that are searches, oldest first. *)
Definition searchesOf (l : list Effect) : list EventSearchRequest :=
  omap (fun ev => match ev with
                  | Sql (SearchEvents p) _ => Some p
                  | _ => None
                  end) (rev l).

(** The driver errors logged with failed statements. *)
Definition failuresOf (l : list Effect) : list (Stmt * error) :=
  omap (fun ev => match ev with
                  | Sql s (Some e) => Some (s, e)
                  | _ => None
                  end) (rev l).

(** The sleeps of a log, oldest first. *)
Definition sleepsOf (l : list Effect) : list Duration :=
  omap (fun ev => match ev with Sleep d => Some d | _ => None end) (rev l).

(** How many times a log asks the store for a token. *)
Definition isTokenSelect (ev : Effect) : bool :=
  match ev with Sql SelectRandomToken _ => true | _ => false end.
Definition tokenSelectsOf (l : list Effect) : nat :=
  length (List.filter isTokenSelect l).

(** A run that left the signal as it was and logged [l], with [n] token
    requests and no sleep. *)
Definition footprint (n : nat) (w w' : World) : Prop :=
  exists l, log w' = (l ++ log w)%list
            /\ sleepsOf l = [] /\ tokenSelectsOf l = n
            /\ ctx_err w' = ctx_err w.

(** A computation that always returns, in a world related to the one it
    started in. *)
Definition runs (R : World -> World -> Prop) {A} (m : M A) : Prop :=
  forall w, exists a w', m w = Ret a w' /\ R w w'.

(** Everything but the table [dests], its sequence, the schedule, the
    draws and the log is as before. *)
Definition same_but_dests (w w' : World) : Prop :=
  events w' = events w /\ users w' = users w /\ user_seq w' = user_seq w
  /\ clock w' = clock w /\ ctx_err w' = ctx_err w /\ graph w' = graph w.

End World.

(* ===================================================================== *)
(** * Package pg: the three stores                                        *)
(* ===================================================================== *)

(** What the code takes from outside the repository's own logic: the
    polygon that [geojson.CircleGeom] computes in floating point, and
    PostGIS's [ST_Within] of a point in the polygon read from GeoJSON. *)
Class Geo : Type := {
  CircleGeom : PrimFloat.float -> PrimFloat.float -> PrimFloat.float -> string;
  ST_Within : option (PrimFloat.float * PrimFloat.float) -> string -> bool
}.

Module Pg.
Import Errors Eventdb World.

#[local] Open Scope Z_scope.

(** [func pgErr(err error) error] *)
Definition pgErr (err : error) : error :=
  match err with
  | ErrNoRows => E_of (ArgKind NotExist) []
  | ErrPq code msg =>
      if bool_decide (code = "unique_violation")
      then E_of (ArgKind Exist) [ArgString msg]
      else if bool_decide (code = "query_canceled")
      then E_of (ArgError ErrCanceled) []
      else err
  | _ => err
  end.

(** [err == sql.ErrNoRows] *)
Definition isNoRows (err : error) : bool :=
  match err with ErrNoRows => true | _ => false end.

(** ** DestStore *)

Definition zeroDest : Dest := mkDest "" "" "" None "" "" 0.

Definition toDest (r : DestRow) : Dest :=
  mkDest (d_id r) (d_user_id r) (d_event_id r) None
    (default "" (d_status r)) (default "" (d_feedback r)) (d_created_at r).

(** [func (s *DestStore) list]: [q] is the clause appended to the SELECT;
    it may be rejected by the database. *)
Definition DestStore_list (q : list DestRow -> error + list DestRow)
  : M (list Dest * option error) :=
  f ← sql SelectDests;
  w ← get;
  match f, q (dests w) with
  | Some err, _ | None, inl err =>
      mret ([], Some (E_of (ArgError (pgErr err)) [ArgString "dest list"]))
  | None, inr rows => mret (map toDest rows, None)
  end.

Definition pageSize : Z := 10.

(** [func (s *DestStore) ListForUser]: WHERE user_id = $1 ORDER BY
    created_at DESC OFFSET $2 LIMIT $3.  The table is kept newest first. *)
Definition DestStore_ListForUser (userID : UserID) (opts : DestListRequest)
  : M (list Dest * option error) :=
  let offset := Page opts * pageSize in
  let limit := pageSize in
  DestStore_list (fun rows =>
    if offset <? 0
    then inl (ErrPq "invalid_row_count_in_result_offset_clause"
                    "OFFSET must not be negative")
    else inr (take (Z.to_nat limit)
                (drop (Z.to_nat offset)
                   (List.filter (fun r => bool_decide (d_user_id r = userID)) rows)))).

(** [func (s *DestStore) Get] *)
Definition DestStore_Get (id : DestID) : M (Dest * option error) :=
  '(ds, err) ← DestStore_list (fun rows =>
     inr (List.filter (fun r => bool_decide (d_id r = id)) rows));
  match err, ds with
  | Some e, _ => mret (zeroDest, Some e)
  | None, [] =>
      mret (zeroDest, Some (E_of (ArgKind NotExist) [ArgString "dest not found"]))
  | None, d :: _ => mret (d, None)
  end.

(** [func (s *DestStore) Create]: nothing is written unless the
    transaction commits; the sequence is advanced by the INSERT even when
    the transaction later rolls back. *)
Definition DestStore_Create (dest : Dest) : M (Dest * option error) :=
  f ← sql BeginTx;
  match f with
  | Some err => mret (dest, Some err)
  | None =>
      f ← sql InsertDest;
      match f with
      | Some err =>
          mret (dest, Some (E_of (ArgError (pgErr err)) [ArgString "get dest id"]))
      | None =>
          w ← get;
          let sequence := dest_seq w + 1 in
          _ ← modify (set_dest_seq sequence);
          let destID := pretty sequence in
          f ← sql UpdateDestID;
          match f with
          | Some err =>
              mret (dest, Some (E_of (ArgError (pgErr err))
                                   [ArgString "set dest hash id"]))
          | None =>
              f ← sql Commit;
              match f with
              | Some err => mret (dest, Some (pgErr err))
              | None =>
                  w ← get;
                  _ ← modify (set_dests
                         (mkDestRow sequence destID (DUserID dest) (DEventID dest)
                            None None (db_now w) :: dests w));
                  DestStore_Get destID
              end
          end
      end
  end.

(** ** EventStore *)

Definition zeroEvent : Event :=
  mkEvent "" "" "" 0%float 0%float 0 0 false "" "" "" false.

(** The SQL functions of [EventStore.Init]. *)
Definition f_event_start_time (d : EventData) : Instant := j_start_time d.
Definition f_event_end_time (d : EventData) : Instant :=
  default (f_event_start_time d + Hour) (j_end_time d).
Definition f_event_address (d : EventData) : option string := j_street d.
Definition f_event_duration (d : EventData) : Duration :=
  f_event_end_time d - f_event_start_time d.

(** [tstzrange(s1, e1) && tstzrange(s2, e2)]: the half-open ranges share an
    instant. *)
Definition tstzrange_overlap (s1 e1 s2 e2 : Instant) : bool :=
  Z.max s1 s2 <? Z.min e1 e2.

(** The SELECT list of [fetchEvents]. *)
Definition toEvent (r : EventRow) : Event :=
  let d := e_data r in
  mkEvent (j_id d)
    (default "" (j_name d))
    (default "" (j_description d))
    (match e_geom r with Some (_, lat) => lat | None => 0%float end)
    (match e_geom r with Some (lng, _) => lng | None => 0%float end)
    (f_event_start_time d)
    (f_event_end_time d)
    (default false (j_is_canceled d))
    (default "" (j_cover d))
    (default "" (j_place_name d))
    (default "" (f_event_address d))
    (default false (e_is_bad r)).

(** ORDER BY start_time ASC, as a stable insertion sort. *)
Fixpoint insertByStart (e : Event) (l : list Event) : list Event :=
  match l with
  | [] => [e]
  | x :: l' =>
      if StartTime e <? StartTime x then e :: l else x :: insertByStart e l'
  end.
Definition sortByStart (l : list Event) : list Event :=
  fold_right insertByStart [] l.

(** [func (e *EventStore) fetchEvents] *)
Definition fetchEvents (eventIDs : list EventID) : M (list Event * option error) :=
  f ← sql SelectEvents;
  match f with
  | Some err =>
      mret ([], Some (E_of (ArgError (pgErr err)) [ArgString "select events"]))
  | None =>
      w ← get;
      mret (sortByStart
              (map toEvent
                 (List.filter
                    (fun r => existsb (fun id => bool_decide (e_id r = id)) eventIDs)
                    (events w))), None)
  end.

Section Search.
Context `{Geo}.

(** The WHERE clause of [doSearch]. *)
Definition searchMatches (params : EventSearchRequest) (r : EventRow) : bool :=
  let d := e_data r in
  ST_Within (e_geom r) (Bounds params)
  && bool_decide (is_Some (f_event_address d))
  && tstzrange_overlap (f_event_start_time d) (f_event_end_time d)
       (Start params) (End_ params)
  && (f_event_duration d <? 10 * Hour)
  && (IncludeBad params
      || match e_is_bad r with None => true | Some b => negb b end).

(** [func (e *EventStore) doSearch] *)
Definition doSearch (params : EventSearchRequest)
  : M (list EventID * option error) :=
  f ← sql (SearchEvents params);
  match f with
  | Some err => mret ([], Some (pgErr err))
  | None =>
      w ← get;
      mret (map (fun r => j_id (e_data r))
              (List.filter (searchMatches params) (events w)), None)
  end.

(** [func (e *EventStore) Search] *)
Definition EventStore_Search (params : EventSearchRequest)
  : M (list Event * option error) :=
  '(eventIDs, err) ← doSearch params;
  match err with
  | Some e => mret ([], Some e)
  | None =>
      '(evs, err) ← fetchEvents eventIDs;
      match err with
      | Some e => mret ([], Some e)
      | None => mret (evs, None)
      end
  end.

End Search.

(** [func (e *EventStore) GetByID] *)
Definition EventStore_GetByID (eventID : EventID) : M (Event * option error) :=
  '(evs, err) ← fetchEvents [eventID];
  match err, evs with
  | Some e, _ => mret (zeroEvent, Some (E_of (ArgError e) []))
  | None, [] => mret (zeroEvent, Some (E_of (ArgKind NotExist) []))
  | None, event :: _ => mret (event, None)
  end.

(** [func (e *EventStore) GetMulti] *)
Definition EventStore_GetMulti (eventIDs : list EventID)
  : M (list Event * option error) :=
  '(evs, err) ← fetchEvents eventIDs;
  match err with
  | Some e => mret (evs, Some (E_of (ArgError e) [ArgString "get multi"]))
  | None => mret (evs, None)
  end.

(** INSERT ... ON CONFLICT (id) DO UPDATE SET data = $2, then the UPDATE
    of geom from place.location. *)
Fixpoint upsertEvent (data : EventData) (rows : list EventRow) : list EventRow :=
  match rows with
  | [] => [mkEventRow (j_id data) data None (j_location data)]
  | r :: rest =>
      if bool_decide (e_id r = j_id data)
      then mkEventRow (e_id r) data (e_is_bad r) (j_location data) :: rest
      else r :: upsertEvent data rest
  end.

(** [func (e *EventStore) Save] *)
Definition EventStore_Save (eventJS : RawMessage) : M (Event * option error) :=
  match eventJS with
  | None => mret (zeroEvent, Some (ErrForeign "json: cannot unmarshal"))
  | Some data =>
      let eventID := j_id data in
      f ← sql BeginTx;
      match f with
      | Some err => mret (zeroEvent, Some (pgErr err))
      | None =>
          f ← sql UpsertEvent;
          match f with
          | Some err =>
              mret (zeroEvent,
                    Some (E_of (ArgError (pgErr err)) [ArgString "insert event"]))
          | None =>
              f ← sql UpdateGeom;
              match f with
              | Some err =>
                  mret (zeroEvent,
                        Some (E_of (ArgError (pgErr err)) [ArgString "set geom"]))
              | None =>
                  f ← sql Commit;
                  match f with
                  | Some err => mret (zeroEvent, Some (pgErr err))
                  | None =>
                      w ← get;
                      _ ← modify (set_events (upsertEvent data (events w)));
                      '(event, err) ← EventStore_GetByID eventID;
                      mret (event, err)
                  end
              end
          end
      end
  end.

(** [func (e *EventStore) SetBad] *)
Definition EventStore_SetBad (eventID : EventID) (isBad : bool)
  : M (option error) :=
  f ← sql UpdateBad;
  match f with
  | Some err => mret (Some err)
  | None =>
      w ← get;
      _ ← modify (set_events
             (map (fun r =>
                     if bool_decide (e_id r = eventID)
                     then mkEventRow (e_id r) (e_data r) (Some isBad) (e_geom r)
                     else r) (events w)));
      mret None
  end.

(** ** UserStore *)

Definition zeroUser : User := mkUser "" "" "" "" 0.

Definition hasToken (r : UserRow) : bool :=
  match u_facebook_token r with
  | Some t => (0 <? Z.of_nat (String.length t))
  | None => false
  end.

(** [func (u *UserStore) RandomFBToken]: the row at a random offset among
    the users holding a token. *)
Definition UserStore_RandomFBToken : M (UserID * string * option error) :=
  f ← sql SelectRandomToken;
  w ← get;
  let holders := List.filter hasToken (users w) in
  match f with
  | Some err =>
      if isNoRows err
      then mret ("", "", Some (E_of (ArgString "no facebook tokens available")
                                 [ArgError (pgErr err)]))
      else mret ("", "", Some (pgErr err))
  | None =>
      match holders with
      | [] =>
          mret ("", "", Some (E_of (ArgString "no facebook tokens available")
                                [ArgError (pgErr ErrNoRows)]))
      | _ =>
          r ← draw;
          match holders !! Z.to_nat (r mod Z.of_nat (length holders)) with
          | Some row => mret (u_user_id row, default "" (u_facebook_token row), None)
          | None => panic "offset out of range"
          end
      end
  end.

(** [strings.Split(s, ",")] *)
Fixpoint splitComma (s : string) : list string :=
  match s with
  | EmptyString => [""]
  | String c rest =>
      if bool_decide (c = ","%char) then "" :: splitComma rest
      else match splitComma rest with
           | h :: t => String c h :: t
           | [] => [String c ""]
           end
  end.

(** The columns one mask field assigns. *)
Definition applyField (update : UserUpdate) (r : UserRow) (field : string) : UserRow :=
  if bool_decide (field = "timeZone")
  then mkUserRow (u_sequence r) (u_user_id r) (Some (UTimeZone update))
         (u_facebook_id r) (u_facebook_token r) (u_birthday r)
  else if bool_decide (field = "facebookID")
  then mkUserRow (u_sequence r) (u_user_id r) (u_time_zone r)
         (Some (UFacebookID update)) (u_facebook_token r) (u_birthday r)
  else if bool_decide (field = "facebookToken")
  then mkUserRow (u_sequence r) (u_user_id r) (u_time_zone r)
         (u_facebook_id r) (Some (UFacebookToken update)) (u_birthday r)
  else if bool_decide (field = "birthday")
  then mkUserRow (u_sequence r) (u_user_id r) (u_time_zone r)
         (u_facebook_id r) (u_facebook_token r) (Some (UBirthday update))
  else r.

Definition knownField (field : string) : bool :=
  bool_decide (field = "timeZone") || bool_decide (field = "facebookID")
  || bool_decide (field = "facebookToken") || bool_decide (field = "birthday").

Definition applyMask (update : UserUpdate) (r : UserRow) : UserRow :=
  fold_left (applyField update) (splitComma (Mask update)) r.

Definition toUser (r : UserRow) : User :=
  mkUser (u_user_id r) (default "" (u_time_zone r)) (default "" (u_facebook_id r))
    (default "" (u_facebook_token r)) (default 0 (u_birthday r)).

(** [func (u *UserStore) GetByID] *)
Definition UserStore_GetByID (userID : UserID) : M (User * option error) :=
  f ← sql SelectUser;
  w ← get;
  match f with
  | Some err => mret (zeroUser, Some (pgErr err))
  | None =>
      match List.filter (fun r => bool_decide (u_user_id r = userID)) (users w) with
      | [] => mret (zeroUser, Some (pgErr ErrNoRows))
      | r :: _ => mret (toUser r, None)
      end
  end.

(** [func (u *UserStore) Update]: INSERT INTO users(...) VALUES(...), with
    ON CONFLICT (user_id) DO UPDATE SET ... when the mask names a column. *)
Definition UserStore_Update (userID : UserID) (update : UserUpdate)
  : M (User * option error) :=
  f ← sql UpsertUser;
  w ← get;
  let exists_ := existsb (fun r => bool_decide (u_user_id r = userID)) (users w) in
  let hasUpdates := existsb knownField (splitComma (Mask update)) in
  match f with
  | Some err => mret (zeroUser, Some (pgErr err))
  | None =>
      if exists_ && negb hasUpdates
      then mret (zeroUser,
                 Some (pgErr (ErrPq "unique_violation"
                         "duplicate key value violates unique constraint")))
      else
        _ ← (if exists_
             then modify (set_users
                    (map (fun r => if bool_decide (u_user_id r = userID)
                                   then applyMask update r else r) (users w)))
             else modify (fun w =>
                    set_user_seq (user_seq w + 1)
                      (set_users
                         (users w ++
                          [applyMask update
                             (mkUserRow (user_seq w + 1) userID None None None None)])
                         w)));
        '(user, err) ← UserStore_GetByID userID;
        match err with
        | Some e => mret (zeroUser, Some (pgErr e))
        | None => mret (user, None)
        end
  end.

(** What the update of [EventSubmit] for an expired token makes of a row:
    the token of the rows of [fetcherID] becomes the empty string. *)
Definition expireToken (fetcherID : UserID) (r : UserRow) : UserRow :=
  if bool_decide (u_user_id r = fetcherID)
  then applyMask (mkUserUpdate "" "" "" 0 "facebookToken") r
  else r.

(** ** The rows the queries select *)

(** The first page of a user's rows of [dests], newest first. *)
Definition historyPage (userID : UserID) (rows : list DestRow) : list DestRow :=
  take (Z.to_nat pageSize)
    (List.filter (fun r => bool_decide (d_user_id r = userID)) rows).

(** The events [fetchEvents] returns when the statement does not fail. *)
Definition fetched (eventIDs : list EventID) (rows : list EventRow) : list Event :=
  sortByStart
    (map toEvent
       (List.filter
          (fun r => existsb (fun id => bool_decide (e_id r = id)) eventIDs) rows)).

(** The unique index on [events.id], and the id column agreeing with the
    id in the document, as [Save] writes them. *)
Definition events_wf (rows : list EventRow) : Prop :=
  NoDup (map e_id rows) /\ Forall (fun r => e_id r = j_id (e_data r)) rows.

(** The row [Create] inserts. *)
Definition newRow (dest : Dest) (w : World) : DestRow :=
  mkDestRow (dest_seq w + 1) (pretty (dest_seq w + 1)) (DUserID dest)
    (DEventID dest) None None (db_now w).


End Pg.

(* ===================================================================== *)
(** * Package facebook                                                    *)
(* ===================================================================== *)

Module Facebook.
Import Errors World.

(** [func IsTokenExpired(err error) bool] *)
Definition IsTokenExpired (err : option error) : bool :=
  match err with
  | Some (ErrFacebook e) =>
      bool_decide (FBType e = "OAuthException") && bool_decide (Code e = 190%Z)
  | _ => false
  end.

(** The [service.FacebookClient] interface: [GetEventInfo] of the client
    built from [oauthToken] answers with the next reply of the Graph API. *)
Definition GetEventInfo (oauthToken : string) (ids : list string)
  : M (list RawMessage * option error) := fun w =>
  match graph w with
  | [] => Ret ([], None) (add_log (GraphAPI oauthToken ids) w)
  | reply :: rest =>
      Ret reply (add_log (GraphAPI oauthToken ids) (set_graph rest w))
  end.

End Facebook.

(* ===================================================================== *)
(** * Package service                                                     *)
(* ===================================================================== *)

Module Service.
Import Errors Eventdb World Pg Facebook.

#[local] Open Scope Z_scope.

(** [auth.Info], as [auth.User(ctx)] returns it. *)
Record Info : Type := mkInfo { AuthID : string; IsAdmin : bool }.

(** ** retry and EventSubmit *)

(** [(math.Pow(2, retries) + rand.Float64()) * float64(time.Second)]
    truncated to a [Duration]; the draw is the numerator of the fraction
    over 2^53 and the arithmetic is exact. *)
Definition backoff (retries : nat) (r : Z) : Duration :=
  ((2 ^ Z.of_nat retries * 2 ^ 53 + r mod 2 ^ 53) * Second) / 2 ^ 53.


(** [func retry(ctx, count, f)]: the RETRY label is the head of the
    recursion, [retries] counts down. *)
Fixpoint retry (retries : nat) (f : M (option error)) : M (option error) :=
  w ← get;
  match ctx_err w with
  | Some err => mret (Some err)
  | None =>
      r ← f;
      match r with
      | None => mret None
      | Some err =>
          match retries with
          | O => mret (Some err)
          | S retries' =>
              j ← draw;
              _ ← sleep (backoff retries' j);
              retry retries' f
          end
      end
  end.

(** The [for _, e := range events] loop of an attempt. *)
Fixpoint saveEvents (op : string) (events : list RawMessage) : M (option error) :=
  match events with
  | [] => mret None
  | e :: rest =>
      '(event, err) ← EventStore_Save e;
      match err with
      | Some x =>
          mret (Some (E_of (ArgOp op) [ArgKind Internal; ArgString "save event";
                                       ArgError x]))
      | None =>
          err ← EventStore_SetBad (ID event) (IsBadEvent event);
          match err with
          | Some x =>
              mret (Some (E_of (ArgOp op) [ArgKind Internal; ArgString "mark bad";
                                           ArgError x]))
          | None => saveEvents op rest
          end
      end
  end.

(** The function literal passed to [retry] in [EventSubmit]. *)
Definition submitAttempt (op : string) (userID : UserID) (eventIDs : list EventID)
  : M (option error) :=
  '(fetcherID, oauthToken, err) ← UserStore_RandomFBToken;
  match err with
  | Some e =>
      mret (Some (E_of (ArgOp op) [ArgKind Internal; ArgUserID userID; ArgError e]))
  | None =>
      '(events, err) ← GetEventInfo oauthToken eventIDs;
      if IsTokenExpired err then
        '(_, err) ← UserStore_Update fetcherID
                      (mkUserUpdate "" "" "" 0 "facebookToken");
        match err with
        | Some e =>
            mret (Some (E_of (ArgOp op) [ArgUserID userID;
                                         ArgString "expire user token"; ArgError e]))
        | None =>
            mret (Some (E_of (ArgOp op) [ArgUserID userID;
                                         ArgString "facebook token expired"]))
        end
      else
        match err with
        | Some e => mret (Some e)
        | None => saveEvents op events
        end
  end.

(** [func (s *Service) EventSubmit] *)
Definition EventSubmit (currentUser : Info) (eventIDs : list EventID)
  : M (option error) :=
  let op := "Service.EventSubmit" in
  let userID := AuthID currentUser in
  if bool_decide (userID = "") then
    mret (Some (E_of (ArgOp op) [ArgKind Permission]))
  else if 50 <? Z.of_nat (length eventIDs) then
    let err := ErrString ("event list length ("
                          ++ pretty (Z.of_nat (length eventIDs)) ++ ") > max (50)") in
    mret (Some (E_of (ArgOp op) [ArgKind Invalid; ArgUserID userID; ArgError err]))
  else
    err ← retry 3 (submitAttempt op userID eventIDs);
    match err with
    | Some e => mret (Some (E_of (ArgOp op) [ArgError e]))
    | None => mret None
    end.

(** ** DestList *)

(** The side-loading loop: the first event with the dest's id. *)
Definition sideLoad (events : list Event) (dest : Dest) : Dest :=
  match List.find (fun event => bool_decide (DEventID dest = ID event)) events with
  | Some event =>
      mkDest (DID dest) (DUserID dest) (DEventID dest) (Some event)
        (Status dest) (Feedback dest) (CreatedAt dest)
  | None => dest
  end.

(** [func (s *Service) DestList]; the user id is passed to [E] as a plain
    string there. *)
Definition DestList (currentUser : Info) (opts : DestListRequest)
  : M (list Dest * option error) :=
  let op := "Service.DestList" in
  let userID := AuthID currentUser in
  if bool_decide (userID = "") then
    mret ([], Some (E_of (ArgOp op) [ArgKind NotLoggedIn]))
  else
    '(dests, err) ← DestStore_ListForUser userID opts;
    match err with
    | Some e => mret ([], Some (E_of (ArgOp op) [ArgString userID; ArgError e]))
    | None =>
        let eventIDs := map DEventID dests in
        '(events, err) ← EventStore_GetMulti eventIDs;
        match err with
        | Some e => mret ([], Some (E_of (ArgOp op) [ArgString userID; ArgError e]))
        | None => mret (map (sideLoad events) dests, None)
        end
    end.

(** ** nextEvent and DestGenerate *)

Section Generate.
Context `{Geo}.

Definition timeWindow : Duration := 90 * Minute.
Definition radiusM : PrimFloat.float := 8000%float.

(** The body of [for _, event := range events]: an event is kept unless it
    was suggested before or will have ended on arrival. *)
Definition isGood (now : Instant) (alreadyChosen : list Dest) (event : Event) : bool :=
  let badEvent :=
    existsb (fun chosen => bool_decide (DEventID chosen = ID event)) alreadyChosen in
  let arriveTime := now + 30 * Minute in
  let badEvent := if arriveTime >? EndTime event then true else badEvent in
  negb badEvent.

(** The [for { ... }] loop of [nextEvent], at most [fuel] turns of it. *)
Fixpoint searchLoop (fuel : nat) (userID : UserID) (now : Instant) (bounds : string)
  (alreadyChosen : list Dest) (searchTime : Instant)
  : M (EventID * DestGenerateResult * option error) :=
  match fuel with
  | O => unfinished
  | S fuel' =>
      if searchTime - now >? 48 * Hour then mret ("", GenerateNoResults, None)
      else
        '(events, err) ← EventStore_Search
            (mkEventSearchRequest bounds searchTime (searchTime + timeWindow) false);
        match err with
        | Some e =>
            if Is NotExist e then mret ("", GenerateNoResults, None)
            else mret ("", GenerateError,
                       Some (E_of (ArgOp "Service.nextEvent")
                               [ArgUserID userID; ArgString "search failed";
                                ArgError e]))
        | None =>
            let goodEvents := List.filter (isGood now alreadyChosen) events in
            match goodEvents with
            | [] => searchLoop fuel' userID now bounds alreadyChosen
                      (searchTime + timeWindow)
            | _ =>
                n ← Intn (Z.of_nat (length goodEvents));
                match goodEvents !! Z.to_nat n with
                | Some event => mret (ID event, GenerateOK, None)
                | None => panic "index out of range"
                end
            end
        end
  end.

(** [func (s *Service) nextEvent] *)
Definition nextEvent (fuel : nat) (userID : UserID) (opts : DestGenerateRequest)
  : M (EventID * DestGenerateResult * option error) :=
  let op := "Service.nextEvent" in
  w ← get;
  let now := clock w in
  let bounds := CircleGeom (Lat opts) (Lng opts) radiusM in
  '(alreadyChosen, err) ← DestStore_ListForUser userID (mkDestListRequest 0);
  match err with
  | Some e =>
      mret ("", GenerateError,
            Some (E_of (ArgOp op) [ArgUserID userID; ArgError e; ArgString "list dests"]))
  | None =>
      let search :=
        searchLoop fuel userID now bounds alreadyChosen (now + 10 * Minute) in
      match alreadyChosen with
      | lastDest :: _ =>
          '(lastEvent, err) ← EventStore_GetByID (DEventID lastDest);
          match err with
          | Some e =>
              mret ("", GenerateError,
                    Some (E_of (ArgOp op) [ArgUserID userID; ArgError e;
                                           ArgString "get last event"]))
          | None =>
              if StartTime lastEvent >? now then mret ("", GenerateWait, None)
              else search
          end
      | [] => search
      end
  end.

(** The closing loop of [DestGenerate]: [*dest.Event] is read, then the
    pointer is cleared in the slice that [reply.Dests] shares. *)
Fixpoint takeEvents (dests : list Dest) : option (list Dest * list Event) :=
  match dests with
  | [] => Some ([], [])
  | dest :: rest =>
      match DEvent dest, takeEvents rest with
      | Some event, Some (ds, es) =>
          Some (mkDest (DID dest) (DUserID dest) (DEventID dest) None
                  (Status dest) (Feedback dest) (CreatedAt dest) :: ds,
                event :: es)
      | _, _ => None
      end
  end.

(** [func (s *Service) DestGenerate] *)
Definition DestGenerate (fuel : nat) (currentUser : Info) (opts : DestGenerateRequest)
  : M (DestGenerateReply * option error) :=
  let op := "Service.DestGenerate" in
  let reply := mkReply GenerateOK [] [] in
  let userID := ReqUserID opts in
  if bool_decide (AuthID currentUser = "") then
    mret (reply, Some (E_of (ArgOp op) [ArgKind Permission]))
  else
    let userID :=
      if bool_decide (userID = "me") || bool_decide (userID = "")
      then AuthID currentUser else userID in
    if bool_decide (userID <> AuthID currentUser) && negb (IsAdmin currentUser) then
      mret (reply, Some (E_of (ArgOp op) [ArgKind Permission]))
    else
      '(chosenID, result, err) ← nextEvent fuel userID opts;
      match err with
      | Some e =>
          mret (reply, Some (E_of (ArgOp op) [ArgKind Internal;
                                              ArgString "nextEvent failed"; ArgError e]))
      | None =>
          let reply := mkReply result (Dests reply) (Events reply) in
          err ← (if bool_decide (result = GenerateOK)
                 then '(_, err) ← DestStore_Create
                                    (mkDest "" userID chosenID None "" "" 0);
                      mret err
                 else mret None);
          match err with
          | Some e =>
              mret (reply, Some (E_of (ArgOp op) [ArgUserID userID; ArgKind Internal;
                                                  ArgString "create dest"; ArgError e]))
          | None =>
              '(dests, err) ← DestList currentUser (mkDestListRequest 0);
              match err with
              | Some e =>
                  mret (reply, Some (E_of (ArgOp op) [ArgUserID userID; ArgKind Internal;
                                                      ArgString "list dests"; ArgError e]))
              | None =>
                  match takeEvents dests with
                  | Some (ds, destEvents) => mret (mkReply result ds destEvents, None)
                  | None => panic "nil pointer dereference"
                  end
              end
          end
      end.

(** ** The windows of the search and the candidates of a call *)

(** The request [nextEvent] sends for the window starting at [t]. *)
Definition windowRequest (bounds : string) (t : Instant) : EventSearchRequest :=
  mkEventSearchRequest bounds t (t + timeWindow) false.

(** The starts of [n] successive windows from [t]. *)
Fixpoint windows (n : nat) (t : Instant) : list Instant :=
  match n with
  | O => []
  | S n' => t :: windows n' (t + timeWindow)
  end.

(** How many windows the loop can still query once [searchTime] is [t]. *)
Definition windowsLeft (now t : Instant) : nat :=
  if t - now >? 48 * Hour then O
  else S (Z.to_nat ((48 * Hour - (t - now)) / timeWindow)).

(** A row the search can return for some window and the filter keeps. *)
Definition candidate (now : Instant) (bounds : string) (alreadyChosen : list Dest)
  (r : EventRow) : bool :=
  ST_Within (e_geom r) bounds
  && bool_decide (is_Some (f_event_address (e_data r)))
  && (f_event_duration (e_data r) <? 10 * Hour)
  && match e_is_bad r with None => true | Some b => negb b end
  && isGood now alreadyChosen (toEvent r).

(** The user whose history a request is about, and the check on it. *)
Definition resolveUser (currentUser : Info) (opts : DestGenerateRequest) : UserID :=
  if bool_decide (ReqUserID opts = "me") || bool_decide (ReqUserID opts = "")
  then AuthID currentUser else ReqUserID opts.

Definition authorized (currentUser : Info) (opts : DestGenerateRequest) : Prop :=
  AuthID currentUser <> ""
  /\ (resolveUser currentUser opts = AuthID currentUser \/ IsAdmin currentUser = true).

(** ** What the runs of the loop and of [nextEvent] end in *)

Section Outcomes.
Variables (userID : UserID) (now : Instant) (bounds : string)
          (alreadyChosen : list Dest).

(** The error of the loop when a search fails. *)
Definition searchError (e : error) : error :=
  E_of (ArgOp "Service.nextEvent")
    [ArgUserID userID; ArgString "search failed"; ArgError e].

(** The events of one window that pass the filter. *)
Definition goodOf (t : Instant) (w : World) : list Event :=
  List.filter (isGood now alreadyChosen)
    (fetched (map (fun r => j_id (e_data r))
                (List.filter (searchMatches (windowRequest bounds t)) (events w)))
       (events w)).

(** What a run of the loop that logged [l] can end in. *)
Definition loop_outcome (w : World) (l : list Effect)
  (out : Res (EventID * DestGenerateResult * option error)) : Prop :=
  match out with
  | Ret (id, r, err) _ =>
      (r = GenerateOK /\ err = None /\ failuresOf l = []
       /\ exists ev, In ev (map toEvent (events w)) /\ ID ev = id
                     /\ isGood now alreadyChosen ev = true)
      \/ (r = GenerateNoResults /\ err = None /\ id = ""
          /\ (failuresOf l = []
              \/ exists p e, failuresOf l = [(SearchEvents p, e)]
                             /\ Is NotExist (pgErr e) = true))
      \/ (r = GenerateError /\ id = ""
          /\ (exists x, err = Some (ErrDomain x) /\ Op x = "Service.nextEvent")
          /\ exists s e, failuresOf l = [(s, e)]
                         /\ forall p, s = SearchEvents p ->
                                      Is NotExist (pgErr e) = false)
  | Panic _ _ => False
  | Unfinished _ => True
  end.

End Outcomes.

Section NextOutcomes.
Variables (userID : UserID) (opts : DestGenerateRequest).

(** The error of [nextEvent] when reading the history fails. *)
Definition historyError (text : string) (e : error) : error :=
  E_of (ArgOp "Service.nextEvent") [ArgUserID userID; ArgError e; ArgString text].

(** The region [nextEvent] searches. *)
Definition boundsOf : string := CircleGeom (Lat opts) (Lng opts) radiusM.

(** The page of the history that [nextEvent] reads. *)
Definition historyOf (w : World) : list Dest :=
  map toDest (historyPage userID (dests w)).

(** What a run of [nextEvent] that logged [l] can end in. *)
Definition next_outcome (w : World) (l : list Effect)
  (out : Res (EventID * DestGenerateResult * option error)) : Prop :=
  match out with
  | Ret (id, r, err) _ =>
      (r = GenerateOK /\ err = None /\ failuresOf l = []
       /\ exists ev, In ev (map toEvent (events w)) /\ ID ev = id
                     /\ isGood (clock w) (historyOf w) ev = true)
      \/ (r = GenerateWait /\ err = None /\ id = "" /\ failuresOf l = []
          /\ searchesOf l = []
          /\ exists lastDest rest lastEvent rest',
              historyOf w = lastDest :: rest
              /\ fetched [DEventID lastDest] (events w) = lastEvent :: rest'
              /\ StartTime lastEvent > clock w)
      \/ (r = GenerateNoResults /\ err = None /\ id = ""
          /\ (failuresOf l = []
              \/ exists p e, failuresOf l = [(SearchEvents p, e)]
                             /\ Is NotExist (pgErr e) = true))
      \/ (r = GenerateError /\ id = ""
          /\ (exists x, err = Some (ErrDomain x) /\ Op x = "Service.nextEvent")
          /\ (failuresOf l = []
              \/ exists s e, failuresOf l = [(s, e)]
                             /\ forall p, s = SearchEvents p ->
                                          Is NotExist (pgErr e) = false))
  | Panic _ _ => False
  | Unfinished _ => True
  end.

End NextOutcomes.

(** The part of [DestGenerate] after the choice: create the dest when the
    result is OK, then list the history and build the reply. *)
Definition afterChoice (currentUser : Info) (userID : UserID) (chosenID : EventID)
  (result : DestGenerateResult) : M (DestGenerateReply * option error) :=
  let op := "Service.DestGenerate" in
  let reply := mkReply result [] [] in
  err ← (if bool_decide (result = GenerateOK)
         then '(_, err) ← DestStore_Create (mkDest "" userID chosenID None "" "" 0);
              mret err
         else mret None);
  match err with
  | Some e =>
      mret (reply, Some (E_of (ArgOp op) [ArgUserID userID; ArgKind Internal;
                                          ArgString "create dest"; ArgError e]))
  | None =>
      '(dests, err) ← DestList currentUser (mkDestListRequest 0);
      match err with
      | Some e =>
          mret (reply, Some (E_of (ArgOp op) [ArgUserID userID; ArgKind Internal;
                                              ArgString "list dests"; ArgError e]))
      | None =>
          match takeEvents dests with
          | Some (ds, destEvents) => mret (mkReply result ds destEvents, None)
          | None => panic "nil pointer dereference"
          end
      end
  end.

(** The error [DestGenerate] returns when [nextEvent] fails. *)
Definition nextEventFailed (e : error) : error :=
  E_of (ArgOp "Service.DestGenerate")
    [ArgKind Internal; ArgString "nextEvent failed"; ArgError e].

(** The error [DestGenerate] returns to a caller it refuses. *)
Definition permissionDenied : error :=
  E_of (ArgOp "Service.DestGenerate") [ArgKind Permission].

End Generate.

End Service.

(* ===================================================================== *)
(** * Worlds to run the service in                                        *)
(* ===================================================================== *)

Module Examples.
Import Errors Eventdb World Pg Service.

#[local] Open Scope Z_scope.

(** A geometry in which every event with a location is in the region. *)
Definition exGeo : Geo := {|
  CircleGeom := fun _ _ _ => "circle";
  ST_Within := fun g _ => match g with Some _ => true | None => false end
|}.

(** An event with a name, a street address and a location. *)
Definition exData (id : string) (start : Instant) (end_ : option Instant)
  : EventData :=
  mkEventData id (Some "Concert") (Some "Free entry") None start end_ None
    (Some "Hall") (Some "Main Street 1") (Some (15%float, 45%float)).

Definition exRow (id : string) (start : Instant) (end_ : option Instant)
  : EventRow :=
  mkEventRow id (exData id start end_) None (Some (15%float, 45%float)).

(** A world at time 0 with the given events and schedule of faults, no
    dests and no users. *)
Definition exWorld (evs : list EventRow) (fs : list (option error)) : World :=
  mkWorld [] 0 evs [] 0 0 0 fs [3; 4] [] None [].

Definition exUser : Info := mkInfo "user" false.
Definition exRequest : DestGenerateRequest :=
  mkDestGenerateRequest "" 45%float 15%float.

(** The reply and the error of an outcome. *)
Definition replyOf (out : Res (DestGenerateReply * option error))
  : DestGenerateReply :=
  match out with
  | Ret (reply, _) _ => reply
  | _ => mkReply GenerateError [] []
  end.

(** One event from minute 100 to minute 160. *)
Definition oneEvent : World := exWorld [exRow "1" (100 * Minute) (Some (160 * Minute))] [].

(** The same world after the user was sent to that event. *)
Definition afterOne : World :=
  set_dests [mkDestRow 1 "1" "user" "1" None None 0] (set_dest_seq 1 oneEvent).

(** A visit of the user, as a row of [dests]. *)
Definition visit (sequence : Z) (eventID : EventID) : DestRow :=
  mkDestRow sequence (pretty sequence) "user" eventID None None 0.

(** At minute 100 the user has been sent to eleven events: first to event
    2, which lasts from minute 50 to minute 130, then to the events 10 to
    19, which lasted from minute 0 to minute 60. *)
Definition longHistory : World :=
  mkWorld
    [visit 11 "19"; visit 10 "18"; visit 9 "17"; visit 8 "16"; visit 7 "15";
     visit 6 "14"; visit 5 "13"; visit 4 "12"; visit 3 "11"; visit 2 "10";
     visit 1 "2"]
    11
    (exRow "2" (50 * Minute) (Some (130 * Minute))
     :: map (fun id => exRow id 0 (Some (60 * Minute)))
          ["10"; "11"; "12"; "13"; "14"; "15"; "16"; "17"; "18"; "19"])
    [] 0 0 (100 * Minute) [] [3; 4] [] None [].

(** One event starting 48 hours and 5 minutes from now. *)
Definition justBeyond : World :=
  exWorld [exRow "2" (2885 * Minute) None] [].

(** One event starting 50 hours from now. *)
Definition farAway : World :=
  exWorld [exRow "2" (3000 * Minute) None] [].



(** The Graph API's answer for a token whose session has expired. *)
Definition expired : FBError :=
  mkFBError "Error validating access token: Session has expired"
    "OAuthException" 190 463 "AbCdEf".

(** Two users hold a token; the Graph API rejects the first token it is
    shown as expired. *)
Definition twoHolders : World :=
  mkWorld [] 0 [] [mkUserRow 1 "alice" None None (Some "token-a") None;
                   mkUserRow 2 "bob" None None (Some "token-b") None]
    2 0 0 [] [0] [([], Some (ErrFacebook expired))] None [].



Definition anonymous : Info := mkInfo "" false.
Definition fiftyOne : list EventID := List.repeat "1" 51.

End Examples.

(* ===================================================================== *)
(** * Package errors: messages, Match and the REST responses              *)
(* ===================================================================== *)

Module ErrorsText.
Import Errors.

#[local] Open Scope Z_scope.

(** What the code takes from other packages: the [Error] method of the
    error values of the libraries, [strconv.Quote] (the verb [%q]) and
    [http.StatusText]. *)
Class Library : Type := {
  libraryError : leaf -> string;
  Quote : string -> string;
  StatusText : Z -> string
}.

(** [func (k Kind) String() string] *)
Definition KindString (k : Kind) : string :=
  match k with
  | Other => "other error"
  | NotExist => "item does not exist"
  | Exist => "item already exists"
  | Permission => "permission denied"
  | NotLoggedIn => "not logged in"
  | Invalid => "invalid request"
  | Internal => "internal error"
  end.

(** [func pad(b *bytes.Buffer, str string)], as the buffer it leaves. *)
Definition pad (b str : string) : string :=
  if bool_decide (b = "") then b else b ++ str.

(** The buffer of [Error] before the cause is written. *)
Definition header (e : Error) : string :=
  let b := if bool_decide (Op e = "") then "" else pad "" ": " ++ Op e in
  let b := if bool_decide (UserID e = "") then b
           else pad b ", " ++ "user " ++ UserID e in
  if bool_decide (EKind e = Other) then b else pad b ": " ++ KindString (EKind e).

Section Text.
Context `{Library}.

(** [func (f Error) Error() string] of package facebook. *)
Definition fbError (f : FBError) : string :=
  Message f ++ " type=" ++ Quote (FBType f) ++ " code=" ++ pretty (Code f)
  ++ " subcode=" ++ pretty (Subcode f).

(** The [Error] method of the values that are not [*Error]:
    [errorString] and [facebook.Error] are of this repository. *)
Definition leafError (l : leaf) : string :=
  match l with
  | LString s => s
  | LFacebook f => fbError f
  | _ => libraryError l
  end.

(** The separator before a cause that is a [*Error]: colon, newline, tab. *)
Definition causeSep : string :=
  String ":" (String (ascii_of_nat 10) (String (ascii_of_nat 9) EmptyString)).

(** [func (e *Error) Error() string] and the [Error] method of the other
    values; [printStack] writes nothing without the debug build tag. *)
Fixpoint Error_ (err : error) : string :=
  match err with
  | ErrLeaf l => leafError l
  | ErrDomain e =>
      let b := "" in
      let b := if bool_decide (Op e = "") then b else pad b ": " ++ Op e in
      let b := if bool_decide (UserID e = "") then b
               else pad b ", " ++ "user " ++ UserID e in
      let b := if bool_decide (EKind e = Other) then b
               else pad b ": " ++ KindString (EKind e) in
      let b := match Err e with
               | None => b
               | Some (ErrDomain prev as inner) =>
                   if isZero prev then b else pad b causeSep ++ Error_ inner
               | Some inner => pad b ": " ++ Error_ inner
               end in
      if bool_decide (b = "") then "no error" else b
  end.

(** [func Match(err1, err2 error) bool] from a first argument that is not
    nil. *)
Fixpoint match_ (err1 : error) (err2 : option error) : bool :=
  match err1, err2 with
  | ErrDomain e1, Some (ErrDomain e2) =>
      if negb (bool_decide (UserID e1 = ""))
         && negb (bool_decide (UserID e2 = UserID e1)) then false
      else if negb (bool_decide (Op e1 = ""))
              && negb (bool_decide (Op e2 = Op e1)) then false
      else if negb (bool_decide (EKind e1 = Other))
              && negb (bool_decide (EKind e2 = EKind e1)) then false
      else
        match Err e1 with
        | None => true
        | Some (ErrDomain _ as c1) => match_ c1 (Err e2)
        | Some c1 =>
            match Err e2 with
            | None => false
            | Some c2 => bool_decide (Error_ c2 = Error_ c1)
            end
        end
  | _, _ => false
  end.

(** [func Match(err1, err2 error) bool] *)
Definition Match (err1 err2 : option error) : bool :=
  match err1 with
  | None => false
  | Some e1 => match_ e1 err2
  end.

(** [type Response struct]; [Details] is always nil. *)
Record Response : Type := mkResponse { RError : string; Status : Z }.

(** [func errStatus(err error) int] *)
Definition errStatus (err : option error) : Z :=
  match err with
  | Some ErrCanceled => 400
  | Some (ErrDomain e) =>
      match EKind e with
      | Other => 500
      | Invalid => 400
      | NotLoggedIn => 401
      | Permission => 403
      | NotExist => 404
      | Exist => 409
      | Internal => 500
      end
  | _ => 500
  end.

(** [func errText(err error) string] *)
Definition errText (err : option error) : string :=
  let other := StatusText (errStatus err) in
  match err with
  | Some (ErrDomain e) =>
      match EKind e with
      | Permission =>
          "access to this endpoint is restricted. contact max@findrandomevents.com for more information."
      | NotLoggedIn =>
          "not logged in: please authenticate with firebase and send the token as an Authorization header"
      | Invalid => Error_ (ErrDomain e)
      | _ => other
      end
  | _ => other
  end.

(** [func ResponseForError(err error) Response] *)
Definition ResponseForError (err : option error) : Response :=
  mkResponse (errText err) (errStatus err).


End Text.

End ErrorsText.

(* ===================================================================== *)
(** * Package pg: DestStore.Update                                        *)
(* ===================================================================== *)

Module PgUpdate.
Import Errors Eventdb World Pg.

#[local] Open Scope Z_scope.

(** [type DestUpdate struct] *)
Record DestUpdate : Type := mkDestUpdate {
  DUFeedback : string;
  DUStatus : string;
  DUMask : string
}.

(** The columns the loop over [strings.Split(update.Mask, ",")] appends to
    [fields], in order and with repetitions. *)
Definition destColumns (mask : string) : list string :=
  List.filter (fun field => bool_decide (field = "feedback")
                            || bool_decide (field = "status"))
    (splitComma mask).

(** The assignment of one column. *)
Definition setColumn (update : DestUpdate) (r : DestRow) (field : string) : DestRow :=
  if bool_decide (field = "feedback")
  then mkDestRow (d_sequence r) (d_id r) (d_user_id r) (d_event_id r)
         (Some (DUFeedback update)) (d_status r) (d_created_at r)
  else if bool_decide (field = "status")
  then mkDestRow (d_sequence r) (d_id r) (d_user_id r) (d_event_id r)
         (d_feedback r) (Some (DUStatus update)) (d_created_at r)
  else r.

(** [func (s *DestStore) Update]: UPDATE dests SET ... WHERE id = $1, sent
    as the statement [UpdateDestID] (an UPDATE of table [dests]).  The
    database rejects the statement when the SET list is empty and when it
    assigns a column twice. *)
Definition DestStore_Update (id : DestID) (update : DestUpdate)
  : M (Dest * option error) :=
  let columns := destColumns (DUMask update) in
  f ← sql UpdateDestID;
  match f with
  | Some err => mret (zeroDest, Some (pgErr err))
  | None =>
      match columns with
      | [] =>
          mret (zeroDest,
                Some (pgErr (ErrPq "syntax_error" "syntax error at or near WHERE")))
      | _ :: _ =>
          if bool_decide (base.NoDup columns) then
            w ← get;
            _ ← modify (set_dests
                   (map (fun r => if bool_decide (d_id r = id)
                                  then fold_left (setColumn update) columns r
                                  else r) (dests w)));
            '(dest, err) ← DestStore_Get id;
            match err with
            | Some e => mret (zeroDest, Some (pgErr e))
            | None => mret (dest, None)
            end
          else
            mret (zeroDest,
                  Some (pgErr (ErrPq "syntax_error"
                                 "multiple assignments to same column")))
      end
  end.

End PgUpdate.

(* ===================================================================== *)
(** * Package pg: what the statements select                              *)
(* ===================================================================== *)

Module PgViews.
Import Errors Eventdb World Pg.

#[local] Open Scope Z_scope.


(** The flag of the row an event replaces. *)
Definition oldFlag (id : string) (rows : list EventRow) : option bool :=
  match List.find (fun r => bool_decide (e_id r = id)) rows with
  | Some r => e_is_bad r
  | None => None
  end.

(** Events in the order of their start times. *)
Definition byStart (a b : Event) : Prop := StartTime a <= StartTime b.


End PgViews.

(* ===================================================================== *)
(** * Package service: the other operations                               *)
(* ===================================================================== *)

Module ServiceOps.
Import Errors Eventdb World Pg PgUpdate Facebook Service.

#[local] Open Scope Z_scope.

(** The three bytes of the horizontal ellipsis U+2026 in UTF-8. *)
Definition ellipsis : string :=
  String (ascii_of_nat 226) (String (ascii_of_nat 128)
    (String (ascii_of_nat 166) EmptyString)).

(** The body of the loop of [EventSearch] over a description: [len] and
    the slice count bytes. *)
Definition truncate (desc : string) : string :=
  if 100 <? Z.of_nat (String.length desc)
  then String.substring 0 97 desc ++ ellipsis
  else desc.

Definition setDescription (desc : string) (e : Event) : Event :=
  mkEvent (ID e) (Name e) desc (Latitude e) (Longitude e) (StartTime e)
    (EndTime e) (IsCanceled e) (Cover e) (Place e) (Address e) (IsBad e).

Section Search.
Context `{Geo}.

(** [func (s *Service) EventSearch]; the deadline of 60 seconds it gives
    the search is not modelled. *)
Definition EventSearch (currentUser : Info) (req : EventSearchRequest)
  : M (list Event * option error) :=
  let op := "Service.EventSearch" in
  if negb (IsAdmin currentUser) then
    mret ([], Some (E_of (ArgOp op) [ArgKind Permission]))
  else
    '(events, err) ← EventStore_Search req;
    match err with
    | Some e =>
        mret ([], Some (E_of (ArgOp op) [ArgKind Internal;
                                         ArgString "event search"; ArgError e]))
    | None =>
        mret (map (fun e => setDescription (truncate (Description e)) e) events,
              None)
    end.

End Search.

(** [func (s *Service) EventGet] *)
Definition EventGet (id : EventID) : M (Event * option error) :=
  let op := "Service.EventGet" in
  '(event, err) ← EventStore_GetByID id;
  match err with
  | Some e =>
      mret (event, Some (E_of (ArgOp op) [ArgKind Internal;
                                          ArgString "event get failed"; ArgError e]))
  | None => mret (event, None)
  end.

(** [func (s *Service) DestUpdate]; [currentUser.ID] is a plain string
    for [E]. *)
Definition Service_DestUpdate (currentUser : Info) (id : DestID)
    (update : DestUpdate) : M (Dest * option error) :=
  let op := "Service.DestUpdate" in
  '(dest, err) ← DestStore_Get id;
  match err with
  | Some e => mret (dest, Some e)
  | None =>
      if negb (IsAdmin currentUser)
         && negb (bool_decide (AuthID currentUser = DUserID dest))
      then mret (dest, Some (E_of (ArgOp op) [ArgKind Permission;
                                              ArgString (AuthID currentUser)]))
      else
        '(dest, err) ← DestStore_Update id update;
        match err with
        | Some e =>
            mret (dest, Some (E_of (ArgOp op) [ArgString (AuthID currentUser);
                                               ArgError e]))
        | None => mret (dest, None)
        end
  end.

Definition setEvent (event : option Event) (d : Dest) : Dest :=
  mkDest (DID d) (DUserID d) (DEventID d) event (Status d) (Feedback d)
    (CreatedAt d).

(** [func (s *Service) DestGet]; a failed lookup of the event is written
    to the process log only. *)
Definition DestGet (currentUser : Info) (id : DestID) : M (Dest * option error) :=
  let op := "Service.DestGet" in
  '(dest, err) ← DestStore_Get id;
  match err with
  | Some e =>
      mret (dest, Some (E_of (ArgOp op) [ArgString (AuthID currentUser);
                                         ArgError e]))
  | None =>
      if negb (IsAdmin currentUser)
         && negb (bool_decide (AuthID currentUser = DUserID dest))
      then mret (dest, Some (E_of (ArgOp op) [ArgKind Permission;
                                              ArgString (AuthID currentUser)]))
      else
        '(event, err) ← EventStore_GetByID (DEventID dest);
        match err with
        | None => mret (setEvent (Some event) dest, None)
        | Some _ => mret (dest, None)
        end
  end.

(** [func (s *Service) UserUpdate]; the result is a [*User]. *)
Definition UserUpdate (currentUser : Info) (id : UserID) (update : UserUpdate)
  : M (option User * option error) :=
  let op := "Service.UserUpdate" in
  if negb (bool_decide (id = "me")) then
    mret (None, Some (E_of (ArgOp op) [ArgKind Permission;
                                       ArgString (AuthID currentUser)]))
  else
    '(updatedUser, err) ← UserStore_Update (AuthID currentUser) update;
    match err with
    | Some e =>
        mret (None, Some (E_of (ArgOp op) [ArgKind Permission;
                                           ArgString (AuthID currentUser);
                                           ArgError e]))
    | None => mret (Some updatedUser, None)
    end.

(** [func (s *Service) UserGet] *)
Definition UserGet (currentUser : Info) (id : UserID) : M (User * option error) :=
  let op := "Service.UserGet" in
  if negb (bool_decide (id = "me")) then
    mret (zeroUser, Some (E_of (ArgOp op) [ArgKind Permission;
                                           ArgString (AuthID currentUser)]))
  else
    '(user, err) ← UserStore_GetByID (AuthID currentUser);
    match err with
    | Some e =>
        mret (user, Some (E_of (ArgOp op) [ArgKind Internal;
                                           ArgString (AuthID currentUser);
                                           ArgError e]))
    | None => mret (user, None)
    end.

End ServiceOps.

(* ===================================================================== *)
(** * Package auth: the caller of a request                               *)
(* ===================================================================== *)

Module Auth.
Import Service.

(** What the package reads of an [*http.Request]: the value of the cookie
    named jwt, when the request has one, and the Authorization header,
    empty when the request has none. *)
Record Request : Type := mkRequest {
  CookieJWT : option string;
  Authorization : string
}.

(** The errors of the package.  [ErrExpired] is the package variable;
    an error of the token verifier is kept by its text. *)
Inductive authError : Type :=
| ErrMalformed                       (* "malformed Authorization header" *)
| ErrUnknownType (authType : string) (* "unknown auth type %q" *)
| ErrExpired                         (* "token expired" *)
| ErrVerify (text : string).

(** [strings.Split(s, sep)] for a separator of one byte. *)
Fixpoint Split (sep : ascii) (s : string) : list string :=
  match s with
  | EmptyString => [""]
  | String c rest =>
      if bool_decide (c = sep) then "" :: Split sep rest
      else match Split sep rest with
           | h :: t => String c h :: t
           | [] => [String c ""]
           end
  end.

(** [strings.Contains(s, substr)] *)
Fixpoint Contains (s substr : string) : bool :=
  String.prefix substr s
  || match s with
     | EmptyString => false
     | String _ rest => Contains rest substr
     end.

(** [func parseRequest(r *http.Request) (string, error)] *)
Definition parseRequest (r : Request) : string * option authError :=
  match CookieJWT r with
  | Some value => (value, None)
  | None =>
      let auth := Authorization r in
      if bool_decide (auth = "") then ("", None)
      else
        match Split " " auth with
        | [authType; tokenString] =>
            if bool_decide (authType <> "Bearer")
            then ("", Some (ErrUnknownType authType))
            else (tokenString, None)
        | _ => ("", Some ErrMalformed)
        end
  end.

Section Provider.

(** [f.AuthClient.VerifyIDToken]: the UID of the verified token, or the
    text of the error; and [f.AdminUIDs]. *)
Variables (VerifyIDToken : string -> string + string)
          (AdminUIDs : list string).

(** [func (f *FirebaseProvider) FromRequest] *)
Definition FromRequest (r : Request) : Info * option authError :=
  let '(tokenStr, err) := parseRequest r in
  match err with
  | Some e => (mkInfo "" false, Some e)
  | None =>
      if bool_decide (tokenStr = "") then (mkInfo "" false, None)
      else
        match VerifyIDToken tokenStr with
        | inr text =>
            if Contains text "token has expired"
            then (mkInfo "" false, Some ErrExpired)
            else (mkInfo "" false, Some (ErrVerify text))
        | inl uid =>
            (mkInfo uid (existsb (fun u => bool_decide (u = uid)) AdminUIDs),
             None)
        end
  end.

End Provider.

(** The bytes of a string, for saying which it has. *)
Definition bytes (s : string) : list ascii := list_ascii_of_string s.

End Auth.

(* ===================================================================== *)
(** * Package eventdb: the words of the name filters                      *)
(* ===================================================================== *)

Module FilterWords.
Import Regexp Eventdb.

(** The words between the two [\b] of the patterns of [nameFilters], in
    source order. *)
Definition nameWords : list string :=
  ["Sold Out"; "Cancel"; "geschlossene"; "abgesagte"; "annulliert";
   "Funeral"; "bar"; "pub"].

(** The runes [s] are the bytes of [word], up to the letter case the
    matcher folds. *)
Definition spells (word : string) (s : list rune) : Prop :=
  Forall2 (fun c x => foldEq c x = true) (bytes word) s.

(** The rune before the rest of the text, once [s1] has been read. *)
Fixpoint lastRune (prev : option rune) (s1 : list rune) : option rune :=
  match s1 with
  | [] => prev
  | x :: s1' => lastRune (Some x) s1'
  end.

End FilterWords.

(* ===================================================================== *)
(** * More worlds and callers                                             *)
(* ===================================================================== *)

Module MoreExamples.
Import Errors ErrorsText Eventdb World Pg PgUpdate Service Auth Examples.

#[local] Open Scope Z_scope.

(** Texts for the library functions. *)
Definition exLibrary : Library := {|
  libraryError := fun _ => "library error";
  Quote := fun s => "'" ++ s ++ "'";
  StatusText := fun code => "status " ++ pretty code
|}.

Definition exAdmin : Info := mkInfo "admin" true.

(** A stranger to the dests of the user. *)
Definition exStranger : Info := mkInfo "stranger" false.

(** The row of [afterOne]. *)
Definition firstVisit : DestRow := mkDestRow 1 "1" "user" "1" None None 0.

(** An event whose description has 120 bytes. *)
Definition longText : string :=
  "0123456789012345678901234567890123456789012345678901234567890123456789012345678901234567890123456789ABCDEFGHIJKLMNOPQRST".

Definition wordyData : EventData :=
  mkEventData "9" (Some "Reading") (Some longText) None (100 * Minute)
    (Some (160 * Minute)) None (Some "Library") (Some "Main Street 2")
    (Some (15%float, 45%float)).

Definition wordyWorld : World :=
  exWorld [mkEventRow "9" wordyData None (Some (15%float, 45%float))] [].

(** A search of the first three hours. *)
Definition exSearch : EventSearchRequest :=
  mkEventSearchRequest "circle" 0 (180 * Minute) false.

(** Alice holds a token, and the Graph API answers with two documents. *)
Definition twoDocuments : list EventData :=
  [exData "7" (100 * Minute) None; exData "8" (200 * Minute) None].

Definition submitWorld : World :=
  mkWorld [] 0 [exRow "7" 0 None]
    [mkUserRow 1 "alice" None None (Some "token-a") None]
    1 0 0 [] [0] [(map Some twoDocuments, None)] None [].

(** The administrator asks for a destination of the user. *)
Definition forUser : DestGenerateRequest :=
  mkDestGenerateRequest "user" 45%float 15%float.

(** Requests with a cookie, a Bearer token, and neither. *)
Definition withCookie : Request := mkRequest (Some "cookie-token") "Basic abc".
Definition withBearer : Request := mkRequest None "Bearer header-token".
Definition withoutToken : Request := mkRequest None "".

(** A verifier that knows one token, of the administrator. *)
Definition exVerify (token : string) : string + string :=
  if bool_decide (token = "header-token") then inl "admin"
  else inr "token has expired".

End MoreExamples.

(* ===================================================================== *)
(** * Properties of the error model                                       *)
(* ===================================================================== *)

Module ErrorsFacts.
Import Errors.

Lemma E_cons (a : arg) (rest : list arg) : E (a :: rest) = Some (E_of a rest).
Proof. reflexivity. Qed.

(** [E] panics on the empty argument list and only there. *)
Lemma E_panics_iff (args : list arg) : E args = None <-> args = [].
Proof. destruct args; simpl; split; congruence. Qed.

(** When the loop runs to its end, [E] is [suppress] of the fields set. *)
Lemma E_of_loop (args : list arg) (e : Error) :
  E_loop zeroError args = inl e ->
  args <> [] ->
  E args = Some (ErrDomain (suppress e)).
Proof.
  intros Hloop Hne. destruct args as [|a rest]; [congruence|].
  unfold E, E_of. now rewrite Hloop.
Qed.

(** [Is] answers for at most one kind, never for [Other]. *)
Lemma Is_functional (err : error) (k1 k2 : Kind) :
  Is k1 err = true -> Is k2 err = true -> k1 = k2.
Proof.
  revert err. fix IH 1. intros [e|l]; simpl; [|discriminate].
  destruct e as [u o k c]; simpl.
  case_bool_decide as Hk.
  - destruct c as [inner|]; [apply IH|discriminate].
  - intros H1 H2. apply bool_decide_eq_true in H1, H2. congruence.
Qed.

Lemma Is_outer (e : Error) (k : Kind) :
  EKind e <> Other -> (Is k (ErrDomain e) = true <-> k = EKind e).
Proof.
  intros Hk. simpl. rewrite bool_decide_eq_false_2 by assumption.
  rewrite bool_decide_eq_true. split; congruence.
Qed.

(** C8.  Building a domain error whose cause is itself a domain error:
    with [e] the fields the arguments set and [prev] the cause, the
    result [e'] wraps a copy [prev'] of the cause such that
    - the user id of [prev'] is cleared when both carried the same one;
    - the kind of [prev'] is [Other] when both carried the same kind, and
      also when the kind of [e] was [Other], in which case [e'] takes the
      kind of [prev];
    - nothing else changes (operation names, the deeper causes);
    so the two levels never state the same kind or the same user twice,
    the same kind given at both levels is reported once (by [e'], with
    [prev'] demoted to [Other]), and [Is] answers for exactly the kind of
    [e'] whenever that kind is set. *)
Theorem C8_E_states_kind_and_user_once :
  forall (args : list arg) (e prev : Error),
    E_loop zeroError args = inl e ->
    Err e = Some (ErrDomain prev) ->
    exists e' prev' : Error,
      E args = Some (ErrDomain e')
      /\ Err e' = Some (ErrDomain prev')
      /\ UserID e' = UserID e /\ Op e' = Op e
      /\ Op prev' = Op prev /\ Err prev' = Err prev
      /\ UserID prev'
         = (if bool_decide (UserID prev = UserID e) then "" else UserID prev)
      /\ EKind prev'
         = (if bool_decide (EKind prev = EKind e) || bool_decide (EKind e = Other)
            then Other else EKind prev)
      /\ EKind e' = (if bool_decide (EKind e = Other) then EKind prev else EKind e)
      /\ (EKind prev' = Other \/ EKind prev' <> EKind e')
      /\ (UserID prev' = "" \/ UserID prev' <> UserID e')
      /\ (EKind prev = EKind e -> EKind e' = EKind e /\ EKind prev' = Other)
      /\ (EKind e' <> Other ->
          forall k, Is k (ErrDomain e') = true <-> k = EKind e').
Proof.
  intros args e prev Hloop Hcause.
  assert (Hne : args <> []).
  { intros ->. simpl in Hloop. injection Hloop as <-. discriminate. }
  rewrite (E_of_loop args e Hloop Hne).
  unfold suppress. rewrite Hcause.
  destruct e as [u o k c], prev as [pu po pk pc]; simpl in *.
  destruct (decide (pu = u)) as [Hu|Hu], (decide (pk = k)) as [Hk|Hk],
    (decide (k = Other)) as [Ho|Ho];
    repeat (first [ rewrite (bool_decide_eq_true_2 _ Hu)
                  | rewrite (bool_decide_eq_false_2 _ Hu)
                  | rewrite (bool_decide_eq_true_2 _ Hk)
                  | rewrite (bool_decide_eq_false_2 _ Hk)
                  | rewrite (bool_decide_eq_true_2 _ Ho)
                  | rewrite (bool_decide_eq_false_2 _ Ho) ]; simpl);
    subst; simpl;
    repeat match goal with
           | |- context [bool_decide (?a = ?a)] =>
               rewrite (bool_decide_eq_true_2 (a = a) eq_refl); simpl
           end;
    eexists (mkError _ _ _ _), (mkError _ _ _ _);
    (split; [reflexivity|]); simpl;
    repeat match goal with
           | |- _ /\ _ => split
           end;
    try reflexivity; try tauto;
    try (intros Hnot; apply Is_outer; exact Hnot).
  all: try (right; congruence); try (left; reflexivity).
  all: try (intros; split; congruence).
  all: intros Hnot k0; rewrite (bool_decide_eq_false_2 _ Hnot);
    rewrite bool_decide_eq_true; split; congruence.
Qed.

(** A store failure of kind [Internal] for user "u", wrapped by
    [Service.DestGenerate] with the same kind and user. *)
Definition wrappedTwice : list arg :=
  [ArgOp "Service.DestGenerate"; ArgUserID "u"; ArgKind Internal;
   ArgError (ErrDomain (mkError "u" "DestStore.Get" Internal None))].

Lemma C8_witness_same_kind_twice :
  exists e' prev' : Error,
    E wrappedTwice = Some (ErrDomain e')
    /\ Err e' = Some (ErrDomain prev')
    /\ EKind e' = Internal /\ EKind prev' = Other /\ UserID prev' = "".
Proof.
  destruct (C8_E_states_kind_and_user_once wrappedTwice
              (mkError "u" "Service.DestGenerate" Internal
                 (Some (ErrDomain (mkError "u" "DestStore.Get" Internal None))))
              (mkError "u" "DestStore.Get" Internal None)
              eq_refl eq_refl)
    as (e' & prev' & HE & Hcause & _ & _ & _ & _ & Hu & Hk & Hk' & _).
  exists e', prev'. repeat split; assumption.
Defined.

End ErrorsFacts.

(* ===================================================================== *)
(** * Properties of the error model on the heap                           *)
(* ===================================================================== *)

Module ErrHeapFacts.
Import Errors ErrHeap.

Lemma preserves_refl h : preserves h h.
Proof. intros l c Hl. exact Hl. Qed.

Lemma alloc_fresh (c : cell) (h : heap) :
  h !! (alloc c h).1 = None.
Proof. unfold alloc. simpl. apply not_elem_of_dom. apply is_fresh. Qed.

Lemma alloc_lookup (c : cell) (h : heap) :
  (alloc c h).2 !! (alloc c h).1 = Some c.
Proof. unfold alloc. simpl. apply lookup_insert_eq. Qed.

Lemma preserves_alloc h0 h c :
  preserves h0 h -> preserves h0 (alloc c h).2.
Proof.
  intros Hp l c0 Hl. unfold alloc. simpl.
  rewrite lookup_insert_ne; [auto|].
  intros <-. apply Hp in Hl.
  pose proof (alloc_fresh c h) as Hf. unfold alloc in Hf. simpl in Hf. congruence.
Qed.

Lemma preserves_alter h0 h f l :
  h0 !! l = None -> preserves h0 h -> preserves h0 (alter f l h).
Proof.
  intros Hnone Hp l' c Hl.
  rewrite lookup_alter_ne; [auto|]. intros <-. congruence.
Qed.

Lemma loop_inv_alter h0 le h f l :
  h0 !! l = None ->
  (forall e, Err (f e) = Err e) ->
  loop_inv h0 le h -> loop_inv h0 le (alter f l h).
Proof.
  intros Hl Hf (Hp & [e0 He0] & Hc). split; [now apply preserves_alter|].
  destruct (decide (l = le)) as [->|Hne].
  - rewrite lookup_alter_eq, He0. simpl. split; [eauto|].
    intros e lp He HErr. injection He as <-. rewrite Hf in HErr. eauto.
  - rewrite lookup_alter_ne by assumption. split; [eauto|exact Hc].
Qed.

Lemma loop_inv_setErr h0 le h r :
  h0 !! le = None ->
  (forall lp, r = RefError lp -> h0 !! lp = None) ->
  loop_inv h0 le h -> loop_inv h0 le (alter (setErr (Some r)) le h).
Proof.
  intros Hle Hr (Hp & [e0 He0] & Hc). split; [now apply preserves_alter|].
  rewrite lookup_alter_eq, He0. simpl. split; [eauto|].
  intros e lp He HErr. injection He as <-. simpl in HErr. injection HErr as ->. eauto.
Qed.

Lemma loop_inv_alloc h0 le h c :
  loop_inv h0 le h ->
  loop_inv h0 le (alloc c h).2 /\ h0 !! (alloc c h).1 = None.
Proof.
  intros (Hp & [e0 He0] & Hc).
  pose proof (alloc_fresh c h) as Hfresh.
  assert (Hne : (alloc c h).1 <> le) by (intros Heq; rewrite Heq in Hfresh; congruence).
  assert (Hkeep : (alloc c h).2 !! le = h !! le).
  { unfold alloc in *. simpl in *. now rewrite lookup_insert_ne. }
  repeat split.
  - now apply preserves_alloc.
  - rewrite Hkeep. eauto.
  - intros e lp He. rewrite Hkeep in He. eauto.
  - destruct (h0 !! (alloc c h).1) as [c0|] eqn:H0; [|reflexivity].
    apply Hp in H0. congruence.
Qed.

Lemma E_loop_early le args : forall h h' bad,
  E_loop le args h = Some (h', Some bad) -> exists v, bad = RefLeaf v.
Proof.
  induction args as [|a rest IH]; intros h h' bad Hrun; simpl in Hrun;
    [discriminate|].
  destruct a as [u|o|s|k|[p|v]|ty]; eauto.
  - destruct (h !! p); [eauto|discriminate].
  - injection Hrun as <- <-. eauto.
Qed.

Lemma E_loop_inv h0 le args : forall h h' r,
  h0 !! le = None ->
  loop_inv h0 le h ->
  E_loop le args h = Some (h', r) ->
  loop_inv h0 le h'.
Proof.
  induction args as [|a rest IH]; intros h h' r Hle Hinv Hrun; simpl in Hrun.
  - now injection Hrun as <- <-.
  - destruct a as [u|o|s|k|[p|v]|ty].
    + eapply IH; [exact Hle| |exact Hrun]. now apply loop_inv_alter.
    + eapply IH; [exact Hle| |exact Hrun]. now apply loop_inv_alter.
    + eapply IH; [exact Hle| |exact Hrun]. apply loop_inv_setErr; auto. discriminate.
    + eapply IH; [exact Hle| |exact Hrun]. now apply loop_inv_alter.
    + destruct (h !! p) as [c|] eqn:Hp; [|discriminate].
      destruct (loop_inv_alloc h0 le h c Hinv) as [Hinv1 Hnew].
      unfold alloc in Hinv1, Hnew. simpl in Hinv1, Hnew.
      eapply IH; [exact Hle| |exact Hrun].
      apply loop_inv_setErr; auto. intros lp [= <-]. exact Hnew.
    + eapply IH; [exact Hle| |exact Hrun]. apply loop_inv_setErr; auto. discriminate.
    + now injection Hrun as <- <-.
Qed.

Lemma suppress_inv h0 le h h' :
  h0 !! le = None ->
  loop_inv h0 le h ->
  suppress le h = Some h' ->
  loop_inv h0 le h'.
Proof.
  intros Hle Hinv Hrun. unfold suppress in Hrun.
  destruct (h !! le) as [e|] eqn:He; simpl in Hrun; [|discriminate].
  destruct (Err e) as [[lp|v]|] eqn:HErr; try (injection Hrun as <-; exact Hinv).
  assert (Hlp : h0 !! lp = None) by (destruct Hinv as (_ & _ & Hc); eauto).
  destruct (h !! lp) as [prev|]; simpl in Hrun; [|discriminate].
  set (h1 := if bool_decide (UserID prev = UserID e)
             then alter (setUserID "") lp h else h) in *.
  assert (Hinv1 : loop_inv h0 le h1).
  { unfold h1. case_bool_decide; [now apply loop_inv_alter|exact Hinv]. }
  destruct (h1 !! lp) as [prev1|]; simpl in Hrun; [|discriminate].
  destruct (h1 !! le) as [e1|]; simpl in Hrun; [|discriminate].
  set (h2 := if bool_decide (EKind prev1 = EKind e1)
             then alter (setKind Other) lp h1 else h1) in *.
  assert (Hinv2 : loop_inv h0 le h2).
  { unfold h2. case_bool_decide; [now apply loop_inv_alter|exact Hinv1]. }
  destruct (h2 !! le) as [e2|]; simpl in Hrun; [|discriminate].
  case_bool_decide.
  - destruct (h2 !! lp) as [prev2|] eqn:Hp2; simpl in Hrun; [|discriminate].
    injection Hrun as <-.
    apply loop_inv_alter; [assumption|reflexivity|].
    apply loop_inv_alter; [assumption|reflexivity|assumption].
  - now injection Hrun as <-.
Qed.

(** C10.  [E] never writes to an error it is given.  Whatever the
    arguments (the cause, when a [*Error], among them): every cell of the
    heap [h] before the call is in the heap [h'] after it with the same
    user, operation, kind and cause; the error returned is a new cell;
    and its cause, when a [*Error], is a new cell as well (the copy on
    which the kind and the user are then adjusted), never the caller's. *)
Theorem C10_E_does_not_write_to_its_cause :
  forall (args : list harg) (h h' : heap) (r : ref),
    ErrHeap.E args h = Some (r, h') ->
    (forall l c, h !! l = Some c -> h' !! l = Some c)
    /\ (forall le, r = RefError le -> h !! le = None)
    /\ (forall le e lp, r = RefError le -> h' !! le = Some e ->
          Err e = Some (RefError lp) -> h !! lp = None).
Proof.
  intros args h h' r Hrun. unfold ErrHeap.E in Hrun.
  destruct args as [|a rest]; [discriminate|].
  pose proof (alloc_fresh zeroError h) as Hfresh.
  pose proof (alloc_lookup zeroError h) as Hnew.
  pose proof (preserves_alloc h h zeroError (preserves_refl h)) as Hp0.
  destruct (alloc zeroError h) as [le h0] eqn:Halloc.
  simpl in Hfresh, Hnew, Hp0.
  assert (Hinv0 : loop_inv h le h0).
  { split; [exact Hp0|]. split; [eauto|].
    intros e lp He. rewrite Hnew in He. injection He as <-. discriminate. }
  destruct (E_loop le (a :: rest) h0) as [[h1 [bad|]]|] eqn:Hloop;
    simpl in Hrun; [| |discriminate].
  - injection Hrun as <- <-.
    pose proof (E_loop_inv h le _ _ _ _ Hfresh Hinv0 Hloop) as (Hp & _ & _).
    destruct (E_loop_early _ _ _ _ _ Hloop) as [v ->].
    split; [exact Hp|]. split; intros; discriminate.
  - pose proof (E_loop_inv h le _ _ _ _ Hfresh Hinv0 Hloop) as Hinv1.
    destruct (suppress le h1) as [h2|] eqn:Hsup; simpl in Hrun; [|discriminate].
    injection Hrun as <- <-.
    destruct (suppress_inv h le h1 h2 Hfresh Hinv1 Hsup) as (Hp & _ & Hc).
    split; [exact Hp|].
    split; [intros ? [= <-]; exact Hfresh|].
    intros le' e lp [= <-]. apply Hc.
Qed.

Lemma is_Some_alter (h : heap) f l l' :
  is_Some (h !! l') -> is_Some (alter f l h !! l').
Proof.
  intros [c Hc]. destruct (decide (l = l')) as [->|Hne].
  - rewrite lookup_alter_eq, Hc. simpl. eauto.
  - rewrite lookup_alter_ne by assumption. eauto.
Qed.

Lemma is_Some_alloc (h : heap) c l' :
  is_Some (h !! l') -> is_Some ((alloc c h).2 !! l').
Proof.
  intros [c0 Hc]. unfold alloc. simpl.
  destruct (decide (fresh (dom h) = l')) as [<-|Hne].
  - rewrite lookup_insert_eq. eauto.
  - rewrite lookup_insert_ne by assumption. eauto.
Qed.

Lemma cause_valid_alter le h f l :
  (forall e, Err (f e) = Err e) ->
  cause_valid le h -> cause_valid le (alter f l h).
Proof.
  intros Hf [Hle Hc]. split; [now apply is_Some_alter|].
  intros e lp He HErr. apply is_Some_alter.
  destruct Hle as [e0 He0].
  destruct (decide (l = le)) as [->|Hne].
  - rewrite lookup_alter_eq, He0 in He. injection He as <-.
    rewrite Hf in HErr. eauto.
  - rewrite lookup_alter_ne in He by assumption. eauto.
Qed.

Lemma cause_valid_setErr le h r :
  (forall lp, r = RefError lp -> is_Some (h !! lp)) ->
  cause_valid le h -> cause_valid le (alter (setErr (Some r)) le h).
Proof.
  intros Hr [[e0 He0] Hc]. split; [apply is_Some_alter; eauto|].
  intros e lp He HErr. apply is_Some_alter.
  rewrite lookup_alter_eq, He0 in He. injection He as <-.
  simpl in HErr. injection HErr as ->. eauto.
Qed.

Lemma E_loop_total le args : forall h,
  cause_valid le h ->
  (forall p, In (HError (RefError p)) args -> is_Some (h !! p)) ->
  exists h' r, E_loop le args h = Some (h', r) /\ cause_valid le h'.
Proof.
  induction args as [|a rest IH]; intros h Hcv Hargs; simpl.
  - eauto.
  - assert (Hrest : forall f l p, In (HError (RefError p)) rest ->
                                   is_Some (alter f l h !! p)).
    { intros f l p Hin. apply is_Some_alter, Hargs. now right. }
    destruct a as [u|o|s|k|[p|v]|ty].
    + apply IH; [now apply cause_valid_alter|apply Hrest].
    + apply IH; [now apply cause_valid_alter|apply Hrest].
    + apply IH; [apply cause_valid_setErr; [discriminate|assumption]|apply Hrest].
    + apply IH; [now apply cause_valid_alter|apply Hrest].
    + destruct (Hargs p (or_introl eq_refl)) as [c Hc]. rewrite Hc.
      apply IH.
      * apply cause_valid_setErr.
        -- intros lp [= <-]. rewrite lookup_insert_eq. eauto.
        -- destruct Hcv as [Hle Hc']. split; [now apply (is_Some_alloc h c)|].
           intros e lp He HErr. apply (is_Some_alloc h c).
           destruct Hle as [e0 He0].
           assert (Hne : fresh (dom h) <> le).
           { intros Heq. pose proof (alloc_fresh c h) as Hf. unfold alloc in Hf.
             simpl in Hf. rewrite Heq in Hf. congruence. }
           rewrite lookup_insert_ne in He by assumption. eauto.
      * intros q Hin. apply is_Some_alter. apply (is_Some_alloc h c).
        apply Hargs. now right.
    + apply IH; [apply cause_valid_setErr; [discriminate|assumption]|apply Hrest].
    + eauto.
Qed.

Lemma suppress_total le h : cause_valid le h -> is_Some (suppress le h).
Proof.
  intros [[e He] Hc]. unfold suppress. rewrite He. simpl.
  destruct (Err e) as [[lp|v]|] eqn:HErr; eauto.
  destruct (Hc e lp He HErr) as [prev Hprev]. rewrite Hprev. simpl.
  set (h1 := if bool_decide (UserID prev = UserID e)
             then alter (setUserID "") lp h else h).
  assert (H1 : forall l, is_Some (h !! l) -> is_Some (h1 !! l)).
  { intros l Hl. unfold h1. case_bool_decide; [now apply is_Some_alter|exact Hl]. }
  destruct (H1 lp (mk_is_Some _ _ Hprev)) as [prev1 Hprev1].
  destruct (H1 le (mk_is_Some _ _ He)) as [e1 He1].
  rewrite Hprev1, He1. simpl.
  set (h2 := if bool_decide (EKind prev1 = EKind e1)
             then alter (setKind Other) lp h1 else h1).
  assert (H2 : forall l, is_Some (h1 !! l) -> is_Some (h2 !! l)).
  { intros l Hl. unfold h2. case_bool_decide; [now apply is_Some_alter|exact Hl]. }
  destruct (H2 lp (mk_is_Some _ _ Hprev1)) as [prev2 Hprev2].
  destruct (H2 le (mk_is_Some _ _ He1)) as [e2 He2].
  rewrite He2. simpl. case_bool_decide; [|eauto].
  rewrite Hprev2. simpl. eauto.
Qed.

(** [E] returns whenever it is given an argument and every [*Error] among
    the arguments points to a cell. *)
Lemma E_total (args : list harg) (h : heap) :
  args <> [] ->
  (forall p, In (HError (RefError p)) args -> is_Some (h !! p)) ->
  is_Some (ErrHeap.E args h).
Proof.
  intros Hne Hargs. unfold ErrHeap.E.
  destruct args as [|a rest]; [congruence|].
  pose proof (alloc_lookup zeroError h) as Hnew.
  destruct (alloc zeroError h) as [le h0] eqn:Halloc. simpl in Hnew.
  assert (Hcv : cause_valid le h0).
  { split; [eauto|]. intros e lp He. rewrite Hnew in He. injection He as <-.
    discriminate. }
  destruct (E_loop_total le (a :: rest) h0 Hcv) as (h1 & r & Hloop & Hcv1).
  { intros p Hin. replace h0 with (alloc zeroError h).2 by now rewrite Halloc.
    apply is_Some_alloc, Hargs, Hin. }
  rewrite Hloop. simpl. destruct r as [bad|]; [eauto|].
  destruct (suppress_total le h1 Hcv1) as [h2 ->]. simpl. eauto.
Qed.

(** A heap with one error at address 1, given to [E] as the cause. *)
Definition storeFailure : cell := mkError "u" "DestStore.Get" Internal None.
Definition callerHeap : heap := {[ 1%positive := storeFailure ]}.
Definition wrapArgs : list harg :=
  [HOp "Service.DestGenerate"; HUserID "u"; HKind Internal;
   HError (RefError 1%positive)].

Lemma C10_witness_cause_kept :
  exists (r : ref) (h' : heap),
    ErrHeap.E wrapArgs callerHeap = Some (r, h')
    /\ h' !! 1%positive = Some storeFailure.
Proof.
  destruct (ErrHeap.E wrapArgs callerHeap) as [[r h']|] eqn:Hrun.
  - exists r, h'. split; [reflexivity|].
    apply (proj1 (C10_E_does_not_write_to_its_cause _ _ _ _ Hrun)).
    reflexivity.
  - exfalso. vm_compute in Hrun. discriminate Hrun.
Defined.

End ErrHeapFacts.

(* ===================================================================== *)
(** * The two models of E agree                                           *)
(* ===================================================================== *)

Module ErrRefine.
Import Errors ErrHeap ErrHeapFacts.

Lemma decode_RefError (d : nat) (h : heap) (l : loc) :
  decode d h (RefError l) = c ← h !! l; ErrDomain <$> readCell d h c.
Proof.
  destruct d as [|d]; simpl.
  - destruct (h !! l); reflexivity.
  - destruct (h !! l) as [c|]; simpl; [|reflexivity].
    destruct (Err c) as [r|]; simpl; [|reflexivity].
    destruct (decode d h r); reflexivity.
Qed.

Lemma decode_RefLeaf (d : nat) (h : heap) (v : leaf) :
  decode d h (RefLeaf v) = Some (ErrLeaf v).
Proof. destruct d; reflexivity. Qed.

Lemma decode_preserves (d : nat) : forall (h0 h : heap) (r : ref) (t : error),
  preserves h0 h -> decode d h0 r = Some t -> decode d h r = Some t.
Proof.
  induction d as [|d IH]; intros h0 h [l|v] t Hp Hd; simpl in *;
    try discriminate; try exact Hd.
  destruct (h0 !! l) as [c|] eqn:Hl; simpl in Hd; [|discriminate].
  rewrite (Hp _ _ Hl). simpl.
  destruct (Err c) as [r|]; [|exact Hd].
  destruct (decode d h0 r) as [inner|] eqn:Hin; simpl in Hd; [|discriminate].
  rewrite (IH _ _ _ _ Hp Hin). exact Hd.
Qed.

Lemma readCell_preserves (d : nat) (h0 h : heap) (c : cell) (t : Error) :
  preserves h0 h -> readCell d h0 c = Some t -> readCell d h c = Some t.
Proof.
  intros Hp. destruct d as [|d]; simpl; [discriminate|].
  destruct (Err c) as [r|]; [|trivial].
  destruct (decode d h0 r) as [inner|] eqn:Hin; simpl; [|discriminate].
  rewrite (decode_preserves d _ _ _ _ Hp Hin). trivial.
Qed.

(** Reading depends on the cause of the cell only; the other fields are
    carried over. *)
Lemma readCell_fields (d : nat) (h : heap) (c : cell) (t : Error) :
  readCell d h c = Some t ->
  forall c' : cell, Err c' = Err c ->
    readCell d h c' = Some (mkError (UserID c') (Op c') (EKind c') (Err t)).
Proof.
  destruct d as [|d]; simpl; [discriminate|]. intros Hr c' ->.
  destruct (Err c) as [r|].
  - destruct (decode d h r) as [inner|]; simpl in *; [|discriminate].
    injection Hr as <-. reflexivity.
  - injection Hr as <-. reflexivity.
Qed.

Lemma readCell_same (d : nat) (h : heap) (c : cell) (t : Error) :
  readCell d h c = Some t ->
  UserID t = UserID c /\ Op t = Op c /\ EKind t = EKind c.
Proof.
  intros Hr. pose proof (readCell_fields d h c t Hr c eq_refl) as Hr'.
  rewrite Hr in Hr'. injection Hr' as ->. simpl. repeat split.
Qed.

Lemma alloc_lookup_ne (c : cell) (h : heap) (l : loc) :
  l <> (alloc c h).1 -> (alloc c h).2 !! l = h !! l.
Proof. intros Hne. unfold alloc in *. simpl in *. now rewrite lookup_insert_ne. Qed.

(** ** The loop *)

Section Loop.
Variables (d : nat) (h0 : heap) (le : loc).

(** Writing a field other than the cause. *)
Lemma reads_as_field (f : cell -> cell) (g : Error -> Error) (h : heap) (e : Error) :
  (forall c, Err (f c) = Err c) -> Err (g e) = Err e ->
  (forall c, UserID c = UserID e -> Op c = Op e -> EKind c = EKind e ->
             UserID (f c) = UserID (g e) /\ Op (f c) = Op (g e)
             /\ EKind (f c) = EKind (g e)) ->
  reads_as d h0 le h e -> reads_as d h0 le (alter f le h) (g e).
Proof.
  intros Hf Hg Hfg (Hp & Hle & c & Hc & Hu & Ho & Hk & Hcause).
  split; [now apply preserves_alter|]. split; [exact Hle|].
  exists (f c). rewrite lookup_alter_eq, Hc. split; [reflexivity|].
  destruct (Hfg c Hu Ho Hk) as (Hu' & Ho' & Hk').
  split; [exact Hu'|]. split; [exact Ho'|]. split; [exact Hk'|].
  rewrite Hf, Hg. destruct (Err c) as [[lp|v]|], (Err e) as [[tp|v']|];
    try exact Hcause.
  destruct Hcause as (Hne & Hlp & cp & Hcp & Hread).
  split; [exact Hne|]. split; [exact Hlp|]. exists cp.
  rewrite lookup_alter_ne by congruence. split; assumption.
Qed.

(** Writing a leaf as the cause. *)
Lemma reads_as_leaf (v : leaf) (h : heap) (e : Error) :
  reads_as d h0 le h e ->
  reads_as d h0 le (alter (setErr (Some (RefLeaf v))) le h)
    (setErr (Some (ErrLeaf v)) e).
Proof.
  intros (Hp & Hle & c & Hc & Hu & Ho & Hk & _).
  split; [now apply preserves_alter|]. split; [exact Hle|].
  exists (setErr (Some (RefLeaf v)) c). rewrite lookup_alter_eq, Hc.
  repeat split; assumption.
Qed.

(** Writing the copy of a caller's cell as the cause. *)
Lemma reads_as_copy (p : loc) (cp : cell) (tp : Error) (h : heap) (e : Error) :
  h0 !! p = Some cp -> readCell d h0 cp = Some tp ->
  reads_as d h0 le h e ->
  reads_as d h0 le
    (alter (setErr (Some (RefError (alloc cp h).1))) le (alloc cp h).2)
    (setErr (Some (ErrDomain tp)) e).
Proof.
  intros Hp0 Hread (Hp & Hle & c & Hc & Hu & Ho & Hk & _).
  pose proof (alloc_fresh cp h) as Hfresh.
  pose proof (alloc_lookup cp h) as Hnew.
  pose proof (alloc_lookup_ne cp h le) as Hold.
  pose proof (preserves_alloc h0 h cp Hp) as Hp2.
  generalize dependent (alloc cp h). intros [lc h2]. simpl.
  intros Hfresh Hnew Hold Hp2.
  assert (Hne : lc <> le) by congruence.
  assert (Hout : h0 !! lc = None).
  { destruct (h0 !! lc) as [c0|] eqn:H0; [|reflexivity].
    apply Hp in H0. congruence. }
  split; [apply preserves_alter; [exact Hle|exact Hp2]|].
  split; [exact Hle|].
  exists (setErr (Some (RefError lc)) c).
  rewrite lookup_alter_eq, Hold, Hc by congruence. split; [reflexivity|].
  split; [exact Hu|]. split; [exact Ho|]. split; [exact Hk|]. simpl.
  split; [exact Hne|]. split; [exact Hout|]. exists cp.
  rewrite lookup_alter_ne by congruence. split; [exact Hnew|exact Hread].
Qed.

Lemma E_loop_decode (args : list harg) : forall (targs : list arg) (h h1 : heap)
    (e : Error) (res : option ref),
  Forall2 (fun a t => decode_arg d h0 a = Some t) args targs ->
  reads_as d h0 le h e ->
  ErrHeap.E_loop le args h = Some (h1, res) ->
  match res with
  | None => exists e', Errors.E_loop e targs = inl e' /\ reads_as d h0 le h1 e'
  | Some bad => exists v, bad = RefLeaf v /\ Errors.E_loop e targs = inr (ErrLeaf v)
  end.
Proof.
  induction args as [|a rest IH]; intros targs h h1 e res Hargs Hinv Hrun;
    inversion Hargs as [|a' t rest' trest Ha Hrest]; subst; simpl in Hrun.
  - injection Hrun as <- <-. exists e. split; [reflexivity|exact Hinv].
  - destruct a as [u|o|s|k|[p|v]|ty]; simpl in Ha.
    + injection Ha as <-. simpl. refine (IH _ _ _ _ _ Hrest _ Hrun).
      apply reads_as_field; try reflexivity; [|exact Hinv].
      intros c Hu Ho Hk. simpl. repeat split; assumption.
    + injection Ha as <-. simpl. refine (IH _ _ _ _ _ Hrest _ Hrun).
      apply reads_as_field; try reflexivity; [|exact Hinv].
      intros c Hu Ho Hk. simpl. repeat split; assumption.
    + injection Ha as <-. simpl. refine (IH _ _ _ _ _ Hrest _ Hrun).
      apply reads_as_leaf, Hinv.
    + injection Ha as <-. simpl. refine (IH _ _ _ _ _ Hrest _ Hrun).
      apply reads_as_field; try reflexivity; [|exact Hinv].
      intros c Hu Ho Hk. simpl. repeat split; assumption.
    + rewrite decode_RefError in Ha.
      destruct (h0 !! p) as [cp|] eqn:Hp0; simpl in Ha; [|discriminate].
      destruct (readCell d h0 cp) as [tp|] eqn:Hread; simpl in Ha; [|discriminate].
      injection Ha as <-. simpl.
      destruct Hinv as (Hp & Hinv'). rewrite (Hp _ _ Hp0) in Hrun.
      refine (IH _ _ _ _ _ Hrest _ Hrun).
      exact (reads_as_copy p cp tp h e Hp0 Hread (conj Hp Hinv')).
    + rewrite decode_RefLeaf in Ha. injection Ha as <-. simpl.
      refine (IH _ _ _ _ _ Hrest _ Hrun). apply reads_as_leaf, Hinv.
    + injection Ha as <-. injection Hrun as <- <-. simpl. eauto.
Qed.

End Loop.

(** ** The writes after the loop *)

(** What a heap in which the new cell points to a changed copy reads as. *)
Lemma decode_wrapped (d : nat) (h0 h : heap) (le lp : loc) (cf cpf cp : cell)
    (tp : Error) :
  preserves h0 h ->
  h !! le = Some cf -> h !! lp = Some cpf ->
  Err cf = Some (RefError lp) -> Err cpf = Err cp ->
  readCell d h0 cp = Some tp ->
  decode (S d) h (RefError le)
  = Some (ErrDomain
            (mkError (UserID cf) (Op cf) (EKind cf)
               (Some (ErrDomain
                        (mkError (UserID cpf) (Op cpf) (EKind cpf) (Err tp)))))).
Proof.
  intros Hp Hle Hlp Hcf Hcpf Hread. simpl. rewrite Hle. simpl. rewrite Hcf.
  rewrite decode_RefError, Hlp. simpl.
  rewrite (readCell_fields d h cp tp (readCell_preserves d h0 h cp tp Hp Hread)
             cpf Hcpf).
  reflexivity.
Qed.

Lemma suppress_decode (d : nat) (h0 h h' : heap) (le : loc) (e : Error) :
  reads_as d h0 le h e ->
  ErrHeap.suppress le h = Some h' ->
  decode (S d) h' (RefError le) = Some (ErrDomain (Errors.suppress e)).
Proof.
  intros (Hp & Hle & c & Hc & Hu & Ho & Hk & Hcause) Hrun.
  unfold ErrHeap.suppress in Hrun. rewrite Hc in Hrun. simpl in Hrun.
  unfold Errors.suppress.
  destruct c as [cu co ck cerr], e as [eu eo ek eerr].
  simpl in Hu, Ho, Hk, Hcause, Hrun. subst cu co ck.
  cbn [Err UserID EKind Op].
  destruct cerr as [[lp|v]|], eerr as [[tp|v']|]; try contradiction.
  - destruct Hcause as (Hne & Hout & cp & Hcp & Hread).
    destruct (readCell_same _ _ _ _ Hread) as (Htu & Hto & Htk).
    rewrite Hcp in Hrun. simpl in Hrun.
    destruct cp as [pu po pk perr], tp as [tu to tk terr].
    simpl in Htu, Hto, Htk, Hrun. subst tu to tk.
    cbn [Err UserID EKind Op setUserID setKind setErr].
    destruct (bool_decide (pu = eu)) eqn:B1;
      repeat (rewrite ?lookup_alter_eq, ?Hcp, ?Hc in Hrun;
              rewrite ?lookup_alter_ne in Hrun by congruence);
      simpl in Hrun;
      cbn [Err UserID EKind Op setUserID setKind setErr];
      (destruct (bool_decide (pk = ek)) eqn:B2;
       repeat (rewrite ?lookup_alter_eq, ?Hcp, ?Hc in Hrun;
               rewrite ?lookup_alter_ne in Hrun by congruence);
       simpl in Hrun;
       cbn [Err UserID EKind Op setUserID setKind setErr];
       (destruct (bool_decide (ek = Other)) eqn:B3;
        repeat (rewrite ?lookup_alter_eq, ?Hcp, ?Hc in Hrun;
                rewrite ?lookup_alter_ne in Hrun by congruence);
        simpl in Hrun; injection Hrun as <-;
        cbn [Err UserID EKind Op setUserID setKind setErr];
        (etransitivity;
         [eapply (decode_wrapped d h0 _ le lp _ _
                    (mkError pu po pk perr) (mkError pu po pk terr));
          [repeat (apply preserves_alter; [assumption|]); exact Hp
          |repeat (rewrite ?lookup_alter_eq, ?Hcp, ?Hc;
                   rewrite ?lookup_alter_ne by congruence); reflexivity
          |repeat (rewrite ?lookup_alter_eq, ?Hcp, ?Hc;
                   rewrite ?lookup_alter_ne by congruence); reflexivity
          |reflexivity|reflexivity|exact Hread]
         |reflexivity]))).
  - subst v'. injection Hrun as <-. simpl. rewrite Hc. simpl.
    rewrite decode_RefLeaf. reflexivity.
  - injection Hrun as <-. simpl. rewrite Hc. reflexivity.
Qed.

(** ** E *)

(** [E] on the heap returns the error that [E] on trees returns: when the
    arguments read as the trees [targs] in the caller's heap, the result
    reads as [E targs] in the heap the call leaves. *)
Theorem E_agrees (d : nat) (args : list harg) (targs : list arg)
    (h h' : heap) (r : ref) :
  Forall2 (fun a t => decode_arg d h a = Some t) args targs ->
  ErrHeap.E args h = Some (r, h') ->
  decode (S d) h' r = Errors.E targs.
Proof.
  intros Hargs Hrun. unfold ErrHeap.E in Hrun.
  destruct args as [|a rest]; [discriminate|].
  inversion Hargs as [|a' t rest' trest Ha Hrest]; subst.
  pose proof (alloc_fresh zeroError h) as Hfresh.
  pose proof (alloc_lookup zeroError h) as Hnew.
  pose proof (preserves_alloc h h zeroError (preserves_refl h)) as Hp0.
  destruct (alloc zeroError h) as [le h0] eqn:Halloc.
  simpl in Hfresh, Hnew, Hp0.
  assert (Hinv : reads_as d h le h0 zeroError).
  { split; [exact Hp0|]. split; [exact Hfresh|].
    exists zeroError. split; [exact Hnew|]. repeat split. }
  destruct (ErrHeap.E_loop le (a :: rest) h0) as [[h1 res]|] eqn:Hloop;
    simpl in Hrun; [|discriminate].
  pose proof (E_loop_decode d h le (a :: rest) (t :: trest) h0 h1 zeroError res
                Hargs Hinv Hloop) as Hres.
  unfold Errors.E, E_of. destruct res as [bad|].
  - destruct Hres as (v & -> & ->). injection Hrun as <- <-.
    apply decode_RefLeaf.
  - destruct Hres as (e' & -> & Hinv').
    destruct (ErrHeap.suppress le h1) as [h2|] eqn:Hsup; simpl in Hrun;
      [|discriminate].
    injection Hrun as <- <-. exact (suppress_decode d h h1 h2 le e' Hinv' Hsup).
Qed.

End ErrRefine.

(* ===================================================================== *)
(** * Properties of the bad-event classifier                              *)
(* ===================================================================== *)

Module ClassifierFacts.
Import Regexp Eventdb.

#[local] Open Scope Z_scope.

(** An alternation of literals matches one rune of the list. *)
Lemma run_oneOf (cs : list rune) prev (x : rune) (s : list rune) k :
  run (oneOf cs) prev (x :: s) k = existsb (fun c => x =? c) cs && k (Some x) s.
Proof.
  induction cs as [|c cs IH]; simpl; [reflexivity|].
  rewrite IH.
  destruct (x =? c), (existsb (fun c0 => x =? c0) cs), (k (Some x) s); reflexivity.
Qed.

Lemma search_oneOf (cs : list rune) (c : rune) (s : list rune) : forall prev,
  In c cs -> In c s -> search (oneOf cs) prev s = true.
Proof.
  induction s as [|x s IH]; intros prev Hcs Hs; [destruct Hs|].
  simpl. rewrite run_oneOf. destruct Hs as [->|Hs].
  - replace (existsb (fun c0 => c =? c0) cs) with true; [reflexivity|].
    symmetry. apply existsb_exists. exists c. split; [exact Hcs|apply Z.eqb_refl].
  - rewrite (IH (Some x) Hcs Hs). apply orb_true_r.
Qed.

(** Every rune of the first description pattern is a currency symbol. *)
Lemma currencyRunes_are_currency :
  forallb isCurrencySymbol currencyRunes = true.
Proof. reflexivity. Qed.

(** [IsBadEvent] reads the name and the description only. *)
Lemma IsBadEvent_ext (e1 e2 : Event) :
  Name e1 = Name e2 -> Description e1 = Description e2 ->
  IsBadEvent e1 = IsBadEvent e2.
Proof. intros Hn Hd. unfold IsBadEvent. now rewrite Hn, Hd. Qed.

(** [IsBadEvent] is true exactly when some filter of either list fires. *)
Lemma IsBadEvent_iff (e : Event) :
  IsBadEvent e = true <->
  (exists filt, In filt nameFilters /\ MatchString filt (Name e) = true)
  \/ (exists filt, In filt descFilters /\ MatchString filt (Description e) = true).
Proof.
  unfold IsBadEvent. rewrite orb_true_iff, !existsb_exists. reflexivity.
Qed.

(** C9 (as the code has it).  [IsBadEvent] is a function of the event's
    name and description alone; it is true exactly when a filter of
    [nameFilters] matches the name or a filter of [descFilters] matches
    the description, and false otherwise; and every event whose
    description contains one of the runes of the first description
    pattern ($ ¥ ₹ ₡ ₱ £ € ₩ ₨ ﷼ ₽) is classified bad. *)
Theorem C9_IsBadEvent_by_name_and_description :
  forall (e : Event),
    (forall e2 : Event,
        Name e2 = Name e -> Description e2 = Description e ->
        IsBadEvent e2 = IsBadEvent e)
    /\ (IsBadEvent e = true <->
        (exists filt, In filt nameFilters /\ MatchString filt (Name e) = true)
        \/ (exists filt, In filt descFilters
                         /\ MatchString filt (Description e) = true))
    /\ (forall c : rune,
          In c currencyRunes -> In c (runes (Description e)) ->
          IsBadEvent e = true).
Proof.
  intros e. split; [intros e2; apply IsBadEvent_ext|].
  split; [apply IsBadEvent_iff|].
  intros c Hc Hin. apply IsBadEvent_iff. right.
  exists (oneOf currencyRunes). split; [now left|].
  unfold MatchString. now apply search_oneOf with c.
Qed.

(** An event named "Sale" whose description is "only 5 €". *)
Definition euroEvent : Event :=
  mkEvent "1" "Sale" "only 5 €" 0%float 0%float 0 0 false "" "" "" false.

Lemma C9_witness_euro :
  In 0x20AC currencyRunes
  /\ In 0x20AC (runes (Description euroEvent))
  /\ IsBadEvent euroEvent = true.
Proof.
  assert (H1 : In 0x20AC currencyRunes) by (vm_compute; tauto).
  assert (H2 : In 0x20AC (runes (Description euroEvent))) by (vm_compute; tauto).
  split; [exact H1|]. split; [exact H2|].
  exact (proj2 (proj2 (C9_IsBadEvent_by_name_and_description euroEvent))
           0x20AC H1 H2).
Defined.

(** The same event priced in cents: the cent sign is a currency symbol,
    the description contains it, and the event is not classified bad. *)
Definition centEvent : Event :=
  mkEvent "1" "Sale" "only 50 ¢" 0%float 0%float 0 0 false "" "" "" false.

Lemma C9_counterexample_cent_sign :
  isCurrencySymbol 0xA2 = true
  /\ In 0xA2 (runes (Description centEvent))
  /\ IsBadEvent centEvent = false.
Proof.
  split; [reflexivity|]. split; [vm_compute; tauto|reflexivity].
Qed.

End ClassifierFacts.

(* ===================================================================== *)
(** * Properties of the monad                                             *)
(* ===================================================================== *)

Module WorldFacts.
Import Errors Eventdb World.

#[local] Open Scope Z_scope.

Lemma bind_eq {A B} (m : M A) (k : A -> M B) (w : World) :
  (m ≫= k) w
  = match m w with
    | Ret a w' => k a w'
    | Panic msg w' => Panic msg w'
    | Unfinished w' => Unfinished w'
    end.
Proof. reflexivity. Qed.

Lemma bind_ret {A B} (m : M A) (k : A -> M B) (w w' : World) (a : A) :
  m w = Ret a w' -> (m ≫= k) w = k a w'.
Proof. intros H. rewrite bind_eq. now rewrite H. Qed.

Lemma sql_eq (s : Stmt) (w : World) :
  sql s w = Ret (next_fault w) (after_sql s w).
Proof.
  unfold sql, next_fault, after_sql. destruct w as [d ds e u us n c f r g x l].
  simpl. destruct f; reflexivity.
Qed.

#[global] Instance same_db_preorder : PreOrder same_db.
Proof.
  split.
  - intros w. repeat split.
  - intros w1 w2 w3 (H1 & H2 & H3 & H4) (H1' & H2' & H3' & H4').
    repeat split; congruence.
Qed.

#[global] Instance log_grows_preorder : PreOrder log_grows.
Proof.
  split.
  - intros w. now exists [].
  - intros w1 w2 w3 [l1 H1] [l2 H2]. exists (l2 ++ l1)%list.
    rewrite H2, H1. now rewrite app_assoc.
Qed.

Section Respects.
Context (R : World -> World -> Prop) `{!PreOrder R}.

Lemma respects_ret {A} (a : A) : respects R (mret a).
Proof. intros w. simpl. reflexivity. Qed.

Lemma respects_bind {A B} (m : M A) (k : A -> M B) :
  respects R m -> (forall a, respects R (k a)) -> respects R (m ≫= k).
Proof.
  intros Hm Hk w. rewrite bind_eq. specialize (Hm w).
  destruct (m w) as [a w'|msg w'|w']; simpl in *; try exact Hm.
  transitivity w'; [exact Hm|apply Hk].
Qed.

Lemma respects_get : respects R get.
Proof. intros w. simpl. reflexivity. Qed.

Lemma respects_panic {A} (msg : string) : respects R (@panic A msg).
Proof. intros w. simpl. reflexivity. Qed.

Lemma respects_unfinished {A} : respects R (@unfinished A).
Proof. intros w. simpl. reflexivity. Qed.

End Respects.

Lemma same_db_after_sql (s : Stmt) (w : World) : same_db w (after_sql s w).
Proof. repeat split. Qed.

Lemma log_after_sql (s : Stmt) (w : World) :
  log (after_sql s w) = Sql s (next_fault w) :: log w.
Proof. reflexivity. Qed.

Lemma same_db_sql (s : Stmt) : respects same_db (sql s).
Proof. intros w. rewrite sql_eq. apply same_db_after_sql. Qed.

Lemma log_grows_sql (s : Stmt) : respects log_grows (sql s).
Proof. intros w. rewrite sql_eq. now exists [Sql s (next_fault w)]. Qed.

Lemma draw_eq (w : World) :
  exists r, 0 <= r /\ draw w = Ret r (add_log Rand (set_rands (tl (rands w)) w)).
Proof.
  unfold draw. destruct w as [d ds e u us n c f r g x l]. simpl.
  destruct r as [|z r]; simpl.
  - exists 0. split; [lia|reflexivity].
  - exists (Z.abs z). split; [lia|reflexivity].
Qed.

Lemma same_db_draw : respects same_db draw.
Proof. intros w. destruct (draw_eq w) as (r & _ & ->). repeat split. Qed.

Lemma log_grows_draw : respects log_grows draw.
Proof. intros w. destruct (draw_eq w) as (r & _ & ->). now exists [Rand]. Qed.

Lemma same_db_sleep (d : Duration) : respects same_db (sleep d).
Proof. intros w. repeat split. Qed.

Lemma log_grows_sleep (d : Duration) : respects log_grows (sleep d).
Proof. intros w. now exists [Sleep d]. Qed.

Lemma no_faults_next (w : World) : no_faults w -> next_fault w = None.
Proof.
  unfold no_faults, next_fault. destruct (faults w) as [|f rest]; [reflexivity|].
  intros H. now inversion H.
Qed.

Lemma no_faults_after_sql (s : Stmt) (w : World) :
  no_faults w -> no_faults (after_sql s w).
Proof.
  unfold no_faults, after_sql. simpl. destruct (faults w) as [|f rest]; simpl.
  - intros _. constructor.
  - intros H. now inversion H.
Qed.

End WorldFacts.

(* ===================================================================== *)
(** * Properties of the stores                                            *)
(* ===================================================================== *)

Module PgFacts.
Import Errors Eventdb World Pg WorldFacts.

#[local] Open Scope Z_scope.
#[local] Arguments fetchEvents : simpl never.
#[local] Arguments sql : simpl never.

(** ** The read operations, as functions of the world they start in *)

Lemma DestStore_ListForUser_eq (userID : UserID) (w : World) :
  DestStore_ListForUser userID (mkDestListRequest 0) w
  = Ret (match next_fault w with
         | Some err =>
             ([], Some (E_of (ArgError (pgErr err)) [ArgString "dest list"]))
         | None => (map toDest (historyPage userID (dests w)), None)
         end) (after_sql SelectDests w).
Proof.
  unfold DestStore_ListForUser, DestStore_list.
  rewrite bind_eq, sql_eq. simpl. destruct (next_fault w); reflexivity.
Qed.

Lemma fetchEvents_eq (eventIDs : list EventID) (w : World) :
  fetchEvents eventIDs w
  = Ret (match next_fault w with
         | Some err =>
             ([], Some (E_of (ArgError (pgErr err)) [ArgString "select events"]))
         | None => (fetched eventIDs (events w), None)
         end) (after_sql SelectEvents w).
Proof.
  unfold fetchEvents. rewrite bind_eq, sql_eq.
  destruct (next_fault w); reflexivity.
Qed.

Lemma EventStore_GetByID_eq (eventID : EventID) (w : World) :
  EventStore_GetByID eventID w
  = Ret (match next_fault w with
         | Some err =>
             (zeroEvent,
              Some (E_of (ArgError (E_of (ArgError (pgErr err))
                                      [ArgString "select events"])) []))
         | None =>
             match fetched [eventID] (events w) with
             | [] => (zeroEvent, Some (E_of (ArgKind NotExist) []))
             | event :: _ => (event, None)
             end
         end) (after_sql SelectEvents w).
Proof.
  unfold EventStore_GetByID. rewrite bind_eq, fetchEvents_eq.
  destruct (next_fault w); [reflexivity|].
  destruct (fetched [eventID] (events w)); reflexivity.
Qed.

Lemma EventStore_GetMulti_eq (eventIDs : list EventID) (w : World) :
  EventStore_GetMulti eventIDs w
  = Ret (match next_fault w with
         | Some err =>
             ([], Some (E_of (ArgError (E_of (ArgError (pgErr err))
                                          [ArgString "select events"]))
                          [ArgString "get multi"]))
         | None => (fetched eventIDs (events w), None)
         end) (after_sql SelectEvents w).
Proof.
  unfold EventStore_GetMulti. rewrite bind_eq, fetchEvents_eq.
  destruct (next_fault w); reflexivity.
Qed.

Section SearchFacts.
Context `{Geo}.

Lemma EventStore_Search_eq (params : EventSearchRequest) (w : World) :
  EventStore_Search params w
  = match next_fault w with
    | Some err => Ret ([], Some (pgErr err)) (after_sql (SearchEvents params) w)
    | None =>
        let w1 := after_sql (SearchEvents params) w in
        Ret (match next_fault w1 with
             | Some err =>
                 ([], Some (E_of (ArgError (pgErr err)) [ArgString "select events"]))
             | None =>
                 (fetched (map (fun r => j_id (e_data r))
                             (List.filter (searchMatches params) (events w)))
                    (events w), None)
             end) (after_sql SelectEvents w1)
    end.
Proof.
  unfold EventStore_Search, doSearch. rewrite !bind_eq, sql_eq.
  destruct (next_fault w) as [err|]; [reflexivity|]. simpl.
  rewrite ?bind_eq, fetchEvents_eq. simpl.
  destruct (next_fault (after_sql (SearchEvents params) w)); reflexivity.
Qed.

End SearchFacts.

(** ** Sorting keeps the elements *)

Lemma In_insertByStart (e x : Event) (l : list Event) :
  In x (insertByStart e l) <-> x = e \/ In x l.
Proof.
  induction l as [|y l IH]; simpl; [intuition congruence|].
  destruct (StartTime e <? StartTime y); simpl; [intuition congruence|].
  rewrite IH. intuition congruence.
Qed.

Lemma In_sortByStart (x : Event) (l : list Event) :
  In x (sortByStart l) <-> In x l.
Proof.
  induction l as [|y l IH]; simpl; [reflexivity|].
  rewrite In_insertByStart, IH. intuition congruence.
Qed.

Lemma sortByStart_nil (l : list Event) : sortByStart l = [] -> l = [].
Proof.
  destruct l as [|y l]; [reflexivity|]. intros Hs.
  assert (Hin : In y (sortByStart (y :: l))) by (apply In_sortByStart; now left).
  rewrite Hs in Hin. destruct Hin.
Qed.

(** What [fetchEvents] returns are rows of the table with a requested id. *)
Lemma In_fetched (ev : Event) (eventIDs : list EventID) (rows : list EventRow) :
  In ev (fetched eventIDs rows) <->
  exists r, In r rows /\ In (e_id r) eventIDs /\ toEvent r = ev.
Proof.
  unfold fetched. rewrite In_sortByStart, in_map_iff. split.
  - intros (r & Hev & Hin). apply filter_In in Hin as [Hin Hid].
    apply existsb_exists in Hid as (id & Hid & Heq).
    apply bool_decide_eq_true in Heq. exists r. now subst.
  - intros (r & Hin & Hid & Hev). exists r. split; [exact Hev|].
    apply filter_In. split; [exact Hin|]. apply existsb_exists.
    exists (e_id r). split; [exact Hid|]. now apply bool_decide_eq_true.
Qed.

(** With the unique index in force, looking the matching ids up again
    yields exactly the matching rows. *)
Lemma In_fetched_matching (ev : Event) (p : EventRow -> bool) (rows : list EventRow) :
  events_wf rows ->
  (In ev (fetched (map (fun r => j_id (e_data r)) (List.filter p rows)) rows) <->
   exists r, In r rows /\ p r = true /\ toEvent r = ev).
Proof.
  intros [Hnodup Hid]. rewrite In_fetched. split.
  - intros (r & Hin & Hids & Hev). exists r. split; [exact Hin|]. split; [|exact Hev].
    apply in_map_iff in Hids as (r' & Hj & Hin').
    apply filter_In in Hin' as [Hin' Hp].
    rewrite Forall_forall in Hid.
    assert (Heq : e_id r' = e_id r) by (rewrite (Hid r' Hin'); exact Hj).
    assert (r' = r); [|now subst].
    clear -Hnodup Hin Hin' Heq.
    induction rows as [|x rows IH]; [destruct Hin|].
    simpl in Hnodup. inversion Hnodup as [|? ? Hnotin Hnd]; subst.
    destruct Hin as [->|Hin], Hin' as [->|Hin']; [reflexivity| | |now apply IH].
    + exfalso. apply Hnotin. rewrite <- Heq. now apply in_map.
    + exfalso. apply Hnotin. rewrite Heq. now apply in_map.
  - intros (r & Hin & Hp & Hev). exists r. split; [exact Hin|]. split; [|exact Hev].
    rewrite Forall_forall in Hid. rewrite (Hid r Hin).
    apply in_map_iff. exists r. split; [reflexivity|]. now apply filter_In.
Qed.

(** [Save] keeps the unique index and the agreement of the two ids. *)
Lemma upsertEvent_ids (data : EventData) (rows : list EventRow) :
  forall id, In id (map e_id (upsertEvent data rows)) <->
             id = j_id data \/ In id (map e_id rows).
Proof.
  induction rows as [|r rows IH]; intros id; simpl; [intuition congruence|].
  case_bool_decide as Hr; simpl; [rewrite Hr; intuition congruence|].
  rewrite IH. intuition congruence.
Qed.

Lemma upsertEvent_wf (data : EventData) (rows : list EventRow) :
  events_wf rows -> events_wf (upsertEvent data rows).
Proof.
  intros [Hnodup Hid]. induction rows as [|r rows IH]; simpl.
  - split; [repeat constructor; intros []|repeat constructor].
  - simpl in Hnodup. inversion Hnodup as [|? ? Hnotin Hnd]; subst.
    inversion Hid as [|? ? Hr Hrest]; subst.
    case_bool_decide as Heq; simpl.
    + split; [now constructor|]. constructor; [exact Heq|exact Hrest].
    + destruct (IH Hnd Hrest) as [Hnd' Hid']. split.
      * constructor; [|exact Hnd']. rewrite upsertEvent_ids. intuition congruence.
      * now constructor.
Qed.

End PgFacts.

(* ===================================================================== *)
(** * Properties of nextEvent and DestGenerate                            *)
(* ===================================================================== *)

Module GenerateFacts.
Import Errors Eventdb World Pg Facebook Service WorldFacts PgFacts.

#[local] Open Scope Z_scope.
#[local] Arguments EventStore_Search : simpl never.
#[local] Arguments EventStore_GetByID : simpl never.
#[local] Arguments DestStore_ListForUser : simpl never.
#[local] Arguments Intn : simpl never.
#[local] Arguments E_of : simpl never.
#[local] Arguments Is : simpl never.
#[local] Arguments Z.mul : simpl never.
#[local] Arguments Z.add : simpl never.
#[local] Arguments Z.sub : simpl never.

Lemma Intn_eq (n : Z) (w : World) :
  0 < n ->
  exists r, 0 <= r < n
            /\ Intn n w = Ret r (add_log Rand (set_rands (tl (rands w)) w)).
Proof.
  intros Hn. unfold Intn. destruct (n <=? 0) eqn:Hle; [lia|].
  rewrite bind_eq. destruct (draw_eq w) as (r & Hr & ->).
  exists (r mod n). split; [apply Z.mod_pos_bound; lia|reflexivity].
Qed.

(** An error built from a cause and then a text has no kind: the text
    replaces the cause. *)
Lemma Is_E_of_text (k : Kind) (err : error) (s : string) :
  Is k (E_of (ArgError err) [ArgString s]) = false.
Proof. reflexivity. Qed.

Section LoopFacts.
Context `{Geo}.
Variables (userID : UserID) (now : Instant) (bounds : string)
          (alreadyChosen : list Dest).

#[local] Abbreviation searchError := (Service.searchError userID).
#[local] Abbreviation goodOf := (Service.goodOf now bounds alreadyChosen).
#[local] Abbreviation loop_outcome := (Service.loop_outcome now alreadyChosen).



(** One turn of the loop. *)
Lemma searchLoop_S (fuel : nat) (t : Instant) (w : World) :
  searchLoop (S fuel) userID now bounds alreadyChosen t w
  = if t - now >? 48 * Hour then Ret ("", GenerateNoResults, None) w
    else
      let w1 := after_sql (SearchEvents (windowRequest bounds t)) w in
      let w2 := after_sql SelectEvents w1 in
      match next_fault w with
      | Some err =>
          Ret (if Is NotExist (pgErr err) then ("", GenerateNoResults, None)
               else ("", GenerateError, Some (searchError (pgErr err)))) w1
      | None =>
          match next_fault w1 with
          | Some err =>
              Ret ("", GenerateError,
                   Some (searchError (E_of (ArgError (pgErr err))
                                        [ArgString "select events"]))) w2
          | None =>
              match goodOf t w with
              | [] => searchLoop fuel userID now bounds alreadyChosen
                        (t + timeWindow) w2
              | _ =>
                  (n ← Intn (Z.of_nat (length (goodOf t w)));
                   match goodOf t w !! Z.to_nat n with
                   | Some event => mret (ID event, GenerateOK, None)
                   | None => panic "index out of range"
                   end) w2
              end
          end
      end.
Proof.
  simpl. destruct (t - now >? 48 * Hour); [reflexivity|].
  rewrite bind_eq, EventStore_Search_eq. fold (windowRequest bounds t).
  destruct (next_fault w) as [err|].
  - simpl. destruct (Is NotExist (pgErr err)); reflexivity.
  - simpl.
    destruct (next_fault (after_sql (SearchEvents (windowRequest bounds t)) w))
      as [err|].
    + rewrite Is_E_of_text. reflexivity.
    + fold (goodOf t w). destruct (goodOf t w); reflexivity.
Qed.


Lemma suppress_Op (e : Error) : Op (suppress e) = Op e.
Proof.
  unfold suppress. destruct (Err e) as [[prev|l]|]; try reflexivity.
  repeat case_bool_decide; reflexivity.
Qed.

Lemma searchError_domain (e : error) :
  exists x, searchError e = ErrDomain x /\ Op x = "Service.nextEvent".
Proof.
  unfold searchError, E_of. simpl. eexists. split; [reflexivity|].
  now rewrite suppress_Op.
Qed.

Lemma windowsLeft_step (t : Instant) :
  (t - now >? 48 * Hour) = false ->
  windowsLeft now t = S (windowsLeft now (t + timeWindow)).
Proof.
  intros Hle. unfold windowsLeft. rewrite Hle.
  assert (Htw : 0 < timeWindow) by reflexivity.
  destruct (t + timeWindow - now >? 48 * Hour) eqn:Hnext.
  - f_equal. rewrite Z.div_small; [reflexivity|]. lia.
  - f_equal.
    replace (48 * Hour - (t - now))
      with (48 * Hour - (t + timeWindow - now) + 1 * timeWindow) by lia.
    rewrite Z.div_add by lia.
    rewrite Z2Nat.inj_add; [| apply Z.div_pos; lia | lia].
    simpl. lia.
Qed.

Lemma failuresOf_app (l2 l1 : list Effect) :
  failuresOf (l2 ++ l1) = (failuresOf l1 ++ failuresOf l2)%list.
Proof. unfold failuresOf. now rewrite rev_app_distr, omap_app. Qed.

Lemma searchesOf_app (l2 l1 : list Effect) :
  searchesOf (l2 ++ l1) = (searchesOf l1 ++ searchesOf l2)%list.
Proof. unfold searchesOf. now rewrite rev_app_distr, omap_app. Qed.

(** The loop, whatever the schedule of faults and the fuel: it leaves the
    database alone, it sends the searches of successive windows and no
    more of them than there are left, and it ends as [loop_outcome] says. *)
Lemma searchLoop_spec (fuel : nat) : forall (t : Instant) (w : World),
  let out := searchLoop fuel userID now bounds alreadyChosen t w in
  same_db w (world_of out)
  /\ exists (l : list Effect) (n : nat),
      log (world_of out) = (l ++ log w)%list
      /\ (n <= windowsLeft now t)%nat
      /\ searchesOf l = map (windowRequest bounds) (windows n t)
      /\ loop_outcome w l out.
Proof.
  induction fuel as [|fuel IH]; intros t w out.
  - split; [reflexivity|]. exists [], O. simpl. repeat split. lia.
  - unfold out. rewrite searchLoop_S.
    destruct (t - now >? 48 * Hour) eqn:Hover.
    { split; [reflexivity|]. exists [], O. simpl.
      repeat split; [lia|]. right. left. repeat split. now left. }
    pose proof (windowsLeft_step t Hover) as Hleft.
    set (p := windowRequest bounds t).
    cbv zeta.
    destruct (next_fault w) as [err|] eqn:Hf1.
    { split; [apply same_db_after_sql|].
      exists [Sql (SearchEvents p) (Some err)], 1%nat.
      simpl. rewrite Hf1. repeat split; [lia|].
      destruct (Is NotExist (pgErr err)) eqn:HIs.
      - right. left. repeat split. right. exists p, err. now split.
      - right. right. repeat split.
        + destruct (searchError_domain (pgErr err)) as (x & -> & Hx). eauto.
        + exists (SearchEvents p), err. split; [reflexivity|]. now intros. }
    set (w1 := after_sql (SearchEvents p) w).
    set (w2 := after_sql SelectEvents w1).
    assert (Hlog2 : log w2 = ([Sql SelectEvents (next_fault w1);
                               Sql (SearchEvents p) None] ++ log w)%list).
    { unfold w2, w1. simpl. now rewrite Hf1. }
    assert (Hdb2 : same_db w w2).
    { transitivity w1; apply same_db_after_sql. }
    destruct (next_fault w1) as [err|] eqn:Hf2.
    { split; [exact Hdb2|].
      exists [Sql SelectEvents (Some err); Sql (SearchEvents p) None], 1%nat.
      split; [exact Hlog2|]. split; [lia|]. split; [reflexivity|].
      right. right. repeat split.
      - destruct (searchError_domain
                    (E_of (ArgError (pgErr err)) [ArgString "select events"]))
          as (x & -> & Hx). eauto.
      - exists SelectEvents, err. split; [reflexivity|]. discriminate. }
    destruct (goodOf t w) as [|g good] eqn:Hgood.
    + specialize (IH (t + timeWindow) w2). cbv zeta in IH.
      destruct IH as (Hdb & l & n & Hlog & Hn & Hs & Hout).
      split; [now transitivity w2|].
      exists (l ++ [Sql SelectEvents None; Sql (SearchEvents p) None])%list, (S n).
      split; [rewrite Hlog, Hlog2; now rewrite <- app_assoc|].
      split; [lia|].
      split; [rewrite searchesOf_app; simpl; now rewrite Hs|].
      unfold loop_outcome in *.
      destruct (searchLoop fuel userID now bounds alreadyChosen
                  (t + timeWindow) w2) as [[[id r] err] w'|msg w'|w'];
        try exact Hout.
      rewrite failuresOf_app. exact Hout.
    + assert (Hlen : 0 < Z.of_nat (length (g :: good))) by (simpl; lia).
      rewrite bind_eq.
      destruct (Intn_eq _ w2 Hlen) as (r & Hr & ->).
      destruct (lookup_lt_is_Some_2 (g :: good) (Z.to_nat r)) as [ev Hev];
        [lia|].
      rewrite Hev. simpl.
      split; [exact Hdb2|].
      exists [Rand; Sql SelectEvents None; Sql (SearchEvents p) None], 1%nat.
      split; [transitivity (Rand :: log w2); [reflexivity|now rewrite Hlog2]|].
      split; [lia|]. split; [reflexivity|].
      left. repeat split.
      apply list_elem_of_lookup_2, list_elem_of_In in Hev.
      rewrite <- Hgood in Hev. unfold goodOf in Hev.
      apply filter_In in Hev as [Hin Hok].
      apply In_fetched in Hin as (row & Hrow & _ & Hto).
      exists ev. split; [|now split].
      apply in_map_iff. eauto.
Qed.

(** With more fuel than windows left, the loop finishes, and the same way
    whatever the fuel. *)
Lemma searchLoop_enough (fuel : nat) : forall (t : Instant) (w : World) (fuel' : nat),
  (windowsLeft now t < fuel)%nat -> (windowsLeft now t < fuel')%nat ->
  searchLoop fuel userID now bounds alreadyChosen t w
  = searchLoop fuel' userID now bounds alreadyChosen t w
  /\ forall w', searchLoop fuel userID now bounds alreadyChosen t w <> Unfinished w'.
Proof.
  induction fuel as [|fuel IH]; intros t w fuel' Hf Hf'; [lia|].
  destruct fuel' as [|fuel']; [lia|].
  rewrite !searchLoop_S.
  destruct (t - now >? 48 * Hour) eqn:Hover; [split; [reflexivity|discriminate]|].
  pose proof (windowsLeft_step t Hover) as Hleft.
  cbv zeta.
  destruct (next_fault w); [split; [reflexivity|discriminate]|].
  destruct (next_fault _); [split; [reflexivity|discriminate]|].
  destruct (goodOf t w) as [|g good] eqn:Hgood.
  - apply IH; lia.
  - split; [reflexivity|].
    assert (Hlen : 0 < Z.of_nat (length (g :: good))) by (simpl; lia).
    rewrite bind_eq.
    destruct (Intn_eq _ (after_sql SelectEvents
                           (after_sql (SearchEvents (windowRequest bounds t)) w))
                Hlen) as (r & Hr & ->).
    destruct ((g :: good) !! Z.to_nat r); discriminate.
Qed.

(** When no statement fails and no window has an event that passes the
    filter, the loop ends in NO_RESULTS. *)
Lemma searchLoop_no_results (fuel : nat) : forall (t : Instant) (w : World),
  (windowsLeft now t < fuel)%nat ->
  no_faults w ->
  (forall t', In t' (windows (windowsLeft now t) t) -> goodOf t' w = []) ->
  exists w', searchLoop fuel userID now bounds alreadyChosen t w
             = Ret ("", GenerateNoResults, None) w'.
Proof.
  induction fuel as [|fuel IH]; intros t w Hf Hnf Hnone; [lia|].
  rewrite searchLoop_S.
  destruct (t - now >? 48 * Hour) eqn:Hover; [eauto|].
  pose proof (windowsLeft_step t Hover) as Hleft.
  cbv zeta.
  set (w1 := after_sql (SearchEvents (windowRequest bounds t)) w).
  assert (Hnf1 : no_faults w1) by now apply no_faults_after_sql.
  rewrite (no_faults_next w Hnf), (no_faults_next w1 Hnf1).
  rewrite Hnone; [|rewrite Hleft; now left].
  apply IH; [lia|now apply no_faults_after_sql|].
  intros t' Hin.
  change (goodOf t' (after_sql SelectEvents w1)) with (goodOf t' w).
  apply Hnone. rewrite Hleft. now right.
Qed.

End LoopFacts.

Section NextEventFacts.
Context `{Geo}.
Variables (userID : UserID) (opts : DestGenerateRequest).

#[local] Abbreviation historyError := (Service.historyError userID).
#[local] Abbreviation boundsOf := (Service.boundsOf opts).
#[local] Abbreviation historyOf := (Service.historyOf userID).
#[local] Abbreviation next_outcome := (Service.next_outcome userID).




Lemma historyError_domain (text : string) (e : error) :
  exists x, historyError text e = ErrDomain x /\ Op x = "Service.nextEvent".
Proof.
  unfold historyError, E_of. simpl. eexists. split; [reflexivity|].
  now rewrite suppress_Op.
Qed.

Lemma nextEvent_eq (fuel : nat) (w : World) :
  nextEvent fuel userID opts w
  = let now := clock w in
    let w1 := after_sql SelectDests w in
    let w2 := after_sql SelectEvents w1 in
    let search :=
      searchLoop fuel userID now boundsOf (historyOf w) (now + 10 * Minute) in
    match next_fault w with
    | Some e =>
        Ret ("", GenerateError,
             Some (historyError "list dests"
                     (E_of (ArgError (pgErr e)) [ArgString "dest list"]))) w1
    | None =>
        match historyOf w with
        | [] => search w1
        | lastDest :: _ =>
            match next_fault w1 with
            | Some e =>
                Ret ("", GenerateError,
                     Some (historyError "get last event"
                             (E_of (ArgError (E_of (ArgError (pgErr e))
                                                [ArgString "select events"])) [])))
                  w2
            | None =>
                match fetched [DEventID lastDest] (events w) with
                | [] =>
                    Ret ("", GenerateError,
                         Some (historyError "get last event"
                                 (E_of (ArgKind NotExist) []))) w2
                | lastEvent :: _ =>
                    if StartTime lastEvent >? now
                    then Ret ("", GenerateWait, None) w2
                    else search w2
                end
            end
        end
    end.
Proof.
  unfold nextEvent. rewrite bind_eq. simpl.
  rewrite bind_eq, DestStore_ListForUser_eq.
  destruct (next_fault w) as [e|]; [reflexivity|].
  fold (historyOf w). fold boundsOf.
  destruct (historyOf w) as [|lastDest rest]; [reflexivity|].
  rewrite bind_eq, EventStore_GetByID_eq.
  change (next_fault (after_sql SelectDests w))
    with (next_fault (after_sql SelectDests w)).
  destruct (next_fault (after_sql SelectDests w)) as [e|]; [reflexivity|].
  change (events (after_sql SelectDests w)) with (events w).
  destruct (fetched [DEventID lastDest] (events w)) as [|lastEvent rest'];
    [reflexivity|].
  change (clock (after_sql SelectDests w)) with (clock w).
  destruct (StartTime lastEvent >? clock w); reflexivity.
Qed.


Lemma windowsLeft_start (now : Instant) :
  windowsLeft now (now + 10 * Minute) = 32%nat.
Proof.
  unfold windowsLeft. replace (now + 10 * Minute - now) with (10 * Minute) by lia.
  reflexivity.
Qed.

Lemma loop_to_next (w w0 : World) (l l0 : list Effect) out :
  events w0 = events w ->
  failuresOf l0 = [] ->
  loop_outcome (clock w) (historyOf w) w0 l out ->
  next_outcome w (l ++ l0) out.
Proof.
  intros Hev Hl0 Hout. unfold loop_outcome, next_outcome in *.
  destruct out as [[[id r] err] w'|msg w'|w']; try exact Hout.
  rewrite failuresOf_app, Hl0. simpl. rewrite Hev in Hout.
  destruct Hout as [Hok|[Hno|Herr]].
  - left. exact Hok.
  - right. right. left. exact Hno.
  - right. right. right. destruct Herr as (Hr & Hid & Hx & s & e & Hf & Hs).
    repeat split; try assumption. right. eauto.
Qed.

(** [nextEvent], whatever the schedule of faults and the fuel: it leaves
    the database alone, it sends at most 32 searches, those of successive
    90-minute windows from now + 10 minutes, and it ends as
    [next_outcome] says. *)
Lemma nextEvent_spec (fuel : nat) (w : World) :
  let out := nextEvent fuel userID opts w in
  same_db w (world_of out)
  /\ exists (l : list Effect) (n : nat),
      log (world_of out) = (l ++ log w)%list
      /\ (n <= 32)%nat
      /\ searchesOf l
         = map (windowRequest boundsOf) (windows n (clock w + 10 * Minute))
      /\ next_outcome w l out.
Proof.
  intros out. unfold out. rewrite nextEvent_eq. cbv zeta.
  set (w1 := after_sql SelectDests w).
  set (w2 := after_sql SelectEvents w1).
  assert (Hdb1 : same_db w w1) by apply same_db_after_sql.
  assert (Hdb2 : same_db w w2) by (transitivity w1; apply same_db_after_sql).
  destruct (next_fault w) as [e|] eqn:Hf1.
  { split; [exact Hdb1|].
    exists [Sql SelectDests (Some e)], O. simpl. rewrite Hf1.
    repeat split; [lia|]. right. right. right. repeat split.
    - destruct (historyError_domain "list dests"
                  (E_of (ArgError (pgErr e)) [ArgString "dest list"]))
        as (x & -> & Hx). eauto.
    - right. exists SelectDests, e. split; [reflexivity|]. discriminate. }
  assert (Hlog1 : log w1 = ([Sql SelectDests None] ++ log w)%list).
  { unfold w1. simpl. now rewrite Hf1. }
  assert (Hsearch : forall w0 l0,
    same_db w w0 -> events w0 = events w ->
    log w0 = (l0 ++ log w)%list -> failuresOf l0 = [] -> searchesOf l0 = [] ->
    let out := searchLoop fuel userID (clock w) boundsOf (historyOf w)
                 (clock w + 10 * Minute) w0 in
    same_db w (world_of out)
    /\ exists l n, log (world_of out) = (l ++ log w)%list /\ (n <= 32)%nat
         /\ searchesOf l
            = map (windowRequest boundsOf) (windows n (clock w + 10 * Minute))
         /\ next_outcome w l out).
  { intros w0 l0 Hdb0 Hev0 Hlog0 Hfail0 Hs0 out0.
    destruct (searchLoop_spec userID (clock w) boundsOf (historyOf w) fuel
                (clock w + 10 * Minute) w0) as (Hdb & l & n & Hlog & Hn & Hs & Hout).
    fold out0 in Hdb, Hlog, Hout.
    split; [now transitivity w0|].
    exists (l ++ l0)%list, n. rewrite windowsLeft_start in Hn.
    split; [rewrite Hlog, Hlog0; now rewrite app_assoc|].
    split; [exact Hn|].
    split; [rewrite searchesOf_app, Hs0; exact Hs|].
    now apply loop_to_next with w0. }
  destruct (historyOf w) as [|lastDest rest] eqn:Hhist.
  { apply (Hsearch w1 [Sql SelectDests None]); auto. }
  assert (Hlog2 : log w2 = ([Sql SelectEvents (next_fault w1);
                             Sql SelectDests None] ++ log w)%list).
  { transitivity (Sql SelectEvents (next_fault w1) :: log w1); [reflexivity|].
    now rewrite Hlog1. }
  destruct (next_fault w1) as [e|] eqn:Hf2.
  { split; [exact Hdb2|].
    exists [Sql SelectEvents (Some e); Sql SelectDests None], O.
    split; [exact Hlog2|]. split; [lia|]. split; [reflexivity|].
    right. right. right. repeat split.
    - destruct (historyError_domain "get last event"
                  (E_of (ArgError (E_of (ArgError (pgErr e))
                                     [ArgString "select events"])) []))
        as (x & -> & Hx). eauto.
    - right. exists SelectEvents, e. split; [reflexivity|]. discriminate. }
  destruct (fetched [DEventID lastDest] (events w)) as [|lastEvent rest'] eqn:Hlast.
  { split; [exact Hdb2|].
    exists [Sql SelectEvents None; Sql SelectDests None], O.
    split; [exact Hlog2|]. split; [lia|]. split; [reflexivity|].
    right. right. right. repeat split.
    - destruct (historyError_domain "get last event" (E_of (ArgKind NotExist) []))
        as (x & -> & Hx). eauto.
    - now left. }
  destruct (StartTime lastEvent >? clock w) eqn:Hstart.
  { split; [exact Hdb2|].
    exists [Sql SelectEvents None; Sql SelectDests None], O.
    split; [exact Hlog2|]. split; [lia|]. split; [reflexivity|].
    right. left. repeat split.
    exists lastDest, rest, lastEvent, rest'.
    split; [exact Hhist|]. split; [exact Hlast|lia]. }
  apply (Hsearch w2 [Sql SelectEvents None; Sql SelectDests None]); auto.
Qed.

End NextEventFacts.

(** ** DestStore.Create and DestList *)

#[local] Arguments sql : simpl never.


#[global] Instance same_but_dests_preorder : PreOrder same_but_dests.
Proof.
  split.
  - intros w. repeat split.
  - intros w1 w2 w3 (A1 & A2 & A3 & A4 & A5 & A6) (B1 & B2 & B3 & B4 & B5 & B6).
    repeat split; congruence.
Qed.

Lemma same_db_but_dests (w w' : World) : same_db w w' -> same_but_dests w w'.
Proof.
  intros (Hdb & Hc & Hx & Hg). unfold database in Hdb.
  injection Hdb as Hd Hs He Hu Hus. repeat split; assumption.
Qed.

Lemma respects_modify (R : World -> World -> Prop) (f : World -> World) :
  (forall w, R w (f w)) -> respects R (modify f).
Proof. intros Hf w. apply Hf. Qed.

(** Splitting a [respects] goal along the structure of the program. *)
Ltac respects_step :=
  match goal with
  | |- respects _ (mret _) => apply respects_ret; typeclasses eauto
  | |- respects _ (_ ≫= _) =>
      apply respects_bind; [typeclasses eauto| |intros]
  | |- respects _ get => apply respects_get; typeclasses eauto
  | |- respects _ (panic _) => apply respects_panic; typeclasses eauto
  | |- respects _ unfinished => apply respects_unfinished; typeclasses eauto
  | |- respects same_db (sql _) => apply same_db_sql
  | |- respects log_grows (sql _) => apply log_grows_sql
  | |- respects same_but_dests (sql _) =>
      intros ?; apply same_db_but_dests, same_db_sql
  | |- respects same_db draw => apply same_db_draw
  | |- respects log_grows draw => apply log_grows_draw
  | |- respects _ (modify _) =>
      apply respects_modify; intros ?; first [now repeat split | now exists []]
  | |- respects _ (match ?x with _ => _ end) => destruct x
  | |- respects _ (if ?b then _ else _) => destruct b
  end.
Ltac respects_auto := repeat respects_step.

Lemma same_db_list q : respects same_db (DestStore_list q).
Proof. unfold DestStore_list. respects_auto. Qed.

Lemma log_grows_list q : respects log_grows (DestStore_list q).
Proof. unfold DestStore_list. respects_auto. Qed.

Lemma same_db_fetchEvents ids : respects same_db (fetchEvents ids).
Proof. unfold fetchEvents. respects_auto. Qed.

Lemma log_grows_fetchEvents ids : respects log_grows (fetchEvents ids).
Proof. unfold fetchEvents. respects_auto. Qed.

Lemma same_db_DestList info req : respects same_db (DestList info req).
Proof.
  unfold DestList, DestStore_ListForUser, EventStore_GetMulti.
  respects_auto; first [apply same_db_list | apply same_db_fetchEvents].
Qed.

Lemma log_grows_DestList info req : respects log_grows (DestList info req).
Proof.
  unfold DestList, DestStore_ListForUser, EventStore_GetMulti.
  respects_auto; first [apply log_grows_list | apply log_grows_fetchEvents].
Qed.

Lemma same_but_dests_Create dest : respects same_but_dests (DestStore_Create dest).
Proof.
  unfold DestStore_Create, DestStore_Get.
  respects_auto.
  intros w. apply same_db_but_dests, same_db_list.
Qed.

Lemma log_grows_Create dest : respects log_grows (DestStore_Create dest).
Proof.
  unfold DestStore_Create, DestStore_Get.
  respects_auto. apply log_grows_list.
Qed.


(** Sending the next statement and splitting on whether it fails. *)
Ltac sql_step :=
  rewrite ?bind_eq; rewrite sql_eq;
  match goal with
  | |- context [match next_fault ?w with _ => _ end] =>
      let e := fresh "e" in
      let Hf := fresh "Hf" in
      destruct (next_fault w) as [e|] eqn:Hf
  end.

(** [Create] always returns; it either leaves [dests] as it is or adds
    [newRow], and it adds the row whenever it reports no error. *)
Lemma DestStore_Create_dests (dest : Dest) (w : World) :
  exists r w',
    DestStore_Create dest w = Ret r w'
    /\ (dests w' = dests w \/ dests w' = newRow dest w :: dests w)
    /\ (r.2 = None -> dests w' = newRow dest w :: dests w).
Proof.
  unfold DestStore_Create.
  sql_step.
  { eexists _, _. split; [reflexivity|]. simpl. split; [tauto|discriminate]. }
  sql_step.
  { eexists _, _. split; [reflexivity|]. simpl. split; [tauto|discriminate]. }
  rewrite bind_eq. cbn [get]. rewrite bind_eq. cbn [modify].
  sql_step.
  { eexists _, _. split; [reflexivity|]. simpl. split; [tauto|discriminate]. }
  sql_step.
  { eexists _, _. split; [reflexivity|]. simpl. split; [tauto|discriminate]. }
  rewrite bind_eq. cbn [get]. rewrite bind_eq. cbn [modify].
  unfold DestStore_Get, DestStore_list.
  sql_step.
  { simpl. eexists _, _. split; [reflexivity|]. simpl. split; [tauto|discriminate]. }
  simpl. rewrite bool_decide_eq_true_2 by reflexivity. simpl.
  eexists _, _. split; [reflexivity|]. simpl. tauto.
Qed.

Section DestGenerateFacts.
Context `{Geo}.

#[local] Arguments nextEvent : simpl never.
#[local] Arguments DestList : simpl never.
#[local] Arguments DestStore_Create : simpl never.




Lemma authorized_dec (info : Info) (opts : DestGenerateRequest) :
  authorized info opts \/ ~ authorized info opts.
Proof.
  unfold authorized.
  destruct (decide (AuthID info = "")) as [Ha|Ha]; [right; tauto|].
  destruct (decide (resolveUser info opts = AuthID info)) as [Hr|Hr]; [left; tauto|].
  destruct (IsAdmin info); [left; tauto|].
  right. intros [_ [?|?]]; congruence.
Qed.

Lemma DestGenerate_eq (fuel : nat) (info : Info) (opts : DestGenerateRequest)
  (w : World) :
  authorized info opts ->
  DestGenerate fuel info opts w
  = match nextEvent fuel (resolveUser info opts) opts w with
    | Ret (chosenID, result, Some e) w1 =>
        Ret (mkReply GenerateOK [] [], Some (nextEventFailed e)) w1
    | Ret (chosenID, result, None) w1 =>
        afterChoice info (resolveUser info opts) chosenID result w1
    | Panic msg w1 => Panic msg w1
    | Unfinished w1 => Unfinished w1
    end.
Proof.
  intros [Hid Hauth]. unfold DestGenerate. cbv zeta.
  rewrite (bool_decide_eq_false_2 _ Hid).
  match goal with
  | |- context [nextEvent fuel ?u0 opts] => set (u := u0) in *
  end.
  change (resolveUser info opts) with u in *.
  replace (bool_decide (u <> AuthID info) && negb (IsAdmin info)) with false.
  2:{ destruct Hauth as [Hr|Ha].
      - rewrite bool_decide_eq_false_2; [reflexivity|]. intros Hne. now apply Hne.
      - rewrite Ha. now rewrite andb_false_r. }
  rewrite bind_eq.
  destruct (nextEvent fuel u opts w)
    as [[[chosenID result] [e|]] w1|msg w1|w1]; reflexivity.
Qed.

Lemma DestGenerate_denied (fuel : nat) (info : Info) (opts : DestGenerateRequest)
  (w : World) :
  ~ authorized info opts ->
  DestGenerate fuel info opts w
  = Ret (mkReply GenerateOK [] [], Some permissionDenied) w.
Proof.
  intros Hno. unfold DestGenerate. cbv zeta.
  case_bool_decide as Hid; [reflexivity|].
  unfold authorized in Hno.
  match goal with
  | |- context [nextEvent fuel ?u0 opts] => set (u := u0) in *
  end.
  change (resolveUser info opts) with u in *.
  case_bool_decide as Hr; simpl.
  - destruct (IsAdmin info) eqn:Ha; [|reflexivity].
    exfalso. apply Hno. split; [exact Hid|now right].
  - exfalso. apply Hno. split; [exact Hid|]. left. exact Hr.
Qed.

(** [afterChoice] creates at most one row, for the chosen event and only
    when the result is OK, and changes nothing else of the database. *)
Lemma afterChoice_spec (info : Info) (userID : UserID) (chosenID : EventID)
  (result : DestGenerateResult) (w : World) :
  let out := afterChoice info userID chosenID result w in
  let row := newRow (mkDest "" userID chosenID None "" "" 0) w in
  same_but_dests w (world_of out)
  /\ log_grows w (world_of out)
  /\ (result <> GenerateOK -> same_db w (world_of out))
  /\ (dests (world_of out) = dests w
      \/ (result = GenerateOK /\ dests (world_of out) = row :: dests w))
  /\ (forall w', out <> Unfinished w')
  /\ (forall reply err w', out = Ret (reply, err) w' -> Result reply = result)
  /\ (forall reply w', out = Ret (reply, None) w' -> result = GenerateOK ->
        dests w' = row :: dests w).
Proof.
  intros out row. unfold out, afterChoice. cbv zeta.
  assert (Htail : forall w0 : World,
    let out0 :=
      ('(dests, err) ← DestList info (mkDestListRequest 0);
       match err with
       | Some e =>
           mret (mkReply result [] [],
                 Some (E_of (ArgOp "Service.DestGenerate")
                         [ArgUserID userID; ArgKind Internal;
                          ArgString "list dests"; ArgError e]))
       | None =>
           match takeEvents dests with
           | Some (ds, destEvents) => mret (mkReply result ds destEvents, None)
           | None => panic "nil pointer dereference"
           end
       end) w0 in
    same_db w0 (world_of out0) /\ log_grows w0 (world_of out0)
    /\ (forall w', out0 <> Unfinished w')
    /\ (forall reply err w', out0 = Ret (reply, err) w' -> Result reply = result)).
  { intros w0 out0. unfold out0. rewrite bind_eq.
    pose proof (same_db_DestList info (mkDestListRequest 0) w0) as Hdb.
    pose proof (log_grows_DestList info (mkDestListRequest 0) w0) as Hlog.
    assert (Hfin : forall w', DestList info (mkDestListRequest 0) w0 <> Unfinished w').
    { intros w'. unfold DestList, DestStore_ListForUser, DestStore_list,
        EventStore_GetMulti.
      case_bool_decide; [discriminate|].
      rewrite !bind_eq, sql_eq. cbn [get mret M_ret].
      destruct (next_fault w0); simpl; [discriminate|].
      rewrite !bind_eq, fetchEvents_eq.
      destruct (next_fault _); simpl; discriminate. }
    destruct (DestList info (mkDestListRequest 0) w0)
      as [[ds [e|]] w1|msg w1|w1]; simpl in *.
    - split; [exact Hdb|]. split; [exact Hlog|]. split; [discriminate|].
      now intros ? ? ? [= <- _ _].
    - destruct (takeEvents ds) as [[ds' es]|]; simpl.
      + split; [exact Hdb|]. split; [exact Hlog|]. split; [discriminate|].
        now intros ? ? ? [= <- _ _].
      + split; [exact Hdb|]. split; [exact Hlog|]. split; discriminate.
    - split; [exact Hdb|]. split; [exact Hlog|]. split; discriminate.
    - exfalso. now apply (Hfin w1). }
  rewrite bind_eq.
  case_bool_decide as Hres.
  - rewrite bind_eq.
    set (dest := mkDest "" userID chosenID None "" "" 0) in *.
    pose proof (same_but_dests_Create dest w) as Hframe.
    pose proof (log_grows_Create dest w) as Hlog.
    destruct (DestStore_Create_dests dest w) as (r & w1 & Hrun & Hd & Hnone).
    rewrite Hrun in Hframe, Hlog |- *. simpl in Hframe, Hlog.
    destruct r as [d [e|]]; simpl in *.
    + split; [exact Hframe|]. split; [exact Hlog|]. split; [congruence|].
      split; [destruct Hd as [Hd|Hd]; [now left|right; now split]|].
      split; [discriminate|].
      split; [now intros ? ? ? [= <- _ _]|discriminate].
    + specialize (Htail w1). cbv zeta in Htail.
      destruct Htail as (Hdb & Hlog' & Hfin & Hres').
      match goal with
      | |- context [world_of ?o] => set (out1 := o) in *
      end.
      assert (Hd1 : dests (world_of out1) = row :: dests w).
      { destruct Hdb as (Hdb & _). unfold database in Hdb.
        injection Hdb as Hd' _ _ _ _. rewrite Hd'. now apply Hnone. }
      split; [transitivity w1; [exact Hframe|now apply same_db_but_dests]|].
      split; [now transitivity w1|].
      split; [congruence|].
      split; [right; now split|].
      split; [exact Hfin|].
      split; [exact Hres'|].
      intros reply w' Hout _. rewrite Hout in Hd1. exact Hd1.
  - simpl. specialize (Htail w). cbv zeta in Htail.
    destruct Htail as (Hdb & Hlog' & Hfin & Hres').
    match goal with
    | |- context [world_of ?o] => set (out1 := o) in *
    end.
    split; [now apply same_db_but_dests|].
    split; [exact Hlog'|].
    split; [intros _; exact Hdb|].
    split; [left; destruct Hdb as (Hdb & _); unfold database in Hdb;
            now injection Hdb as Hd' _ _ _ _|].
    split; [exact Hfin|].
    split; [exact Hres'|].
    intros reply w' _ Hok. congruence.
Qed.

(** The filter of [nextEvent], read as a condition on the event. *)
Lemma isGood_iff (now : Instant) (alreadyChosen : list Dest) (event : Event) :
  isGood now alreadyChosen event = true <->
  ~ In (ID event) (map DEventID alreadyChosen)
  /\ now + 30 * Minute <= EndTime event.
Proof.
  unfold isGood.
  destruct (now + 30 * Minute >? EndTime event) eqn:Hend.
  - simpl. split; [discriminate|]. intros [_ Hle]. lia.
  - rewrite negb_true_iff. split.
    + intros Hex. split; [|lia]. intros Hin.
      apply in_map_iff in Hin as (d & Hd & Hin).
      assert (Htrue : existsb (fun chosen => bool_decide (DEventID chosen = ID event))
                        alreadyChosen = true).
      { apply existsb_exists. exists d. split; [exact Hin|].
        now apply bool_decide_eq_true. }
      congruence.
    + intros [Hnot _].
      destruct (existsb _ alreadyChosen) eqn:Hex; [|reflexivity].
      apply existsb_exists in Hex as (d & Hin & Hd).
      apply bool_decide_eq_true in Hd. exfalso. apply Hnot.
      apply in_map_iff. eauto.
Qed.

Lemma historyOf_ids (userID : UserID) (w : World) :
  map DEventID (historyOf userID w)
  = map d_event_id (historyPage userID (dests w)).
Proof. unfold historyOf. rewrite map_map. reflexivity. Qed.

(** C1 (as the code has it).  Whenever [DestGenerate] returns result OK
    and no error, it has created one destination, for an event of the
    store whose identifier is not among the destinations of the history
    page the call read (the ten most recent of the user) and whose end
    time is not before now + 30 minutes; and the filter applied to every
    query's results keeps exactly the events that are not in that page
    and do not end before now + 30 minutes. *)
Theorem C1_chosen_event_is_new_and_not_over :
  forall (fuel : nat) (info : Info) (opts : DestGenerateRequest)
         (w w' : World) (reply : DestGenerateReply),
    DestGenerate fuel info opts w = Ret (reply, None) w' ->
    Result reply = GenerateOK ->
    (exists (row : DestRow) (erow : EventRow),
        dests w' = row :: dests w
        /\ d_user_id row = resolveUser info opts
        /\ d_event_id row = ID (toEvent erow)
        /\ In erow (events w)
        /\ ~ In (ID (toEvent erow))
               (map d_event_id (historyPage (resolveUser info opts) (dests w)))
        /\ clock w + 30 * Minute <= EndTime (toEvent erow))
    /\ (forall (now : Instant) (alreadyChosen : list Dest) (event : Event),
          isGood now alreadyChosen event = true <->
          ~ In (ID event) (map DEventID alreadyChosen)
          /\ now + 30 * Minute <= EndTime event).
Proof.
  intros fuel info opts w w' reply Hrun Hok.
  split; [|apply isGood_iff].
  destruct (authorized_dec info opts) as [Hauth|Hno].
  2:{ rewrite (DestGenerate_denied fuel info opts w Hno) in Hrun. discriminate. }
  rewrite (DestGenerate_eq fuel info opts w Hauth) in Hrun.
  set (u := resolveUser info opts) in *.
  destruct (nextEvent_spec u opts fuel w) as (Hdb & l & n & Hlog & Hn & Hs & Hout).
  destruct (nextEvent fuel u opts w) as [[[id r] [e|]] w1|msg w1|w1];
    try discriminate.
  simpl in Hdb, Hout.
  destruct (afterChoice_spec info u id r w1)
    as (_ & _ & _ & _ & _ & Hres & Hrow).
  rewrite (Hres _ _ _ Hrun) in Hok. subst r.
  specialize (Hrow _ _ Hrun eq_refl).
  destruct Hout as [(_ & _ & _ & ev & Hin & Hid & Hgood)
                   |[(Hr & _)|[(Hr & _)|(Hr & _)]]]; try discriminate.
  apply in_map_iff in Hin as (erow & <- & Hin).
  apply isGood_iff in Hgood as [Hnew Hend].
  rewrite historyOf_ids in Hnew.
  destruct Hdb as (Hdb & _). unfold database in Hdb.
  injection Hdb as Hd _ _ _ _.
  subst id.
  eexists _, erow. split; [rewrite Hrow, Hd; reflexivity|].
  split; [reflexivity|]. split; [reflexivity|]. repeat split; assumption.
Qed.

(** ** The reply *)








(** ** Failures of the candidate search *)



(** ** Termination of the search and NO_RESULTS *)

Lemma In_windows (n : nat) : forall (t0 t : Instant),
  In t (windows n t0) ->
  t0 <= t /\ t + timeWindow <= t0 + Z.of_nat n * timeWindow.
Proof.
  assert (Htw : 0 < timeWindow) by reflexivity.
  induction n as [|n IH]; intros t0 t Hin; [destruct Hin|].
  destruct Hin as [<-|Hin]; [lia|].
  apply IH in Hin. lia.
Qed.

Lemma tstzrange_overlap_mono (s e a b a' b' : Instant) :
  a' <= a -> b <= b' ->
  tstzrange_overlap s e a b = true -> tstzrange_overlap s e a' b' = true.
Proof. unfold tstzrange_overlap. intros Ha Hb Ho. lia. Qed.

(** C4 (as the code has it).  With fuel for 33 turns the loop of
    [nextEvent] always finishes, and the same way for any larger fuel, so
    [DestGenerate] never runs out of it; the searches it sends are those
    of at most 32 successive 90-minute windows starting at now + 10
    minutes; and when no statement fails, the loop is reached (the
    history page is empty or its last event has started) and the store,
    with its unique index on event ids, holds no candidate (in the
    region, with an address, shorter than ten hours, not flagged bad, not
    in the history page, not ending before now + 30 minutes) whose time
    range meets [now + 10 minutes, now + 48 hours 10 minutes), the result
    is NO_RESULTS. *)
Theorem C4_search_terminates_with_no_results :
  forall (fuel : nat) (info : Info) (opts : DestGenerateRequest) (w : World),
    (33 <= fuel)%nat ->
    let u := resolveUser info opts in
    let out := nextEvent fuel u opts w in
    (forall w', out <> Unfinished w')
    /\ out = nextEvent 33 u opts w
    /\ (forall w', DestGenerate fuel info opts w <> Unfinished w')
    /\ (exists (l : list Effect) (n : nat),
          log (world_of out) = (l ++ log w)%list
          /\ (n <= 32)%nat
          /\ searchesOf l
             = map (windowRequest (boundsOf opts))
                 (windows n (clock w + 10 * Minute)))
    /\ (no_faults w ->
        events_wf (events w) ->
        (historyOf u w = []
         \/ exists lastDest rest lastEvent rest',
             historyOf u w = lastDest :: rest
             /\ fetched [DEventID lastDest] (events w) = lastEvent :: rest'
             /\ StartTime lastEvent <= clock w) ->
        (forall erow,
            In erow (events w) ->
            candidate (clock w) (boundsOf opts) (historyOf u w) erow = true ->
            tstzrange_overlap (f_event_start_time (e_data erow))
              (f_event_end_time (e_data erow))
              (clock w + 10 * Minute) (clock w + 48 * Hour + 10 * Minute)
            = false) ->
        exists w', out = Ret ("", GenerateNoResults, None) w').
Proof.
  intros fuel info opts w Hfuel u out.
  assert (Hloop : forall w0,
    searchLoop fuel u (clock w) (boundsOf opts) (historyOf u w)
      (clock w + 10 * Minute) w0
    = searchLoop 33 u (clock w) (boundsOf opts) (historyOf u w)
        (clock w + 10 * Minute) w0
    /\ forall w', searchLoop fuel u (clock w) (boundsOf opts) (historyOf u w)
                    (clock w + 10 * Minute) w0 <> Unfinished w').
  { intros w0. apply searchLoop_enough; rewrite windowsLeft_start; lia. }
  assert (Hfin : forall w', out <> Unfinished w').
  { intros w'. unfold out. rewrite nextEvent_eq. cbv zeta.
    destruct (next_fault w); [discriminate|].
    destruct (historyOf u w) as [|lastDest rest]; [apply Hloop|].
    destruct (next_fault _); [discriminate|].
    destruct (fetched _ _) as [|lastEvent rest']; [discriminate|].
    destruct (StartTime lastEvent >? clock w); [discriminate|apply Hloop]. }
  split; [exact Hfin|].
  split.
  { unfold out. rewrite !nextEvent_eq. cbv zeta.
    destruct (next_fault w); [reflexivity|].
    destruct (historyOf u w) as [|lastDest rest]; [apply Hloop|].
    destruct (next_fault _); [reflexivity|].
    destruct (fetched _ _) as [|lastEvent rest']; [reflexivity|].
    destruct (StartTime lastEvent >? clock w); [reflexivity|apply Hloop]. }
  split.
  { intros w'.
    destruct (authorized_dec info opts) as [Hauth|Hno];
      [|rewrite (DestGenerate_denied fuel info opts w Hno); discriminate].
    rewrite (DestGenerate_eq fuel info opts w Hauth). fold u. fold out.
    destruct out as [[[id r] [e|]] w1|msg w1|w1] eqn:Hout; try discriminate.
    - destruct (afterChoice_spec info u id r w1) as (_ & _ & _ & _ & Hnever & _).
      apply Hnever.
    - exfalso. now apply (Hfin w1). }
  split.
  { destruct (nextEvent_spec u opts fuel w) as (_ & l & n & Hlog & Hn & Hs & _).
    exists l, n. auto. }
  intros Hnf Hwf Hreached Hnone.
  assert (Hsearch : forall w0,
    no_faults w0 -> events w0 = events w ->
    exists w', searchLoop fuel u (clock w) (boundsOf opts) (historyOf u w)
                 (clock w + 10 * Minute) w0
               = Ret ("", GenerateNoResults, None) w').
  { intros w0 Hnf0 Hev0.
    apply searchLoop_no_results; [rewrite windowsLeft_start; lia|exact Hnf0|].
    rewrite windowsLeft_start. intros t Hin.
    apply In_windows in Hin as [Hlo Hhi].
    unfold goodOf. rewrite Hev0.
    destruct (List.filter _ _) as [|ev evs] eqn:Hgood; [reflexivity|exfalso].
    assert (Hev : In ev (ev :: evs)) by now left.
    rewrite <- Hgood in Hev. apply filter_In in Hev as [Hin Hok].
    apply (In_fetched_matching ev _ _ Hwf) in Hin as (erow & Herow & Hm & <-).
    unfold searchMatches in Hm. simpl in Hm.
    repeat (apply andb_prop in Hm as [Hm ?]).
    assert (Hcand : candidate (clock w) (boundsOf opts) (historyOf u w) erow = true).
    { unfold candidate. repeat (apply andb_true_intro; split); assumption. }
    specialize (Hnone erow Herow Hcand).
    match goal with
    | Ho : tstzrange_overlap _ _ _ _ = true |- _ =>
        apply (tstzrange_overlap_mono _ _ _ _ (clock w + 10 * Minute)
                 (clock w + 48 * Hour + 10 * Minute)) in Ho
    end.
    - congruence.
    - lia.
    - assert (Z.of_nat 32 * timeWindow = 48 * Hour) by reflexivity. lia. }
  unfold out. rewrite nextEvent_eq. cbv zeta.
  set (w1 := after_sql SelectDests w).
  assert (Hnf1 : no_faults w1) by now apply no_faults_after_sql.
  rewrite (no_faults_next w Hnf), (no_faults_next w1 Hnf1).
  destruct Hreached as [Hempty|(lastDest & rest & lastEvent & rest' & Hh & Hl & Hst)].
  - rewrite Hempty in *. now apply Hsearch.
  - rewrite Hh in *. rewrite Hl.
    replace (StartTime lastEvent >? clock w) with false by (symmetry; lia).
    apply Hsearch; [now apply no_faults_after_sql|reflexivity].
Qed.

End DestGenerateFacts.

End GenerateFacts.

(* ===================================================================== *)
(** * Properties of EventSubmit and its retry loop                        *)
(* ===================================================================== *)

Module SubmitFacts.
Import Errors Eventdb World Pg Facebook Service WorldFacts PgFacts.

#[local] Open Scope Z_scope.
#[local] Arguments E_of : simpl never.
#[local] Arguments sql : simpl never.
#[local] Arguments draw : simpl never.
#[local] Arguments fetchEvents : simpl never.
#[local] Arguments Z.mul : simpl never.
#[local] Arguments Z.add : simpl never.
#[local] Arguments Z.pow : simpl never.

(** ** Logs *)

Lemma sleepsOf_app (l1 l2 : list Effect) :
  sleepsOf (l1 ++ l2) = (sleepsOf l2 ++ sleepsOf l1)%list.
Proof. unfold sleepsOf. rewrite rev_app_distr. apply omap_app. Qed.

Lemma tokenSelectsOf_app (l1 l2 : list Effect) :
  tokenSelectsOf (l1 ++ l2) = (tokenSelectsOf l1 + tokenSelectsOf l2)%nat.
Proof. unfold tokenSelectsOf. rewrite List.filter_app. apply length_app. Qed.

Lemma footprint_trans (n m : nat) (w1 w2 w3 : World) :
  footprint n w1 w2 -> footprint m w2 w3 -> footprint (n + m) w1 w3.
Proof.
  intros (l1 & Hl1 & Hs1 & Ht1 & Hc1) (l2 & Hl2 & Hs2 & Ht2 & Hc2).
  exists (l2 ++ l1)%list. rewrite Hl2, Hl1, app_assoc.
  split; [reflexivity|]. rewrite sleepsOf_app, tokenSelectsOf_app, Hs1, Hs2.
  split; [reflexivity|]. split; [lia|congruence].
Qed.

#[global] Instance footprint_preorder : PreOrder (footprint 0).
Proof.
  split.
  - intros w. exists []. repeat split.
  - intros w1 w2 w3 H1 H2. apply (footprint_trans 0 0 w1 w2 w3 H1 H2).
Qed.

(** ** Computations that always return *)

Lemma runs_ret (R : World -> World -> Prop) `{!Reflexive R} {A} (a : A) :
  runs R (mret a).
Proof. intros w. exists a, w. split; reflexivity. Qed.

Lemma runs_get (R : World -> World -> Prop) `{!Reflexive R} : runs R get.
Proof. intros w. exists w, w. split; reflexivity. Qed.

Lemma runs_bind {A B} (n k : nat) (m : M A) (f : A -> M B) :
  runs (footprint n) m -> (forall a, runs (footprint k) (f a)) ->
  runs (footprint (n + k)) (m ≫= f).
Proof.
  intros Hm Hf w. destruct (Hm w) as (a & w1 & Hrun & H1).
  destruct (Hf a w1) as (b & w2 & Hrun2 & H2).
  exists b, w2. rewrite (bind_ret _ _ _ _ _ Hrun).
  split; [exact Hrun2|exact (footprint_trans _ _ _ _ _ H1 H2)].
Qed.

Lemma runs_bind0 {A B} (m : M A) (f : A -> M B) :
  runs (footprint 0) m -> (forall a, runs (footprint 0) (f a)) ->
  runs (footprint 0) (m ≫= f).
Proof. apply (runs_bind 0 0). Qed.

Lemma runs_sql (s : Stmt) :
  s <> SelectRandomToken -> runs (footprint 0) (sql s).
Proof.
  intros Hs w. rewrite sql_eq. eexists _, _. split; [reflexivity|].
  exists [Sql s (next_fault w)]. split; [reflexivity|].
  split; [reflexivity|]. split; [|reflexivity].
  destruct s; try reflexivity. congruence.
Qed.

Lemma runs_draw : runs (footprint 0) draw.
Proof.
  intros w. destruct (draw_eq w) as (r & _ & ->). eexists _, _.
  split; [reflexivity|]. exists [Rand]. repeat split.
Qed.

Lemma runs_modify (f : World -> World) :
  (forall w, log (f w) = log w /\ ctx_err (f w) = ctx_err w) ->
  runs (footprint 0) (modify f).
Proof.
  intros Hf w. exists tt, (f w). split; [reflexivity|].
  exists []. destruct (Hf w) as [Hl Hc]. repeat split; assumption.
Qed.

Lemma runs_GetEventInfo (token : string) (ids : list string) :
  runs (footprint 0) (GetEventInfo token ids).
Proof.
  intros w. unfold GetEventInfo. destruct (graph w) as [|reply rest];
    eexists _, _; (split; [reflexivity|]);
    exists [GraphAPI token ids]; repeat split.
Qed.

Create HintDb runs.

(** Splitting a [runs] goal along the structure of the program. *)
Ltac runs_step :=
  match goal with
  | |- runs _ _ => solve [auto 1 with runs nocore]
  | |- runs _ (mret _) => apply runs_ret; typeclasses eauto
  | |- runs _ get => apply runs_get; typeclasses eauto
  | |- runs (footprint 0) (_ ≫= _) => apply runs_bind0; [|intros]
  | |- runs (footprint 0) (sql _) => apply runs_sql; discriminate
  | |- runs (footprint 0) draw => apply runs_draw
  | |- runs (footprint 0) (modify _) =>
      apply runs_modify; intros ?; split; reflexivity
  | |- runs _ (match ?x with _ => _ end) => destruct x
  | |- runs _ (if ?b then _ else _) => destruct b
  end.
Ltac runs_auto := repeat runs_step.

Lemma runs_fetchEvents ids : runs (footprint 0) (fetchEvents ids).
Proof. unfold fetchEvents. runs_auto. Qed.
#[local] Hint Resolve runs_fetchEvents : runs.

Lemma runs_GetByID id : runs (footprint 0) (EventStore_GetByID id).
Proof. unfold EventStore_GetByID. runs_auto. Qed.
#[local] Hint Resolve runs_GetByID : runs.

Lemma runs_Save e : runs (footprint 0) (EventStore_Save e).
Proof. unfold EventStore_Save. runs_auto. Qed.
#[local] Hint Resolve runs_Save : runs.

Lemma runs_SetBad id b : runs (footprint 0) (EventStore_SetBad id b).
Proof. unfold EventStore_SetBad. runs_auto. Qed.
#[local] Hint Resolve runs_SetBad : runs.

Lemma runs_UserGetByID id : runs (footprint 0) (UserStore_GetByID id).
Proof. unfold UserStore_GetByID. runs_auto. Qed.
#[local] Hint Resolve runs_UserGetByID : runs.

Lemma runs_Update id u : runs (footprint 0) (UserStore_Update id u).
Proof. unfold UserStore_Update. runs_auto. Qed.
#[local] Hint Resolve runs_Update runs_GetEventInfo : runs.

Lemma runs_saveEvents op events : runs (footprint 0) (saveEvents op events).
Proof.
  induction events as [|e rest IH]; simpl; runs_auto.
Qed.
#[local] Hint Resolve runs_saveEvents : runs.

(** ** One attempt *)

(** The row [RandomFBToken] returns holds a token. *)
Lemma RandomFBToken_holder (w w1 : World) (id : UserID) (tok : string) :
  UserStore_RandomFBToken w = Ret (id, tok, None) w1 ->
  users w1 = users w
  /\ exists row, In row (users w) /\ hasToken row = true
                 /\ u_user_id row = id /\ u_facebook_token row = Some tok.
Proof.
  unfold UserStore_RandomFBToken. rewrite bind_eq, sql_eq, bind_eq. simpl.
  destruct (next_fault w) as [err|].
  { destruct (isNoRows err); discriminate. }
  destruct (List.filter hasToken (users w)) as [|r0 holders] eqn:Hh;
    [discriminate|].
  rewrite bind_eq. destruct (draw_eq (after_sql SelectRandomToken w))
    as (r & _ & ->).
  destruct ((r0 :: holders) !! _) as [row|] eqn:Hrow; [|discriminate].
  intros [= <- <- <-]. split; [reflexivity|].
  apply list_elem_of_lookup_2, list_elem_of_In in Hrow.
  rewrite <- Hh in Hrow. apply filter_In in Hrow as [Hin Htok].
  exists row. split; [exact Hin|]. split; [exact Htok|]. split; [reflexivity|].
  unfold hasToken in Htok. destruct (u_facebook_token row); [reflexivity|discriminate].
Qed.



(** ** The loop *)





(** ** EventSubmit *)

Lemma EventSubmit_anonymous (info : Info) (ids : list EventID) (w : World) :
  AuthID info = "" ->
  EventSubmit info ids w
  = Ret (Some (ErrDomain (mkError "" "Service.EventSubmit" Permission None))) w.
Proof.
  intros Ha. unfold EventSubmit. rewrite Ha.
  rewrite bool_decide_eq_true_2 by reflexivity. reflexivity.
Qed.

Lemma EventSubmit_oversized (info : Info) (ids : list EventID) (w : World) :
  AuthID info <> "" -> 50 < Z.of_nat (length ids) ->
  EventSubmit info ids w
  = Ret (Some (ErrDomain
                 (mkError (AuthID info) "Service.EventSubmit" Invalid
                    (Some (ErrString ("event list length ("
                                      ++ pretty (Z.of_nat (length ids))
                                      ++ ") > max (50)")))))) w.
Proof.
  intros Ha Hlen. unfold EventSubmit.
  rewrite bool_decide_eq_false_2 by exact Ha.
  apply Z.ltb_lt in Hlen. rewrite Hlen. reflexivity.
Qed.



(** ** An expired token *)

Lemma IsTokenExpired_oauth (fb : FBError) :
  FBType fb = "OAuthException" -> Code fb = 190 ->
  IsTokenExpired (Some (ErrFacebook fb)) = true.
Proof.
  intros Hty Hcode. unfold IsTokenExpired. rewrite Hty, Hcode. reflexivity.
Qed.

Lemma GetEventInfo_users token ids w reply w' :
  GetEventInfo token ids w = Ret reply w' ->
  users w' = users w /\ faults w' = faults w.
Proof.
  unfold GetEventInfo. destruct (graph w); intros [= <- <-]; split; reflexivity.
Qed.

Lemma UserStore_Update_token (fetcherID : UserID) (w : World) :
  next_fault w = None ->
  next_fault (after_sql UpsertUser w) = None ->
  (exists row, In row (users w) /\ u_user_id row = fetcherID) ->
  exists (user : User) (w' : World),
    UserStore_Update fetcherID (mkUserUpdate "" "" "" 0 "facebookToken") w
    = Ret (user, None) w'
    /\ users w' = map (expireToken fetcherID) (users w).
Proof.
  intros Hf1 Hf2 (row & Hin & Hid).
  unfold UserStore_Update. rewrite bind_eq, sql_eq, Hf1, bind_eq. simpl.
  assert (Hex : existsb (fun r => bool_decide (u_user_id r = fetcherID)) (users w)
                = true).
  { apply existsb_exists. exists row. split; [exact Hin|].
    now apply bool_decide_eq_true. }
  rewrite Hex. simpl. rewrite !bind_eq. simpl.
  rewrite bind_eq. unfold UserStore_GetByID. rewrite bind_eq, sql_eq.
  change (next_fault (set_users _ (after_sql UpsertUser w)))
    with (next_fault (after_sql UpsertUser w)).
  rewrite Hf2, bind_eq. simpl.
  destruct (List.filter _ _) as [|r rest] eqn:Hfilter.
  { exfalso.
    assert (Hin' : In (expireToken fetcherID row)
                     (List.filter (fun r => bool_decide (u_user_id r = fetcherID))
                        (map (expireToken fetcherID) (users w)))).
    { apply filter_In. split; [apply in_map, Hin|].
      apply bool_decide_eq_true. unfold expireToken.
      rewrite bool_decide_eq_true_2 by exact Hid. exact Hid. }
    unfold expireToken in Hin' at 2. rewrite Hfilter in Hin'. destruct Hin'. }
  eexists _, _. split; [reflexivity|]. reflexivity.
Qed.

(** C6 (as the code has it).  In an attempt of [EventSubmit] that got the
    token of the user [fetcherID] and to which the Graph API answered
    with an OAuthException of code 190, when the two statements of the
    update do not fail: the attempt returns a domain error for the
    operation Service.EventSubmit and the caller, with the text
    [facebook token expired] and no kind (Other, not Internal); the
    rows of [fetcherID] in [users] now hold the empty token and the other
    rows are as before; and from then on a successful [RandomFBToken]
    returns another user's token. *)
Theorem C6_expired_token_is_cleared :
  forall (userID : UserID) (ids : list EventID) (w w1 w2 : World)
         (fetcherID : UserID) (token : string) (events : list RawMessage)
         (fb : FBError),
    UserStore_RandomFBToken w = Ret (fetcherID, token, None) w1 ->
    GetEventInfo token ids w1 = Ret (events, Some (ErrFacebook fb)) w2 ->
    FBType fb = "OAuthException" -> Code fb = 190 ->
    next_fault w2 = None ->
    next_fault (after_sql UpsertUser w2) = None ->
    exists (x : Error) (w' : World),
      submitAttempt "Service.EventSubmit" userID ids w
      = Ret (Some (ErrDomain x)) w'
      /\ EKind x = Other /\ Op x = "Service.EventSubmit"
      /\ Errors.UserID x = userID
      /\ Err x = Some (ErrString "facebook token expired")
      /\ Is Internal (ErrDomain x) = false
      /\ users w' = map (expireToken fetcherID) (users w)
      /\ (forall r, In r (users w') ->
            (u_user_id r = fetcherID -> u_facebook_token r = Some "")
            /\ (u_user_id r <> fetcherID -> In r (users w)))
      /\ (forall (w3 w4 : World) (id : UserID) (tok : string),
            users w3 = users w' ->
            UserStore_RandomFBToken w3 = Ret (id, tok, None) w4 ->
            id <> fetcherID).
Proof.
  intros userID ids w w1 w2 fetcherID token events fb Hrand Hget Hty Hcode
    Hf1 Hf2.
  destruct (RandomFBToken_holder _ _ _ _ Hrand) as (Hu1 & row & Hin & _ & Hid & _).
  destruct (GetEventInfo_users _ _ _ _ _ Hget) as [Hu2 _].
  destruct (UserStore_Update_token fetcherID w2 Hf1 Hf2) as (user & w' & Hupd & Hu').
  { exists row. rewrite Hu2, Hu1. split; assumption. }
  assert (Hcleared : forall r, In r (users w') ->
            (u_user_id r = fetcherID -> u_facebook_token r = Some "")
            /\ (u_user_id r <> fetcherID -> In r (users w))).
  { intros r Hr. rewrite Hu', Hu2, Hu1 in Hr.
    apply in_map_iff in Hr as (r0 & <- & Hr0). unfold expireToken.
    case_bool_decide as Hr0id; split; simpl; intros H; try reflexivity;
      try contradiction; try exact Hr0. }
  eexists _, w'. split.
  { unfold submitAttempt. rewrite (bind_ret _ _ _ _ _ Hrand). cbv beta iota.
    rewrite (bind_ret _ _ _ _ _ Hget). cbv beta iota.
    rewrite (IsTokenExpired_oauth fb Hty Hcode).
    rewrite (bind_ret _ _ _ _ _ Hupd). reflexivity. }
  split; [reflexivity|]. split; [reflexivity|]. split; [reflexivity|].
  split; [reflexivity|]. split; [reflexivity|].
  split; [rewrite Hu', Hu2, Hu1; reflexivity|]. split; [exact Hcleared|].
  intros w3 w4 id tok Hu3 Hrand3 ->.
  destruct (RandomFBToken_holder _ _ _ _ Hrand3) as (_ & r & Hr & Htok & Hrid & _).
  rewrite Hu3 in Hr. destruct (Hcleared r Hr) as [Hempty _].
  unfold hasToken in Htok. rewrite (Hempty Hrid) in Htok. discriminate Htok.
Qed.

(** ** The guards of EventSubmit *)

(** C7 (as the code has it).  A call of [EventSubmit] by the anonymous
    actor fails with a domain error of kind Permission, whatever the size
    of the batch; a call by another actor with more than 50 identifiers
    fails with a domain error of kind Invalid that names the caller; both
    return in the world they were called in, so that no token was asked
    for and nothing was fetched. *)
Theorem C7_submit_guards :
  forall (info : Info) (ids : list EventID) (w : World),
    (AuthID info = "" ->
     exists x : Error,
       EventSubmit info ids w = Ret (Some (ErrDomain x)) w
       /\ EKind x = Permission /\ Is Permission (ErrDomain x) = true)
    /\ (AuthID info <> "" -> 50 < Z.of_nat (length ids) ->
        exists x : Error,
          EventSubmit info ids w = Ret (Some (ErrDomain x)) w
          /\ EKind x = Invalid /\ Is Invalid (ErrDomain x) = true
          /\ Errors.UserID x = AuthID info).
Proof.
  intros info ids w. split.
  - intros Ha. rewrite (EventSubmit_anonymous _ _ _ Ha).
    eexists. split; [reflexivity|]. split; reflexivity.
  - intros Ha Hlen. rewrite (EventSubmit_oversized _ _ _ Ha Hlen).
    eexists. split; [reflexivity|]. split; [reflexivity|].
    split; reflexivity.
Qed.

End SubmitFacts.

(* ===================================================================== *)
(** * DestGenerate on concrete worlds                                     *)
(* ===================================================================== *)

Module GenerateExamples.
Import Errors Eventdb World Pg Service Examples WorldFacts PgFacts GenerateFacts.

#[local] Open Scope Z_scope.
#[local] Existing Instance exGeo.

Lemma C1_witness_one_event :
  exists (row : DestRow) (erow : EventRow),
    dests (world_of (DestGenerate 33 exUser exRequest oneEvent))
    = row :: dests oneEvent
    /\ d_user_id row = resolveUser exUser exRequest
    /\ d_event_id row = ID (toEvent erow)
    /\ In erow (events oneEvent)
    /\ ~ In (ID (toEvent erow))
           (map d_event_id (historyPage (resolveUser exUser exRequest)
                              (dests oneEvent)))
    /\ clock oneEvent + 30 * Minute <= EndTime (toEvent erow).
Proof.
  assert (Hrun : DestGenerate 33 exUser exRequest oneEvent
                 = Ret (replyOf (DestGenerate 33 exUser exRequest oneEvent), None)
                     (world_of (DestGenerate 33 exUser exRequest oneEvent)))
    by (vm_compute; reflexivity).
  assert (Hok : Result (replyOf (DestGenerate 33 exUser exRequest oneEvent))
                = GenerateOK) by (vm_compute; reflexivity).
  exact (proj1 (C1_chosen_event_is_new_and_not_over 33 exUser exRequest
                  oneEvent _ _ Hrun Hok)).
Defined.

(** The user's oldest destination is event 2, which ends exactly at now
    + 30 minutes: the call chooses event 2 again. *)
Lemma C1_counterexample_old_event_ending_on_arrival :
  exists (reply : DestGenerateReply) (w' : World) (row : DestRow)
         (erow : EventRow),
    DestGenerate 33 exUser exRequest longHistory = Ret (reply, None) w'
    /\ Result reply = GenerateOK
    /\ dests w' = row :: dests longHistory
    /\ d_user_id row = "user"
    /\ In erow (events longHistory)
    /\ d_event_id row = ID (toEvent erow)
    /\ In (visit 1 (ID (toEvent erow))) (dests longHistory)
    /\ ~ (EndTime (toEvent erow) > clock longHistory + 30 * Minute).
Proof.
  eexists _, _, _, _. split; [vm_compute; reflexivity|].
  split; [reflexivity|]. split; [reflexivity|]. split; [reflexivity|].
  split; [left; reflexivity|]. split; [reflexivity|].
  split; [do 10 right; left; reflexivity|].
  vm_compute. intros H. discriminate H.
Qed.




Lemma C4_witness_far_away :
  exists w', nextEvent 40 (resolveUser exUser exRequest) exRequest farAway
             = Ret ("", GenerateNoResults, None) w'.
Proof.
  assert (Hfuel : (33 <= 40)%nat) by lia.
  pose proof (C4_search_terminates_with_no_results 40 exUser exRequest farAway
                Hfuel) as H.
  cbv zeta in H. destruct H as (_ & _ & _ & _ & H). apply H.
  - apply Forall_nil.
  - split; [apply NoDup_cons; [intros []|apply NoDup_nil]
           |apply Forall_cons; [reflexivity|apply Forall_nil]].
  - left. reflexivity.
  - intros erow [<-|[]] _. vm_compute. reflexivity.
Defined.

(** An event that starts 48 hours and 5 minutes from now, more than 48
    hours away, is found by the 32nd window and chosen. *)
Lemma C4_counterexample_just_beyond :
  (forall erow, In erow (events justBeyond) ->
                clock justBeyond + 48 * Hour
                < f_event_start_time (e_data erow))
  /\ exists (reply : DestGenerateReply) (w' : World),
      DestGenerate 33 exUser exRequest justBeyond = Ret (reply, None) w'
      /\ Result reply = GenerateOK
      /\ map ID (Events reply) = ["2"].
Proof.
  split.
  - intros erow [<-|[]]. vm_compute. reflexivity.
  - eexists _, _. split; [vm_compute; reflexivity|]. split; reflexivity.
Qed.

End GenerateExamples.

(* ===================================================================== *)
(** * EventSubmit on concrete worlds                                      *)
(* ===================================================================== *)

Module SubmitExamples.
Import Errors Eventdb World Pg Facebook Service Examples SubmitFacts.

#[local] Open Scope Z_scope.



Lemma C6_witness_alice_expired :
  exists (x : Error) (w' : World),
    submitAttempt "Service.EventSubmit" "user" ["1"] twoHolders
    = Ret (Some (ErrDomain x)) w'
    /\ EKind x = Other
    /\ users w' = map (expireToken "alice") (users twoHolders).
Proof.
  assert (Hrand : UserStore_RandomFBToken twoHolders
                  = Ret ("alice", "token-a", None)
                      (world_of (UserStore_RandomFBToken twoHolders)))
    by (vm_compute; reflexivity).
  assert (Hget : GetEventInfo "token-a" ["1"]
                   (world_of (UserStore_RandomFBToken twoHolders))
                 = Ret ([], Some (ErrFacebook expired))
                     (world_of (GetEventInfo "token-a" ["1"]
                                  (world_of (UserStore_RandomFBToken twoHolders)))))
    by (vm_compute; reflexivity).
  destruct (C6_expired_token_is_cleared "user" ["1"] twoHolders _ _ "alice"
              "token-a" [] expired Hrand Hget eq_refl eq_refl eq_refl eq_refl)
    as (x & w' & Hrun & Hk & _ & _ & _ & _ & Hu & _).
  exists x, w'. split; [exact Hrun|]. split; [exact Hk|exact Hu].
Defined.

(** The attempt that meets the expired token fails with an error that has
    no kind, not with an Internal one. *)
Lemma C6_counterexample_not_internal :
  exists (x : Error) (w' : World),
    submitAttempt "Service.EventSubmit" "user" ["1"] twoHolders
    = Ret (Some (ErrDomain x)) w'
    /\ In (GraphAPI "token-a" ["1"]) (log w')
    /\ map u_facebook_token (users w') = [Some ""; Some "token-b"]
    /\ EKind x <> Internal
    /\ Is Internal (ErrDomain x) = false.
Proof.
  eexists _, _. split; [vm_compute; reflexivity|].
  split; [right; right; left; reflexivity|]. split; [reflexivity|].
  split; [discriminate|reflexivity].
Qed.

Lemma C7_witness_fifty_one :
  exists x : Error,
    EventSubmit exUser fiftyOne twoHolders = Ret (Some (ErrDomain x)) twoHolders
    /\ EKind x = Invalid /\ Is Invalid (ErrDomain x) = true
    /\ Errors.UserID x = AuthID exUser.
Proof.
  apply (proj2 (C7_submit_guards exUser fiftyOne twoHolders)).
  - discriminate.
  - vm_compute. reflexivity.
Defined.

(** A batch of 51 identifiers submitted by the anonymous actor fails with
    kind Permission, not Invalid. *)
Lemma C7_counterexample_anonymous_fifty_one :
  exists x : Error,
    50 < Z.of_nat (length fiftyOne)
    /\ EventSubmit anonymous fiftyOne twoHolders
       = Ret (Some (ErrDomain x)) twoHolders
    /\ EKind x = Permission
    /\ Is Invalid (ErrDomain x) = false.
Proof.
  eexists. split; [vm_compute; reflexivity|].
  split; [vm_compute; reflexivity|]. split; reflexivity.
Qed.

End SubmitExamples.

(* ===================================================================== *)
(** * Properties of the messages, of Match and of the REST responses      *)
(* ===================================================================== *)

Module ErrorsTextFacts.
Import Errors ErrorsText.

#[local] Open Scope Z_scope.

(** Induction on an error along its chain of causes. *)
Lemma error_chain_ind (P : error -> Prop) :
  (forall l, P (ErrLeaf l)) ->
  (forall u o k, P (ErrDomain (mkError u o k None))) ->
  (forall u o k c, P c -> P (ErrDomain (mkError u o k (Some c)))) ->
  forall err, P err.
Proof.
  intros Hleaf Hnone Hsome. fix IH 1. intros [e|l]; [|apply Hleaf].
  destruct e as [u o k [c|]]; [apply Hsome, IH|apply Hnone].
Qed.

Lemma Is_Other (err : error) : Is Other err = false.
Proof.
  induction err as [l|u o k|u o k c IH] using error_chain_ind; simpl;
    try reflexivity; destruct k; simpl; try reflexivity; exact IH.
Qed.

(** X1.  [Is] names at most one kind for an error, and never [Other]. *)
Theorem Is_names_one_kind :
  forall (err : error) (k : Kind),
    Is k err = true ->
    k <> Other /\ forall k', Is k' err = true -> k' = k.
Proof.
  intros err k Hk. split.
  - intros ->. rewrite Is_Other in Hk. discriminate.
  - revert Hk. induction err as [l|u o k0|u o k0 c IH] using error_chain_ind;
      simpl; try discriminate.
    + case_bool_decide; [discriminate|]. intros H1 k' H2.
      apply bool_decide_eq_true in H1, H2. congruence.
    + case_bool_decide; [exact IH|]. intros H1 k' H2.
      apply bool_decide_eq_true in H1, H2. congruence.
Qed.

Section TextFacts.
Context `{Library}.

Lemma match_refl (err : error) :
  match err with
  | ErrDomain _ => match_ err (Some err) = true
  | ErrLeaf _ => True
  end.
Proof.
  induction err as [l|u o k|u o k c IH] using error_chain_ind; [exact I| |];
    simpl;
    rewrite (bool_decide_eq_true_2 (u = u) eq_refl),
      (bool_decide_eq_true_2 (o = o) eq_refl),
      (bool_decide_eq_true_2 (k = k) eq_refl), !andb_false_r; [reflexivity|].
  destruct c as [e|l]; [exact IH|]. now apply bool_decide_eq_true.
Qed.

(** X2.  [Match] holds between a domain error and itself, never when one side
    is not a domain error; and the template [E(kind)] matches exactly the
    domain errors whose own kind is [kind]. *)
Theorem Match_reflexive_and_by_kind :
  (forall e : Error, Match (Some (ErrDomain e)) (Some (ErrDomain e)) = true)
  /\ (forall err1 err2 : option error,
        Match err1 err2 = true ->
        exists e1 e2 : Error,
          err1 = Some (ErrDomain e1) /\ err2 = Some (ErrDomain e2))
  /\ (forall (k : Kind) (err2 : option error),
        k <> Other ->
        (Match (E [ArgKind k]) err2 = true <->
         exists e2 : Error, err2 = Some (ErrDomain e2) /\ EKind e2 = k)).
Proof.
  split; [|split].
  - intros e. exact (match_refl (ErrDomain e)).
  - intros [[e1|l1]|] [[e2|l2]|]; simpl; try discriminate; eauto.
  - intros k err2 Hk. simpl.
    destruct err2 as [[e2|l2]|]; simpl;
      [|split; [discriminate|intros (e & [=] & _)]
       |split; [discriminate|intros (e & [=] & _)]].
    rewrite (bool_decide_eq_false_2 _ Hk). simpl. split.
    + case_bool_decide as Hk2; [|discriminate]. eauto.
    + intros (e & [= <-] & ->). rewrite bool_decide_eq_true_2 by reflexivity.
      reflexivity.
Qed.

End TextFacts.

(** X3.  Wrapping a domain error without stating a kind (as [E(op, err)]
    does) keeps what the error is: the new error has the kind of its
    cause, [Is] answers for it as for the cause, and it maps to the same
    HTTP status. *)
Theorem E_without_kind_keeps_kind :
  forall (args : list arg) (e prev : Error),
    E_loop zeroError args = inl e ->
    EKind e = Other ->
    Err e = Some (ErrDomain prev) ->
    exists x : Error,
      E args = Some (ErrDomain x)
      /\ EKind x = EKind prev
      /\ (forall k, Is k (ErrDomain x) = Is k (ErrDomain prev))
      /\ errStatus (Some (ErrDomain x)) = errStatus (Some (ErrDomain prev)).
Proof.
  intros args e prev Hloop Hk Hcause.
  assert (Hne : args <> []).
  { intros ->. simpl in Hloop. injection Hloop as <-. discriminate. }
  destruct args as [|a rest]; [congruence|]. unfold E, E_of. rewrite Hloop.
  unfold suppress. rewrite Hcause.
  destruct e as [u o k c], prev as [pu po pk pc]. simpl in Hk, Hcause. subst k.
  eexists. split; [reflexivity|]. cbn [EKind UserID].
  rewrite (bool_decide_eq_true_2 (Other = Other) eq_refl).
  destruct (bool_decide (pu = u)); cbn [EKind setUserID setKind setErr];
    destruct (bool_decide (pk = Other)) eqn:Hpk;
    cbn [EKind setUserID setKind setErr];
    (split; [try reflexivity|split; [intros k0|]]);
    try (apply bool_decide_eq_true in Hpk; subst pk); try reflexivity;
    try (apply bool_decide_eq_false in Hpk; simpl;
         rewrite (bool_decide_eq_false_2 _ Hpk); reflexivity).
Qed.

Section ResponseFacts.
Context `{Library}.


(** X5.  The response shows the message of an error only when its kind is
    Invalid: two domain errors of the same kind other than Invalid get
    the same response, whatever their user, operation and cause; and an
    error that is no domain error gets the text of its status. *)
Theorem Response_hides_the_cause :
  (forall e1 e2 : Error,
     EKind e1 = EKind e2 -> EKind e1 <> Invalid ->
     ResponseForError (Some (ErrDomain e1)) = ResponseForError (Some (ErrDomain e2)))
  /\ (forall l : leaf,
        ResponseForError (Some (ErrLeaf l))
        = mkResponse (StatusText (errStatus (Some (ErrLeaf l))))
            (errStatus (Some (ErrLeaf l)))).
Proof.
  split.
  - intros e1 e2 Hk Hinv. unfold ResponseForError, errText, errStatus.
    rewrite <- Hk. destruct (EKind e1); try congruence; reflexivity.
  - intros l. reflexivity.
Qed.

(** ** Messages *)

Lemma pad_empty (str : string) : pad "" str = "".
Proof. reflexivity. Qed.

Lemma append_nonempty (a b : string) : a <> "" -> a ++ b <> "".
Proof. destruct a; [congruence|discriminate]. Qed.

Lemma append_assoc (a b c : string) : (a ++ b) ++ c = a ++ b ++ c.
Proof.
  induction a as [|x a IH]; [reflexivity|].
  change (String x ((a ++ b) ++ c) = String x (a ++ b ++ c)). now rewrite IH.
Qed.

Lemma append_nil_r (a : string) : a ++ "" = a.
Proof.
  induction a as [|x a IH]; [reflexivity|].
  change (String x (a ++ "") = String x a). now rewrite IH.
Qed.

Lemma Error_eq (e : Error) :
  Error_ (ErrDomain e)
  = let b := match Err e with
             | None => header e
             | Some (ErrDomain prev as inner) =>
                 if isZero prev then header e
                 else pad (header e) causeSep ++ Error_ inner
             | Some inner => pad (header e) ": " ++ Error_ inner
             end in
    if bool_decide (b = "") then "no error" else b.
Proof. destruct e as [u o k [[prev|l]|]]; reflexivity. Qed.

Lemma pad_prefix (o b s t : string) :
  o <> "" -> (exists rest, b = o ++ rest) -> exists rest, pad b s ++ t = o ++ rest.
Proof.
  intros Ho [rest ->]. unfold pad.
  rewrite bool_decide_eq_false_2 by (now apply append_nonempty).
  exists (rest ++ s ++ t). now rewrite !append_assoc.
Qed.

Lemma header_prefix (e : Error) :
  Op e <> "" -> exists rest, header e = Op e ++ rest.
Proof.
  intros Ho. unfold header. rewrite (bool_decide_eq_false_2 _ Ho).
  change (pad "" ": " ++ Op e) with (Op e).
  assert (H0 : exists rest, Op e = Op e ++ rest)
    by (exists ""; now rewrite append_nil_r).
  assert (H1 : exists rest,
             (if bool_decide (UserID e = "") then Op e
              else pad (Op e) ", " ++ "user " ++ UserID e) = Op e ++ rest)
    by (destruct (bool_decide (UserID e = "")); [exact H0|now apply pad_prefix]).
  cbv zeta. destruct (bool_decide (EKind e = Other)); [exact H1|].
  now apply pad_prefix.
Qed.

(** X6.  The message of a domain error is never empty; it starts with the
    operation when there is one; and a cause that is a [*Error] with no
    field set adds nothing to it. *)
Theorem Error_message_shape :
  (forall e : Error, Error_ (ErrDomain e) <> "")
  /\ (forall e : Error, Op e <> "" ->
        exists rest, Error_ (ErrDomain e) = Op e ++ rest)
  /\ (forall e : Error,
        Error_ (ErrDomain (setErr (Some (ErrDomain zeroError)) e))
        = Error_ (ErrDomain (setErr None e))).
Proof.
  split; [|split].
  - intros e. rewrite Error_eq. cbv zeta.
    case_bool_decide as Hb; [discriminate|exact Hb].
  - intros e Ho. rewrite Error_eq. cbv zeta.
    pose proof (header_prefix e Ho) as Hh.
    assert (Hb : exists rest,
               match Err e with
               | None => header e
               | Some (ErrDomain prev as inner) =>
                   if isZero prev then header e
                   else pad (header e) causeSep ++ Error_ inner
               | Some inner => pad (header e) ": " ++ Error_ inner
               end = Op e ++ rest).
    { destruct (Err e) as [[prev|l]|]; [destruct (isZero prev)| |];
        try exact Hh; now apply pad_prefix. }
    destruct Hb as [rest ->].
    rewrite bool_decide_eq_false_2 by (now apply append_nonempty). eauto.
  - intros [u o k c]. reflexivity.
Qed.

End ResponseFacts.

End ErrorsTextFacts.

(* ===================================================================== *)
(** * Properties of the stores                                            *)
(* ===================================================================== *)

Module StoreFacts.
Import Errors Eventdb World Pg PgUpdate PgViews WorldFacts PgFacts.

#[local] Open Scope Z_scope.
#[local] Arguments E_of : simpl never.
#[local] Arguments sql : simpl never.
#[local] Arguments draw : simpl never.
#[local] Arguments fetchEvents : simpl never.

(** ** Runs in which no statement fails *)

Lemma Forall_tl {A} (P : A -> Prop) (l : list A) : Forall P l -> Forall P (tl l).
Proof. intros Hl. destruct Hl; [constructor|assumption]. Qed.

(** Discharging [no_faults] of a world reached from one without faults. *)
Ltac nf :=
  unfold no_faults in *;
  cbn [faults after_sql add_log set_faults set_dests set_dest_seq set_events
       set_users set_user_seq set_rands set_graph set_ctx_err];
  repeat apply Forall_tl; assumption.

(** The next statement does not fail. *)
Ltac sql_ok :=
  rewrite ?bind_eq; rewrite sql_eq;
  match goal with
  | |- context [next_fault ?w] =>
      rewrite (no_faults_next w) by nf
  end.

(** X7.  [pgErr] turns [sql.ErrNoRows] into a NotExist error and a
    unique_violation into an Exist error, gives no kind to any other
    driver error, leaves domain errors as they are, and applying it twice
    is applying it once. *)
Theorem pgErr_classifies :
  (forall (l : leaf) (k : Kind),
     Is k (pgErr (ErrLeaf l)) = true <->
     (k = NotExist /\ l = LNoRows)
     \/ (k = Exist /\ exists msg, l = LPq "unique_violation" msg))
  /\ (forall e : Error, pgErr (ErrDomain e) = ErrDomain e)
  /\ (forall err : error, pgErr (pgErr err) = pgErr err).
Proof.
  split; [|split].
  - intros l k. destruct l as [s| | | |code msg|fe|msg]; simpl;
      try (split; [discriminate|intros [[_ [=]]|[_ [? [=]]]]]).
    + change (E_of (ArgKind NotExist) []) with (ErrDomain (mkError "" "" NotExist None)).
      destruct k; simpl; split; try discriminate; try tauto;
        intros [[Hk Hl]|[Hk [m Hl]]]; discriminate.
    + case_bool_decide as Hc.
      * subst code.
        change (E_of (ArgKind Exist) [ArgString msg])
          with (ErrDomain (mkError "" "" Exist (Some (ErrString msg)))).
        destruct k; simpl; split; try discriminate; eauto;
          intros [[Hk Hl]|[Hk [m Hl]]]; discriminate.
      * case_bool_decide as Hq;
          [change (E_of (ArgError ErrCanceled) [])
             with (ErrDomain (mkError "" "" Other (Some ErrCanceled)))|];
          simpl; (split; [discriminate|intros [[_ [=]]|[_ [? [=]]]]]);
          congruence.
  - intros e. reflexivity.
  - intros [e|l]; [reflexivity|].
    destruct l as [s| | | |code msg|fe|msg]; try reflexivity. simpl.
    case_bool_decide as Hc; [reflexivity|].
    case_bool_decide as Hq; [reflexivity|]. simpl.
    now rewrite (bool_decide_eq_false_2 _ Hc), (bool_decide_eq_false_2 _ Hq).
Qed.

(** ** DestStore *)

Lemma DestStore_list_eq (q : list DestRow -> error + list DestRow) (w : World) :
  no_faults w ->
  DestStore_list q w
  = Ret (match q (dests w) with
         | inl err => ([], Some (E_of (ArgError (pgErr err)) [ArgString "dest list"]))
         | inr rows => (map toDest rows, None)
         end) (after_sql SelectDests w).
Proof.
  intros Hnf. unfold DestStore_list. sql_ok. rewrite bind_eq. cbn [get].
  cbn [dests after_sql add_log set_faults]. destruct (q (dests w)); reflexivity.
Qed.



Lemma dests_after_sql (s : Stmt) (w : World) : dests (after_sql s w) = dests w.
Proof. reflexivity. Qed.

Lemma events_after_sql (s : Stmt) (w : World) : events (after_sql s w) = events w.
Proof. reflexivity. Qed.

Lemma filter_none {A} (f : A -> bool) (l : list A) :
  (forall x, In x l -> f x = false) -> List.filter f l = [].
Proof.
  induction l as [|x l IH]; intros Hl; [reflexivity|]. simpl.
  rewrite (Hl x) by now left. apply IH. intros y Hy. apply Hl. now right.
Qed.

Lemma DestStore_Get_eq (id : DestID) (w : World) :
  no_faults w ->
  DestStore_Get id w
  = Ret (match List.filter (fun r => bool_decide (d_id r = id)) (dests w) with
         | [] => (zeroDest,
                  Some (E_of (ArgKind NotExist) [ArgString "dest not found"]))
         | r :: _ => (toDest r, None)
         end) (after_sql SelectDests w).
Proof.
  intros Hnf. unfold DestStore_Get. rewrite bind_eq, (DestStore_list_eq _ w Hnf).
  destruct (List.filter _ (dests w)); reflexivity.
Qed.

(** X9.  [Create] and [Get] agree: when no statement fails and the identifier
    the sequence gives next is not in use, [Create] adds one row for the
    user and the event given, with the next number of the sequence as its
    identifier and no status or feedback, and returns it; a [Get] of that
    identifier afterwards returns the same dest, and a [Get] of any other
    identifier answers as it did before. *)
Theorem Create_then_Get :
  forall (dest : Dest) (w : World),
    no_faults w ->
    (forall r, In r (dests w) -> d_id r <> pretty (dest_seq w + 1)) ->
    exists (created : Dest) (w' : World),
      DestStore_Create dest w = Ret (created, None) w'
      /\ created = mkDest (pretty (dest_seq w + 1)) (DUserID dest) (DEventID dest)
                     None "" "" (db_now w)
      /\ dests w' = newRow dest w :: dests w
      /\ dest_seq w' = dest_seq w + 1
      /\ (exists w'', DestStore_Get (DID created) w' = Ret (created, None) w'')
      /\ (forall id, id <> DID created ->
            exists a w1 w2,
              DestStore_Get id w = Ret a w1 /\ DestStore_Get id w' = Ret a w2).
Proof.
  intros dest w Hnf Hfresh. unfold DestStore_Create.
  sql_ok. sql_ok. rewrite bind_eq. cbn [get]. rewrite bind_eq. cbn [modify].
  sql_ok. sql_ok. rewrite bind_eq. cbn [get]. rewrite bind_eq. cbn [modify].
  match goal with
  | |- context [DestStore_Get _ ?w0] => set (w1 := w0)
  end.
  assert (Hnf1 : no_faults w1) by (unfold w1; nf).
  assert (Hd1 : dests w1 = newRow dest w :: dests w) by reflexivity.
  assert (Hnew : List.filter (fun r => bool_decide (d_id r = pretty (dest_seq w + 1)))
                   (dests w1) = [newRow dest w]).
  { rewrite Hd1. cbn [List.filter newRow d_id].
    rewrite bool_decide_eq_true_2 by reflexivity. f_equal.
    apply filter_none. intros r Hr.
    apply bool_decide_eq_false_2. now apply Hfresh. }
  cbn [dest_seq after_sql add_log set_faults set_dest_seq] in *.
  rewrite (DestStore_Get_eq _ w1 Hnf1), Hnew.
  eexists _, _. split; [reflexivity|]. split; [reflexivity|].
  split; [reflexivity|]. split; [reflexivity|]. split.
  - cbn [DID toDest newRow d_id].
    assert (Hnf2 : no_faults (after_sql SelectDests w1)) by nf.
    rewrite (DestStore_Get_eq _ _ Hnf2).
    rewrite dests_after_sql, Hnew. eauto.
  - intros id Hid. cbn [DID toDest newRow d_id] in Hid.
    assert (Hnf2 : no_faults (after_sql SelectDests w1)) by nf.
    rewrite (DestStore_Get_eq _ w Hnf), (DestStore_Get_eq _ _ Hnf2).
    rewrite dests_after_sql, Hd1. cbn [List.filter newRow d_id].
    rewrite bool_decide_eq_false_2 by congruence. eauto.
Qed.

(** ** DestStore.Update *)

Lemma setColumn_keeps (update : DestUpdate) (r : DestRow) (field : string) :
  d_id (setColumn update r field) = d_id r
  /\ d_sequence (setColumn update r field) = d_sequence r
  /\ d_user_id (setColumn update r field) = d_user_id r
  /\ d_event_id (setColumn update r field) = d_event_id r
  /\ d_created_at (setColumn update r field) = d_created_at r.
Proof. unfold setColumn. repeat case_bool_decide; repeat split. Qed.

Lemma setColumn_feedback (update : DestUpdate) (r : DestRow) (field : string) :
  d_feedback (setColumn update r field)
  = if bool_decide (field = "feedback") then Some (DUFeedback update)
    else d_feedback r.
Proof. unfold setColumn. repeat case_bool_decide; reflexivity. Qed.

Lemma setColumn_status (update : DestUpdate) (r : DestRow) (field : string) :
  d_status (setColumn update r field)
  = if bool_decide (field = "status") then Some (DUStatus update)
    else d_status r.
Proof.
  unfold setColumn. repeat case_bool_decide; try reflexivity. congruence.
Qed.

Lemma fold_feedback (update : DestUpdate) (columns : list string) :
  forall r : DestRow,
    (In "feedback" columns \/ d_feedback r = Some (DUFeedback update) ->
     d_feedback (fold_left (setColumn update) columns r) = Some (DUFeedback update))
    /\ (~ In "feedback" columns ->
        d_feedback (fold_left (setColumn update) columns r) = d_feedback r).
Proof.
  induction columns as [|c columns IH]; intros r; cbn [fold_left].
  { split; [intros [[]|Hr]; exact Hr|reflexivity]. }
  destruct (IH (setColumn update r c)) as [IH1 IH2]. split.
  - intros Hin. apply IH1. rewrite setColumn_feedback.
    case_bool_decide as Hc; [now right|].
    destruct Hin as [[Hhd|Htl]|Hr]; [congruence|now left|now right].
  - intros Hn. rewrite IH2 by (intros Hin; apply Hn; now right).
    rewrite setColumn_feedback, bool_decide_eq_false_2; [reflexivity|].
    intros ->. apply Hn. now left.
Qed.

Lemma fold_status (update : DestUpdate) (columns : list string) :
  forall r : DestRow,
    (In "status" columns \/ d_status r = Some (DUStatus update) ->
     d_status (fold_left (setColumn update) columns r) = Some (DUStatus update))
    /\ (~ In "status" columns ->
        d_status (fold_left (setColumn update) columns r) = d_status r).
Proof.
  induction columns as [|c columns IH]; intros r; cbn [fold_left].
  { split; [intros [[]|Hr]; exact Hr|reflexivity]. }
  destruct (IH (setColumn update r c)) as [IH1 IH2]. split.
  - intros Hin. apply IH1. rewrite setColumn_status.
    case_bool_decide as Hc; [now right|].
    destruct Hin as [[Hhd|Htl]|Hr]; [congruence|now left|now right].
  - intros Hn. rewrite IH2 by (intros Hin; apply Hn; now right).
    rewrite setColumn_status, bool_decide_eq_false_2; [reflexivity|].
    intros ->. apply Hn. now left.
Qed.

Lemma fold_keeps (update : DestUpdate) (columns : list string) :
  forall r : DestRow,
    let r' := fold_left (setColumn update) columns r in
    d_id r' = d_id r /\ d_user_id r' = d_user_id r
    /\ d_event_id r' = d_event_id r /\ d_created_at r' = d_created_at r.
Proof.
  induction columns as [|c columns IH]; intros r; [repeat split|].
  cbn [fold_left]. cbv zeta in IH |- *.
  destruct (IH (setColumn update r c)) as (H1 & H2 & H3 & H4).
  destruct (setColumn_keeps update r c) as (K1 & _ & K2 & K3 & K4).
  rewrite H1, H2, H3, H4, K1, K2, K3, K4. repeat split.
Qed.

Lemma In_destColumns (field mask : string) :
  In field (destColumns mask) <->
  In field (splitComma mask) /\ (field = "feedback" \/ field = "status").
Proof.
  unfold destColumns. rewrite filter_In, orb_true_iff, !bool_decide_eq_true.
  reflexivity.
Qed.

(** X10.  [Update] writes the columns the mask names and no other: when no
    statement fails, the mask names [feedback] or [status], none of them
    twice, and the dest [id] is the row [row], the dest returned has the
    feedback of the update if the mask names [feedback] and the feedback
    of [row] otherwise, likewise for the status, and the identifier, user,
    event and date of [row]; the rows of other dests are as before.  A
    mask that names neither column, and one that names a column twice, is
    an error and changes nothing. *)
Theorem Update_writes_masked_columns :
  forall (id : DestID) (update : DestUpdate) (w : World),
    no_faults w ->
    let columns := destColumns (DUMask update) in
    (forall row : DestRow,
        In row (dests w) -> d_id row = id ->
        (forall r, In r (dests w) -> d_id r = id -> r = row) ->
        columns <> [] -> base.NoDup columns ->
        exists (d : Dest) (w' : World),
          DestStore_Update id update w = Ret (d, None) w'
          /\ DID d = id /\ DUserID d = d_user_id row
          /\ DEventID d = d_event_id row /\ CreatedAt d = d_created_at row
          /\ (In "feedback" (splitComma (DUMask update)) ->
              Feedback d = DUFeedback update)
          /\ (~ In "feedback" (splitComma (DUMask update)) ->
              Feedback d = default "" (d_feedback row))
          /\ (In "status" (splitComma (DUMask update)) ->
              Status d = DUStatus update)
          /\ (~ In "status" (splitComma (DUMask update)) ->
              Status d = default "" (d_status row))
          /\ length (dests w') = length (dests w)
          /\ (forall r, In r (dests w) -> d_id r <> id -> In r (dests w')))
    /\ (columns = [] \/ ~ base.NoDup columns ->
        exists (err : error) (w' : World),
          DestStore_Update id update w = Ret (zeroDest, Some err) w'
          /\ database w' = database w).
Proof.
  intros id update w Hnf columns. split.
  - intros row Hin Hid Huniq Hne Hnd. unfold DestStore_Update.
    fold columns. cbv zeta. sql_ok.
    destruct columns as [|c cs] eqn:Hcols; [congruence|].
    rewrite (bool_decide_eq_true_2 _ Hnd).
    rewrite bind_eq. cbn [get]. rewrite bind_eq. cbn [modify]. rewrite bind_eq.
    match goal with
    | |- context [DestStore_Get _ ?w0] => set (w1 := w0)
    end.
    assert (Hnf1 : no_faults w1) by (unfold w1; nf).
    set (upd := fun r : DestRow =>
                  if bool_decide (d_id r = id)
                  then fold_left (setColumn update) (c :: cs) r else r) in *.
    assert (Hd1 : dests w1 = map upd (dests w)) by reflexivity.
    destruct (fold_keeps update (c :: cs) row) as (F1 & F2 & F3 & F4).
    destruct (fold_feedback update (c :: cs) row) as (F5 & F6).
    destruct (fold_status update (c :: cs) row) as (F7 & F8).
    cbv zeta in F1, F2, F3, F4.
    assert (Hfilter : exists rest,
               List.filter (fun r => bool_decide (d_id r = id)) (dests w1)
               = upd row :: rest).
    { assert (Hin' : In (upd row)
                       (List.filter (fun r => bool_decide (d_id r = id)) (dests w1))).
      { apply filter_In. rewrite Hd1. split; [now apply in_map|].
        apply bool_decide_eq_true. unfold upd.
        rewrite (bool_decide_eq_true_2 _ Hid). now rewrite F1. }
      destruct (List.filter _ (dests w1)) as [|r0 rest] eqn:Hf; [destruct Hin'|].
      assert (Hr0 : In r0 (List.filter (fun r => bool_decide (d_id r = id))
                             (dests w1))) by (rewrite Hf; now left).
      apply filter_In in Hr0 as [Hr0 Hr0id]. apply bool_decide_eq_true in Hr0id.
      rewrite Hd1 in Hr0. apply in_map_iff in Hr0 as (r & <- & Hr).
      assert (Hrid : d_id r = id).
      { unfold upd in Hr0id. case_bool_decide as Hc; [exact Hc|exact Hr0id]. }
      rewrite (Huniq r Hr Hrid). eauto. }
    destruct Hfilter as [rest Hfilter].
    rewrite (DestStore_Get_eq _ w1 Hnf1), Hfilter.
    eexists _, _. split; [reflexivity|].
    unfold upd at 1 2 3 4 5 6 7 8. rewrite (bool_decide_eq_true_2 _ Hid).
    cbn [toDest DID DUserID DEventID CreatedAt Feedback Status].
    rewrite F1, F2, F3, F4.
    split; [exact Hid|]. split; [reflexivity|]. split; [reflexivity|].
    split; [reflexivity|].
    assert (Hcol : forall field, field = "feedback" \/ field = "status" ->
              (In field (c :: cs) <-> In field (splitComma (DUMask update)))).
    { intros field Hfield. rewrite <- Hcols. unfold columns.
      rewrite In_destColumns. tauto. }
    split; [intros Hi; rewrite F5; [reflexivity|left; apply Hcol; tauto]|].
    split; [intros Hi; rewrite F6; [reflexivity|rewrite Hcol; tauto]|].
    split; [intros Hi; rewrite F7; [reflexivity|left; apply Hcol; tauto]|].
    split; [intros Hi; rewrite F8; [reflexivity|rewrite Hcol; tauto]|].
    rewrite dests_after_sql, Hd1. split; [apply length_map|].
    intros r Hr Hrid. apply in_map_iff. exists r. split; [|exact Hr].
    unfold upd. now rewrite (bool_decide_eq_false_2 _ Hrid).
  - intros Hbad. unfold DestStore_Update. fold columns. cbv zeta. sql_ok.
    destruct columns as [|c cs] eqn:Hcols.
    + eexists _, _. split; [reflexivity|reflexivity].
    + destruct Hbad as [Hbad|Hbad]; [discriminate|].
      rewrite (bool_decide_eq_false_2 _ Hbad).
      eexists _, _. split; [reflexivity|reflexivity].
Qed.

(** ** EventStore *)

Lemma upsertEvent_other (data : EventData) (id : string) (rows : list EventRow) :
  id <> j_id data ->
  List.filter (fun r => bool_decide (e_id r = id)) (upsertEvent data rows)
  = List.filter (fun r => bool_decide (e_id r = id)) rows.
Proof.
  intros Hid. induction rows as [|r rows IH]; simpl.
  - rewrite bool_decide_eq_false_2 by congruence. reflexivity.
  - case_bool_decide as Hr; simpl.
    + rewrite Hr. rewrite !bool_decide_eq_false_2 by congruence. reflexivity.
    + rewrite IH. reflexivity.
Qed.

Lemma upsertEvent_same (data : EventData) (rows : list EventRow) :
  NoDup (map e_id rows) ->
  List.filter (fun r => bool_decide (e_id r = j_id data)) (upsertEvent data rows)
  = [mkEventRow (j_id data) data (oldFlag (j_id data) rows) (j_location data)].
Proof.
  intros Hnd. unfold oldFlag. induction rows as [|r rows IH]; simpl.
  - rewrite bool_decide_eq_true_2 by reflexivity. reflexivity.
  - inversion Hnd as [|? ? Hnotin Hnd']; subst.
    case_bool_decide as Hr; simpl.
    + rewrite (bool_decide_eq_true_2 _ Hr). rewrite Hr. f_equal.
      apply filter_none. intros x Hx. apply bool_decide_eq_false_2.
      intros Hxid. apply Hnotin. rewrite Hr, <- Hxid. now apply in_map.
    + rewrite (bool_decide_eq_false_2 _ Hr). now apply IH.
Qed.

Lemma sortByStart_one (e : Event) : sortByStart [e] = [e].
Proof. reflexivity. Qed.

Lemma fetched_one (id : EventID) (rows : list EventRow) :
  fetched [id] rows
  = sortByStart (map toEvent (List.filter (fun r => bool_decide (e_id r = id)) rows)).
Proof.
  unfold fetched. do 2 f_equal. apply List.filter_ext. intros r. simpl.
  apply orb_false_r.
Qed.

Lemma EventStore_GetByID_ok (id : EventID) (w : World) :
  no_faults w ->
  EventStore_GetByID id w
  = Ret (match fetched [id] (events w) with
         | [] => (zeroEvent, Some (E_of (ArgKind NotExist) []))
         | event :: _ => (event, None)
         end) (after_sql SelectEvents w).
Proof.
  intros Hnf. unfold EventStore_GetByID.
  rewrite bind_eq, fetchEvents_eq, (no_faults_next w Hnf).
  destruct (fetched [id] (events w)); reflexivity.
Qed.

(** X11.  [Save] and [GetByID] agree: when no statement fails and the ids of
    the table are unique, saving a document puts one row under the id of
    the document (the document replaced when the id was there, the flag
    of the old row kept) and leaves the other rows; it returns the event
    read from that row, with the fields of the document, an end time one
    hour after the start when the document has none, and the old flag; a
    [GetByID] of the id afterwards returns the same event, and a [GetByID]
    of any other id answers as before.  A document that cannot be parsed
    is an error, with no statement sent. *)
Theorem Save_then_GetByID :
  forall (data : EventData) (w : World),
    no_faults w ->
    events_wf (events w) ->
    exists (event : Event) (w' : World),
      EventStore_Save (Some data) w = Ret (event, None) w'
      /\ events w' = upsertEvent data (events w)
      /\ events_wf (events w')
      /\ event = toEvent (mkEventRow (j_id data) data
                            (oldFlag (j_id data) (events w)) (j_location data))
      /\ ID event = j_id data
      /\ StartTime event = j_start_time data
      /\ EndTime event = default (j_start_time data + Hour) (j_end_time data)
      /\ IsBad event = default false (oldFlag (j_id data) (events w))
      /\ (exists w'', EventStore_GetByID (j_id data) w' = Ret (event, None) w'')
      /\ (forall id, id <> j_id data ->
            exists a w1 w2,
              EventStore_GetByID id w = Ret a w1
              /\ EventStore_GetByID id w' = Ret a w2)
      /\ exists err, EventStore_Save None w = Ret (zeroEvent, Some err) w.
Proof.
  intros data w Hnf Hwf. unfold EventStore_Save. cbv zeta.
  sql_ok. sql_ok. sql_ok. sql_ok.
  rewrite bind_eq. cbn [get]. rewrite bind_eq. cbn [modify]. rewrite bind_eq.
  match goal with
  | |- context [EventStore_GetByID _ ?w0] => set (w1 := w0)
  end.
  assert (Hnf1 : no_faults w1) by (unfold w1; nf).
  assert (He1 : events w1 = upsertEvent data (events w)) by reflexivity.
  assert (Hget : fetched (@cons EventID (j_id data) []) (events w1)
                 = [toEvent (mkEventRow (j_id data) data
                               (oldFlag (j_id data) (events w)) (j_location data))]).
  { rewrite fetched_one, He1, (upsertEvent_same data _ (proj1 Hwf)). reflexivity. }
  rewrite (EventStore_GetByID_ok _ w1 Hnf1), Hget.
  exists (toEvent (mkEventRow (j_id data) data
                     (oldFlag (j_id data) (events w)) (j_location data))),
         (after_sql SelectEvents w1).
  split; [reflexivity|]. rewrite events_after_sql. split; [exact He1|].
  split; [rewrite He1; apply (upsertEvent_wf data _ Hwf)|]. split; [reflexivity|].
  split; [reflexivity|]. split; [reflexivity|]. split; [reflexivity|].
  split; [reflexivity|].
  assert (Hnf2 : no_faults (after_sql SelectEvents w1)) by nf.
  split; [|split].
  - rewrite (EventStore_GetByID_ok _ _ Hnf2).
    rewrite events_after_sql, Hget. eauto.
  - intros id Hid.
    rewrite (EventStore_GetByID_ok _ w Hnf), (EventStore_GetByID_ok _ _ Hnf2).
    rewrite events_after_sql, !fetched_one, He1, (upsertEvent_other data id _ Hid).
    eauto.
  - eauto.
Qed.

(** ** Search *)

Lemma insertByStart_sorted (e : Event) (l : list Event) :
  StronglySorted byStart l -> StronglySorted byStart (insertByStart e l).
Proof.
  induction 1 as [|x l Hl IH Hx]; simpl.
  - constructor; constructor.
  - destruct (StartTime e <? StartTime x) eqn:Hlt.
    + apply Z.ltb_lt in Hlt. constructor; [now constructor|].
      constructor; [unfold byStart; lia|].
      eapply Forall_impl; [|exact Hx]. unfold byStart. intros y Hy. lia.
    + apply Z.ltb_ge in Hlt. constructor; [exact IH|].
      apply Forall_forall. intros y Hy. apply In_insertByStart in Hy as [->|Hy].
      * exact Hlt.
      * exact (proj1 (Forall_forall _ _) Hx y Hy).
Qed.

Lemma sortByStart_sorted (l : list Event) : StronglySorted byStart (sortByStart l).
Proof.
  induction l as [|e l IH]; simpl; [constructor|now apply insertByStart_sorted].
Qed.

Lemma length_insertByStart (e : Event) (l : list Event) :
  length (insertByStart e l) = S (length l).
Proof.
  induction l as [|x l IH]; simpl; [reflexivity|].
  destruct (StartTime e <? StartTime x); simpl; [reflexivity|now rewrite IH].
Qed.

Lemma length_sortByStart (l : list Event) : length (sortByStart l) = length l.
Proof.
  induction l as [|e l IH]; simpl; [reflexivity|].
  now rewrite length_insertByStart, IH.
Qed.

Section SearchResults.
Context `{Geo}.

(** X12.  What [Search] returns when no statement fails and the ids of the
    table are unique: exactly the events of the rows that are in the
    region, have an address, meet the window, last less than ten hours
    and, unless bad events are asked for, are not flagged bad; in the
    order of their start times; and it changes no table. *)
Theorem Search_returns_the_matching_rows :
  forall (params : EventSearchRequest) (w : World),
    no_faults w ->
    events_wf (events w) ->
    exists (evs : list Event) (w' : World),
      EventStore_Search params w = Ret (evs, None) w'
      /\ database w' = database w
      /\ StronglySorted byStart evs
      /\ (forall ev,
            In ev evs <->
            exists r, In r (events w) /\ toEvent r = ev
                      /\ ST_Within (e_geom r) (Bounds params) = true
                      /\ is_Some (f_event_address (e_data r))
                      /\ tstzrange_overlap (f_event_start_time (e_data r))
                           (f_event_end_time (e_data r))
                           (Start params) (End_ params) = true
                      /\ f_event_duration (e_data r) < 10 * Hour
                      /\ (IncludeBad params = true \/ e_is_bad r <> Some true)).
Proof.
  intros params w Hnf Hwf. rewrite EventStore_Search_eq.
  rewrite (no_faults_next w Hnf). cbv zeta.
  rewrite (no_faults_next (after_sql (SearchEvents params) w)) by nf.
  eexists _, _. split; [reflexivity|]. split; [reflexivity|].
  split; [apply sortByStart_sorted|].
  intros ev. rewrite (In_fetched_matching ev (searchMatches params) _ Hwf).
  split.
  - intros (r & Hin & Hm & Hev). exists r. split; [exact Hin|]. split; [exact Hev|].
    unfold searchMatches in Hm. cbv zeta in Hm.
    rewrite !andb_true_iff, bool_decide_eq_true, Z.ltb_lt, orb_true_iff in Hm.
    destruct Hm as ((((Hg & Ha) & Ho) & Hd) & Hb).
    repeat (split; [assumption|]).
    destruct Hb as [Hb|Hb]; [now left|right].
    destruct (e_is_bad r) as [[|]|]; [discriminate|discriminate|discriminate].
  - intros (r & Hin & Hev & Hg & Ha & Ho & Hd & Hb). exists r.
    split; [exact Hin|]. split; [|exact Hev].
    unfold searchMatches. cbv zeta.
    rewrite !andb_true_iff, bool_decide_eq_true, Z.ltb_lt, orb_true_iff.
    repeat (split; [|try assumption]); try assumption.
    destruct Hb as [Hb|Hb]; [now left|right].
    destruct (e_is_bad r) as [[|]|]; [congruence|reflexivity|reflexivity].
Qed.

(** X13.  [SetBad] flags one event and a search then leaves it out: when no
    statement fails and the ids of the table are unique, after
    [SetBad id true] a search that does not ask for bad events returns no
    event with the id [id], whatever it returned before; the other rows
    are as they were; and for an id that is not in the table nothing
    changes and no error is reported. *)
Theorem SetBad_hides_from_Search :
  forall (id : EventID) (isBad : bool) (w : World),
    no_faults w ->
    events_wf (events w) ->
    exists w' : World,
      EventStore_SetBad id isBad w = Ret None w'
      /\ no_faults w'
      /\ events_wf (events w')
      /\ map e_id (events w') = map e_id (events w)
      /\ (forall r, In r (events w') ->
            (e_id r = id -> e_is_bad r = Some isBad)
            /\ (e_id r <> id -> In r (events w)))
      /\ (~ In id (map e_id (events w)) -> events w' = events w)
      /\ (isBad = true ->
          forall (params : EventSearchRequest) evs w'',
            IncludeBad params = false ->
            EventStore_Search params w' = Ret (evs, None) w'' ->
            forall ev, In ev evs -> ID ev <> id).
Proof.
  intros id isBad w Hnf [Hnd Hids]. unfold EventStore_SetBad.
  sql_ok. rewrite bind_eq. cbn [get]. rewrite bind_eq. cbn [modify].
  set (flag := fun r : EventRow =>
                 if bool_decide (e_id r = id)
                 then mkEventRow (e_id r) (e_data r) (Some isBad) (e_geom r)
                 else r).
  match goal with
  | |- context [mret None ?w0] => set (w1 := w0)
  end.
  assert (He1 : events w1 = map flag (events w)) by reflexivity.
  assert (Hnf1 : no_faults w1) by (unfold w1; nf).
  assert (Hflag_id : forall r, e_id (flag r) = e_id r)
    by (intros r; unfold flag; now case_bool_decide).
  assert (Hflag_data : forall r, e_data (flag r) = e_data r)
    by (intros r; unfold flag; now case_bool_decide).
  assert (Hmap : map e_id (events w1) = map e_id (events w)).
  { rewrite He1, map_map. apply map_ext. exact Hflag_id. }
  assert (Hwf1 : events_wf (events w1)).
  { split; [now rewrite Hmap|]. rewrite He1. apply Forall_map.
    eapply Forall_impl; [|exact Hids]. intros r Hr. simpl.
    now rewrite Hflag_id, Hflag_data. }
  assert (Hrows : forall r, In r (events w1) ->
            (e_id r = id -> e_is_bad r = Some isBad)
            /\ (e_id r <> id -> In r (events w))).
  { intros r Hr. rewrite He1 in Hr. apply in_map_iff in Hr as (r0 & <- & Hr0).
    unfold flag. case_bool_decide as Hc; simpl; split; intros Hx;
      try reflexivity; try contradiction; exact Hr0. }
  exists w1. split; [reflexivity|]. split; [exact Hnf1|]. split; [exact Hwf1|].
  split; [exact Hmap|]. split; [exact Hrows|]. split.
  - intros Hnot. rewrite He1. rewrite <- (map_id (events w)) at 2.
    apply map_ext_in. intros r Hr. unfold flag.
    rewrite bool_decide_eq_false_2; [reflexivity|].
    intros Hrid. apply Hnot. rewrite <- Hrid. now apply in_map.
  - intros -> params evs w'' Hinc Hrun ev Hev Hid.
    rewrite EventStore_Search_eq, (no_faults_next w1 Hnf1) in Hrun.
    cbv zeta in Hrun.
    rewrite (no_faults_next (after_sql (SearchEvents params) w1)) in Hrun by nf.
    injection Hrun as <- _.
    apply (In_fetched_matching ev (searchMatches params) _ Hwf1) in Hev
      as (r & Hr & Hm & <-).
    unfold searchMatches in Hm. cbv zeta in Hm.
    rewrite !andb_true_iff, Hinc in Hm. destruct Hm as (_ & Hb).
    destruct Hwf1 as [_ Hids1].
    assert (Hrid : e_id r = id)
      by (rewrite (proj1 (Forall_forall _ _) Hids1 r Hr); exact Hid).
    rewrite (proj1 (Hrows r Hr) Hrid) in Hb. discriminate Hb.
Qed.

End SearchResults.

(** ** UserStore *)








(** X15.  [RandomFBToken] returns the token of a user that holds one: when the
    statement does not fail and some user has a non-empty token, it
    returns such a user with its token; when no user has one, it fails
    with a NotExist error; it changes no table. *)
Theorem RandomFBToken_picks_a_holder :
  forall w : World,
    no_faults w ->
    (List.filter hasToken (users w) = [] ->
     exists (err : error) (w' : World),
       UserStore_RandomFBToken w = Ret ("", "", Some err) w'
       /\ Is NotExist err = true /\ database w' = database w)
    /\ (List.filter hasToken (users w) <> [] ->
        exists (row : UserRow) (token : string) (w' : World),
          UserStore_RandomFBToken w = Ret (u_user_id row, token, None) w'
          /\ In row (users w)
          /\ u_facebook_token row = Some token /\ token <> ""
          /\ database w' = database w).
Proof.
  intros w Hnf. unfold UserStore_RandomFBToken. sql_ok. rewrite bind_eq.
  cbn [get]. change (users (after_sql SelectRandomToken w)) with (users w).
  split.
  - intros ->. eexists _, _. split; [reflexivity|]. split; reflexivity.
  - intros Hne.
    destruct (List.filter hasToken (users w)) as [|r0 holders] eqn:Hh;
      [congruence|].
    rewrite bind_eq.
    destruct (draw_eq (after_sql SelectRandomToken w)) as (j & Hj & ->).
    destruct (lookup_lt_is_Some_2 (r0 :: holders)
                (Z.to_nat (j mod Z.of_nat (length (r0 :: holders)))))
      as [row Hrow].
    { assert (Hlen : 0 < Z.of_nat (length (r0 :: holders))) by (simpl; lia).
      pose proof (Z.mod_pos_bound j _ Hlen). lia. }
    rewrite Hrow.
    apply list_elem_of_lookup_2, list_elem_of_In in Hrow.
    rewrite <- Hh in Hrow. apply filter_In in Hrow as [Hin Htok].
    unfold hasToken in Htok.
    destruct (u_facebook_token row) as [token|] eqn:Ht; [|discriminate].
    exists row, token. eexists. split; [reflexivity|]. split; [exact Hin|].
    split; [exact Ht|]. split; [|reflexivity].
    intros ->. discriminate Htok.
Qed.

End StoreFacts.

(* ===================================================================== *)
(** * Properties of the other operations of the service                   *)
(* ===================================================================== *)

Module ServiceOpsFacts.
Import Errors Eventdb World Pg PgUpdate PgViews Facebook Service ServiceOps.
Import WorldFacts PgFacts StoreFacts.

#[local] Open Scope Z_scope.
#[local] Arguments sql : simpl never.
#[local] Arguments fetchEvents : simpl never.

(** ** EventSearch *)

Lemma length_append (a b : string) :
  String.length (a ++ b) = (String.length a + String.length b)%nat.
Proof.
  induction a as [|x a IH]; [reflexivity|].
  change (S (String.length (a ++ b)) = S (String.length a + String.length b)).
  now rewrite IH.
Qed.

Lemma length_substring (n : nat) : forall s : string,
  (n <= String.length s)%nat -> String.length (String.substring 0 n s) = n.
Proof.
  induction n as [|n IH]; intros s Hn.
  - destruct s; reflexivity.
  - destruct s as [|c s]; simpl in *; [lia|]. rewrite IH; [reflexivity|lia].
Qed.

Lemma truncate_length (desc : string) :
  (String.length (truncate desc) <= 100)%nat.
Proof.
  unfold truncate. destruct (100 <? Z.of_nat (String.length desc)) eqn:Hlen.
  - apply Z.ltb_lt in Hlen. rewrite length_append, length_substring by lia.
    simpl. lia.
  - apply Z.ltb_ge in Hlen. lia.
Qed.

Section SearchFacts.
Context `{Geo}.

(** X16.  [EventSearch] is for administrators and shortens the descriptions:
    for any other caller it fails with a Permission error and sends no
    statement; for an administrator, when it returns events, they are the
    events of the store's search, in the same order, each with a
    description of at most 100 bytes: unchanged when it had at most 100,
    and otherwise its first 97 bytes followed by the ellipsis; the other
    fields are those of the store. *)
Theorem EventSearch_shortens_descriptions :
  forall (info : Info) (req : EventSearchRequest) (w : World),
    (IsAdmin info = false ->
     exists err : error,
       EventSearch info req w = Ret ([], Some err) w
       /\ Is Permission err = true)
    /\ (IsAdmin info = true ->
        forall (evs : list Event) (w' : World),
          EventSearch info req w = Ret (evs, None) w' ->
          exists stored : list Event,
            EventStore_Search req w = Ret (stored, None) w'
            /\ Forall2 (fun ev st =>
                 ev = setDescription (Description ev) st
                 /\ (String.length (Description ev) <= 100)%nat
                 /\ ((String.length (Description st) <= 100)%nat -> ev = st)
                 /\ ((100 < String.length (Description st))%nat ->
                     Description ev
                     = String.substring 0 97 (Description st) ++ ellipsis))
                 evs stored).
Proof.
  intros info req w. split.
  - intros Hadmin. unfold EventSearch. rewrite Hadmin. eexists.
    split; reflexivity.
  - intros Hadmin evs w' Hrun. unfold EventSearch in Hrun.
    rewrite Hadmin in Hrun. cbn [negb] in Hrun. rewrite bind_eq in Hrun.
    destruct (EventStore_Search req w) as [[stored [e|]] w1|msg w1|w1];
      try discriminate.
    injection Hrun as <- <-. exists stored. split; [reflexivity|].
    induction stored as [|st stored IH]; [constructor|].
    cbn [map]. constructor; [|exact IH].
    cbn [setDescription Description]. split; [reflexivity|].
    split; [apply truncate_length|]. unfold truncate. split.
    + intros Hlen. assert (Hz : (100 <? Z.of_nat (String.length (Description st)))
                                = false) by (apply Z.ltb_ge; lia).
      rewrite Hz. now destruct st.
    + intros Hlen. assert (Hz : (100 <? Z.of_nat (String.length (Description st)))
                                = true) by (apply Z.ltb_lt; lia).
      now rewrite Hz.
Qed.

End SearchFacts.

(** ** EventGet *)

Lemma filter_unique (row : EventRow) (rows : list EventRow) :
  NoDup (map e_id rows) -> In row rows ->
  List.filter (fun r => bool_decide (e_id r = e_id row)) rows = [row].
Proof.
  induction rows as [|r rows IH]; intros Hnd Hin; [destruct Hin|].
  inversion Hnd as [|? ? Hnotin Hnd']; subst. cbn [List.filter].
  destruct Hin as [->|Hin].
  - rewrite bool_decide_eq_true_2 by reflexivity. f_equal.
    apply filter_none. intros x Hx. apply bool_decide_eq_false_2.
    intros Hxid. apply Hnotin. rewrite <- Hxid. now apply in_map.
  - rewrite bool_decide_eq_false_2; [now apply IH|].
    intros Hr. apply Hnotin. rewrite Hr. now apply in_map.
Qed.

(** X17.  [EventGet] reports every failure as an internal error: when no
    statement fails and the ids of the table are unique, an id that is
    not in the table gives an error that [Is] Internal and not NotExist,
    and the id of a row gives the event of that row and no error. *)
Theorem EventGet_missing_is_internal :
  forall (id : EventID) (w : World),
    no_faults w ->
    events_wf (events w) ->
    (~ In id (map e_id (events w)) ->
     exists (err : error) (w' : World),
       EventGet id w = Ret (zeroEvent, Some err) w'
       /\ Is Internal err = true /\ Is NotExist err = false)
    /\ (forall row : EventRow,
          In row (events w) -> e_id row = id ->
          exists w', EventGet id w = Ret (toEvent row, None) w').
Proof.
  intros id w Hnf [Hnd _]. split.
  - intros Hnot. unfold EventGet. cbv zeta.
    rewrite bind_eq, (EventStore_GetByID_ok _ w Hnf), fetched_one.
    rewrite filter_none.
    + eexists _, _. split; [reflexivity|]. split; reflexivity.
    + intros r Hr. apply bool_decide_eq_false_2. intros Hrid. apply Hnot.
      rewrite <- Hrid. now apply in_map.
  - intros row Hin <-. unfold EventGet. cbv zeta.
    rewrite bind_eq, (EventStore_GetByID_ok _ w Hnf), fetched_one.
    rewrite (filter_unique row _ Hnd Hin). eexists. reflexivity.
Qed.

(** ** DestUpdate and DestGet *)

Lemma filter_unique_dest (row : DestRow) (rows : list DestRow) :
  NoDup (map d_id rows) -> In row rows ->
  List.filter (fun r => bool_decide (d_id r = d_id row)) rows = [row].
Proof.
  induction rows as [|r rows IH]; intros Hnd Hin; [destruct Hin|].
  inversion Hnd as [|? ? Hnotin Hnd']; subst. cbn [List.filter].
  destruct Hin as [->|Hin].
  - rewrite bool_decide_eq_true_2 by reflexivity. f_equal.
    apply filter_none. intros x Hx. apply bool_decide_eq_false_2.
    intros Hxid. apply Hnotin. rewrite <- Hxid. now apply in_map.
  - rewrite bool_decide_eq_false_2; [now apply IH|].
    intros Hr. apply Hnotin. rewrite Hr. now apply in_map.
Qed.

(** X18.  Only the owner of a dest and an administrator can update it: when
    no statement fails and the ids of [dests] are unique, [DestUpdate] of
    the dest of another user by a caller who is no administrator fails
    with a Permission error after the one SELECT of the dest, with every
    table as it was; for the owner and for an administrator it is the
    store's [Update] run after that SELECT; and for an id that is not in
    the table it fails with the store's NotExist error. *)
Theorem DestUpdate_is_for_the_owner :
  forall (info : Info) (update : DestUpdate) (w : World) (row : DestRow),
    no_faults w ->
    NoDup (map d_id (dests w)) ->
    In row (dests w) ->
    (IsAdmin info = false -> AuthID info <> d_user_id row ->
     exists err : error,
       Service_DestUpdate info (d_id row) update w
       = Ret (toDest row, Some err) (after_sql SelectDests w)
       /\ Is Permission err = true
       /\ database (after_sql SelectDests w) = database w
       /\ log (after_sql SelectDests w) = Sql SelectDests None :: log w)
    /\ (IsAdmin info = true \/ AuthID info = d_user_id row ->
        forall d w',
          DestStore_Update (d_id row) update (after_sql SelectDests w)
          = Ret (d, None) w' ->
          Service_DestUpdate info (d_id row) update w = Ret (d, None) w')
    /\ (forall id, ~ In id (map d_id (dests w)) ->
          exists err : error,
            Service_DestUpdate info id update w
            = Ret (zeroDest, Some err) (after_sql SelectDests w)
            /\ Is NotExist err = true).
Proof.
  intros info update w row Hnf Hnd Hin.
  assert (Hget : DestStore_Get (d_id row) w
                 = Ret (toDest row, None) (after_sql SelectDests w)).
  { rewrite (DestStore_Get_eq _ w Hnf), (filter_unique_dest row _ Hnd Hin).
    reflexivity. }
  split; [|split].
  - intros Hadmin Howner. unfold Service_DestUpdate. cbv zeta.
    rewrite bind_eq, Hget. cbn [toDest DUserID]. rewrite Hadmin.
    rewrite (bool_decide_eq_false_2 _ Howner). cbn [negb andb].
    eexists. split; [reflexivity|]. split; [reflexivity|].
    split; [reflexivity|]. unfold after_sql. cbn [log add_log set_faults].
    now rewrite (no_faults_next w Hnf).
  - intros Hok d w' Hupd. unfold Service_DestUpdate. cbv zeta.
    rewrite bind_eq, Hget. cbn [toDest DUserID].
    assert (Hcheck : negb (IsAdmin info)
                     && negb (bool_decide (AuthID info = d_user_id row)) = false).
    { destruct Hok as [->| ->]; [reflexivity|].
      rewrite bool_decide_eq_true_2 by reflexivity. apply andb_false_r. }
    rewrite Hcheck, bind_eq, Hupd. reflexivity.
  - intros id Hnot. unfold Service_DestUpdate. cbv zeta.
    rewrite bind_eq, (DestStore_Get_eq _ w Hnf), filter_none.
    + eexists. split; reflexivity.
    + intros r Hr. apply bool_decide_eq_false_2. intros Hrid. apply Hnot.
      rewrite <- Hrid. now apply in_map.
Qed.

(** X19.  [DestGet] shows a dest to its owner and to an administrator, with
    its event when the store has it: when no statement fails and the ids
    of both tables are unique, another caller gets a Permission error; the
    owner and an administrator get the dest with the event of its row
    when the event is in the table and with no event, and no error, when
    it is not. *)
Theorem DestGet_loads_the_event :
  forall (info : Info) (w : World) (row : DestRow),
    no_faults w ->
    NoDup (map d_id (dests w)) ->
    events_wf (events w) ->
    In row (dests w) ->
    (IsAdmin info = false -> AuthID info <> d_user_id row ->
     exists (err : error) (w' : World),
       DestGet info (d_id row) w = Ret (toDest row, Some err) w'
       /\ Is Permission err = true /\ database w' = database w)
    /\ (IsAdmin info = true \/ AuthID info = d_user_id row ->
        (forall erow : EventRow,
            In erow (events w) -> e_id erow = d_event_id row ->
            exists w',
              DestGet info (d_id row) w
              = Ret (setEvent (Some (toEvent erow)) (toDest row), None) w')
        /\ (~ In (d_event_id row) (map e_id (events w)) ->
            exists w', DestGet info (d_id row) w = Ret (toDest row, None) w')).
Proof.
  intros info w row Hnf Hnd [Hend _] Hin.
  assert (Hget : DestStore_Get (d_id row) w
                 = Ret (toDest row, None) (after_sql SelectDests w)).
  { rewrite (DestStore_Get_eq _ w Hnf), (filter_unique_dest row _ Hnd Hin).
    reflexivity. }
  assert (Hnf1 : no_faults (after_sql SelectDests w)) by nf.
  split.
  - intros Hadmin Howner. unfold DestGet. cbv zeta.
    rewrite bind_eq, Hget. cbn [toDest DUserID]. rewrite Hadmin.
    rewrite (bool_decide_eq_false_2 _ Howner). cbn [negb andb].
    eexists _, _. split; [reflexivity|]. split; reflexivity.
  - intros Hok.
    assert (Hcheck : negb (IsAdmin info)
                     && negb (bool_decide (AuthID info = d_user_id row)) = false).
    { destruct Hok as [->| ->]; [reflexivity|].
      rewrite bool_decide_eq_true_2 by reflexivity. apply andb_false_r. }
    split.
    + intros erow Herow Heid. unfold DestGet. cbv zeta.
      rewrite bind_eq, Hget. cbn [toDest DUserID DEventID].
      rewrite Hcheck, bind_eq, (EventStore_GetByID_ok _ _ Hnf1), fetched_one.
      rewrite events_after_sql, <- Heid, (filter_unique erow _ Hend Herow).
      eexists. reflexivity.
    + intros Hnot. unfold DestGet. cbv zeta.
      rewrite bind_eq, Hget. cbn [toDest DUserID DEventID].
      rewrite Hcheck, bind_eq, (EventStore_GetByID_ok _ _ Hnf1), fetched_one.
      rewrite events_after_sql, filter_none.
      * eexists. reflexivity.
      * intros r Hr. apply bool_decide_eq_false_2. intros Hrid. apply Hnot.
        rewrite <- Hrid. now apply in_map.
Qed.

(** ** UserUpdate and UserGet *)

Lemma suppress_kind (e : Error) :
  EKind e <> Other -> EKind (suppress e) = EKind e.
Proof.
  intros Hk. unfold suppress. destruct (Err e) as [[prev|l]|]; try reflexivity.
  cbv zeta. now rewrite (bool_decide_eq_false_2 _ Hk).
Qed.

Lemma Is_wrapped (op text : string) (k k' : Kind) (cause : error) :
  k <> Other ->
  Is k' (E_of (ArgOp op) [ArgKind k; ArgString text; ArgError cause])
  = bool_decide (k = k').
Proof.
  intros Hk. unfold E_of. cbn [E_loop].
  set (e := setErr _ _).
  assert (He : EKind e = k) by reflexivity.
  cbn [Is]. rewrite suppress_kind by (rewrite He; exact Hk).
  rewrite He. now rewrite (bool_decide_eq_false_2 _ Hk).
Qed.

(** X20.  A caller reaches only its own user record, under the name [me]: for
    any other id, [UserUpdate] and [UserGet] fail with a Permission
    error, for an administrator too, and send no statement; for [me] they
    are the store's [Update] and [GetByID] of the caller's id, whose
    failures come back as Permission errors from [UserUpdate] and as
    Internal errors from [UserGet]. *)
Theorem User_operations_reach_only_me :
  forall (info : Info) (id : UserID) (update : Eventdb.UserUpdate) (w : World),
    (id <> "me" ->
     (exists err, UserUpdate info id update w = Ret (None, Some err) w
                  /\ Is Permission err = true)
     /\ (exists err, UserGet info id w = Ret (zeroUser, Some err) w
                     /\ Is Permission err = true))
    /\ (id = "me" ->
        (forall user w',
            UserStore_Update (AuthID info) update w = Ret (user, None) w' ->
            UserUpdate info id update w = Ret (Some user, None) w')
        /\ (forall user e w',
              UserStore_Update (AuthID info) update w = Ret (user, Some e) w' ->
              exists err, UserUpdate info id update w = Ret (None, Some err) w'
                          /\ Is Permission err = true)
        /\ (forall user w',
              UserStore_GetByID (AuthID info) w = Ret (user, None) w' ->
              UserGet info id w = Ret (user, None) w')
        /\ (forall user e w',
              UserStore_GetByID (AuthID info) w = Ret (user, Some e) w' ->
              exists err, UserGet info id w = Ret (user, Some err) w'
                          /\ Is Internal err = true)).
Proof.
  intros info id update w. split.
  - intros Hid. unfold UserUpdate, UserGet. cbv zeta.
    rewrite (bool_decide_eq_false_2 _ Hid). cbn [negb].
    split; eexists; split; reflexivity.
  - intros ->. unfold UserUpdate, UserGet. cbv zeta.
    rewrite (bool_decide_eq_true_2 ("me" = "me") eq_refl). cbn [negb].
    split; [|split; [|split]].
    + intros user w' Hrun. now rewrite bind_eq, Hrun.
    + intros user e w' Hrun. rewrite bind_eq, Hrun. eexists.
      split; [reflexivity|]. now rewrite Is_wrapped.
    + intros user w' Hrun. now rewrite bind_eq, Hrun.
    + intros user e w' Hrun. rewrite bind_eq, Hrun. eexists.
      split; [reflexivity|]. now rewrite Is_wrapped.
Qed.

(** ** DestList *)

Lemma sideLoad_fields (events : list Event) (dest : Dest) :
  setEvent None (sideLoad events dest) = setEvent None dest
  /\ DUserID (sideLoad events dest) = DUserID dest
  /\ DEventID (sideLoad events dest) = DEventID dest.
Proof.
  unfold sideLoad. destruct (find _ events); repeat split; reflexivity.
Qed.


(** ** The loop of EventSubmit over the documents *)

Lemma EventStore_Save_ok (data : EventData) (w : World) :
  no_faults w ->
  events_wf (events w) ->
  exists w1 : World,
    EventStore_Save (Some data) w
    = Ret (toEvent (mkEventRow (j_id data) data
                      (oldFlag (j_id data) (events w)) (j_location data)), None) w1
    /\ no_faults w1
    /\ events w1 = upsertEvent data (events w)
    /\ dests w1 = dests w /\ users w1 = users w.
Proof.
  intros Hnf Hwf. unfold EventStore_Save. cbv zeta.
  sql_ok. sql_ok. sql_ok. sql_ok.
  rewrite bind_eq. cbn [get]. rewrite bind_eq. cbn [modify]. rewrite bind_eq.
  match goal with
  | |- context [EventStore_GetByID _ ?w0] => set (w1 := w0)
  end.
  assert (Hnf1 : no_faults w1) by (unfold w1; nf).
  assert (He1 : events w1 = upsertEvent data (events w)) by reflexivity.
  rewrite (EventStore_GetByID_ok _ w1 Hnf1), fetched_one, He1.
  rewrite (upsertEvent_same data _ (proj1 Hwf)).
  exists (after_sql SelectEvents w1). split; [reflexivity|]. split; [nf|].
  split; [rewrite events_after_sql; exact He1|]. split; reflexivity.
Qed.

Lemma EventStore_SetBad_ok (id : EventID) (isBad : bool) (w : World) :
  no_faults w ->
  exists w1 : World,
    EventStore_SetBad id isBad w = Ret None w1
    /\ no_faults w1
    /\ events w1
       = map (fun r => if bool_decide (e_id r = id)
                       then mkEventRow (e_id r) (e_data r) (Some isBad) (e_geom r)
                       else r) (events w)
    /\ dests w1 = dests w /\ users w1 = users w.
Proof.
  intros Hnf. unfold EventStore_SetBad.
  sql_ok. rewrite bind_eq. cbn [get]. rewrite bind_eq. cbn [modify].
  eexists. split; [reflexivity|]. split; [nf|]. repeat split.
Qed.

Lemma In_upsertEvent (data : EventData) (r : EventRow) (rows : list EventRow) :
  NoDup (map e_id rows) ->
  In r (upsertEvent data rows) ->
  (e_id r = j_id data ->
   r = mkEventRow (j_id data) data (oldFlag (j_id data) rows) (j_location data))
  /\ (e_id r <> j_id data -> In r rows).
Proof.
  intros Hnd Hin. split; intros Hid.
  - assert (Hf : In r (List.filter (fun x => bool_decide (e_id x = j_id data))
                         (upsertEvent data rows))).
    { apply filter_In. split; [exact Hin|]. now apply bool_decide_eq_true. }
    rewrite (upsertEvent_same data rows Hnd) in Hf.
    destruct Hf as [<-|[]]. reflexivity.
  - assert (Hf : In r (List.filter (fun x => bool_decide (e_id x = e_id r))
                         (upsertEvent data rows))).
    { apply filter_In. split; [exact Hin|]. now apply bool_decide_eq_true. }
    rewrite (upsertEvent_other data (e_id r) rows Hid) in Hf.
    now apply filter_In in Hf as [Hf _].
Qed.

(** One turn of the loop on a document that parses. *)
Lemma saveEvents_step (op : string) (data : EventData) (w : World) :
  no_faults w ->
  events_wf (events w) ->
  exists w1 : World,
    (forall rest, saveEvents op (Some data :: rest) w = saveEvents op rest w1)
    /\ no_faults w1
    /\ events_wf (events w1)
    /\ dests w1 = dests w /\ users w1 = users w
    /\ (forall id, In id (map e_id (events w1)) <->
                   id = j_id data \/ In id (map e_id (events w)))
    /\ (forall r, In r (events w1) ->
          (e_id r = j_id data ->
           e_data r = data /\ e_is_bad r = Some (IsBadEvent (toEvent r)))
          /\ (e_id r <> j_id data -> In r (events w))).
Proof.
  intros Hnf Hwf.
  destruct (EventStore_Save_ok data w Hnf Hwf)
    as (w1 & Hsave & Hnf1 & He1 & Hd1 & Hu1).
  set (event := toEvent (mkEventRow (j_id data) data
                           (oldFlag (j_id data) (events w)) (j_location data))) in *.
  destruct (EventStore_SetBad_ok (ID event) (IsBadEvent event) w1 Hnf1)
    as (w2 & Hbad & Hnf2 & He2 & Hd2 & Hu2).
  set (flag := fun r : EventRow =>
                 if bool_decide (e_id r = ID event)
                 then mkEventRow (e_id r) (e_data r) (Some (IsBadEvent event))
                        (e_geom r)
                 else r) in *.
  assert (Hflag_id : forall r, e_id (flag r) = e_id r)
    by (intros r; unfold flag; now case_bool_decide).
  assert (Hflag_data : forall r, e_data (flag r) = e_data r)
    by (intros r; unfold flag; now case_bool_decide).
  assert (Hmap : map e_id (events w2) = map e_id (upsertEvent data (events w))).
  { rewrite He2, He1, map_map. apply map_ext. exact Hflag_id. }
  pose proof (upsertEvent_wf data _ Hwf) as [Hnd' Hids'].
  exists w2. split.
  { intros rest. cbn [saveEvents]. rewrite bind_eq, Hsave, bind_eq, Hbad.
    reflexivity. }
  split; [exact Hnf2|]. split.
  { split; [now rewrite Hmap|]. rewrite He2, He1. apply Forall_map.
    eapply Forall_impl; [|exact Hids']. intros r Hr. simpl.
    now rewrite Hflag_id, Hflag_data. }
  split; [congruence|]. split; [congruence|]. split.
  { intros id. rewrite Hmap. apply upsertEvent_ids. }
  intros r Hr. rewrite He2, He1 in Hr.
  apply in_map_iff in Hr as (r0 & <- & Hr0).
  destruct (In_upsertEvent data r0 _ (proj1 Hwf) Hr0) as [Hsame Hother].
  rewrite Hflag_id. split; intros Hid.
  - rewrite (Hsame Hid). unfold flag. cbn [e_id].
    rewrite (bool_decide_eq_true_2 (j_id data = ID event) eq_refl).
    cbn [e_data e_is_bad]. split; [reflexivity|]. apply (f_equal Some).
    apply ClassifierFacts.IsBadEvent_ext; reflexivity.
  - unfold flag. rewrite bool_decide_eq_false_2 by exact Hid.
    exact (Hother Hid).
Qed.

(** The loop over documents, all saved and classified. *)
Lemma saveEvents_ok :
  forall (op : string) (docs : list EventData) (w : World),
    no_faults w ->
    events_wf (events w) ->
    exists w' : World,
      saveEvents op (map Some docs) w = Ret None w'
      /\ no_faults w'
      /\ events_wf (events w')
      /\ dests w' = dests w /\ users w' = users w
      /\ (forall id, In id (map e_id (events w')) <->
                     In id (map j_id docs) \/ In id (map e_id (events w)))
      /\ (forall r, In r (events w') ->
            (In (e_id r) (map j_id docs) ->
             In (e_data r) docs
             /\ e_is_bad r = Some (IsBadEvent (toEvent r)))
            /\ (~ In (e_id r) (map j_id docs) -> In r (events w)))
      /\ (forall more : list RawMessage,
          exists err : error,
            saveEvents op (map Some docs ++ None :: more) w = Ret (Some err) w'
            /\ Is Internal err = true).
Proof.
  intros op docs. induction docs as [|d docs IH]; intros w Hnf Hwf.
  - exists w. split; [reflexivity|]. split; [exact Hnf|]. split; [exact Hwf|].
    split; [reflexivity|]. split; [reflexivity|]. split.
    { intros id. cbn [map In]. tauto. }
    split.
    { intros r Hr. cbn [map In]. tauto. }
    intros more. cbn [map app saveEvents]. rewrite bind_eq.
    cbn [EventStore_Save]. eexists. split; reflexivity.
  - destruct (saveEvents_step op d w Hnf Hwf)
      as (w1 & Hstep & Hnf1 & Hwf1 & Hd1 & Hu1 & Hids1 & Hrows1).
    destruct (IH w1 Hnf1 Hwf1)
      as (w' & Hrun & Hnf' & Hwf' & Hd' & Hu' & Hids' & Hrows' & Hstop).
    exists w'. split; [cbn [map]; now rewrite Hstep|].
    split; [exact Hnf'|]. split; [exact Hwf'|].
    split; [congruence|]. split; [congruence|]. split.
    { intros id. rewrite Hids', Hids1. cbn [map In]. intuition congruence. }
    split.
    { intros r Hr. destruct (Hrows' r Hr) as [Hlater Hnotlater].
      destruct (In_dec string_dec (e_id r) (map j_id docs)) as [Hin|Hnin].
      - destruct (Hlater Hin) as [Hdata Hflag]. split.
        + intros _. split; [now right|exact Hflag].
        + intros Hnot. exfalso. apply Hnot. now right.
      - pose proof (Hnotlater Hnin) as Hr1.
        destruct (Hrows1 r Hr1) as [Hsame Hother]. split.
        + intros [Hid|Hin]; [|contradiction].
          destruct (Hsame (eq_sym Hid)) as [Hdata Hflag].
          split; [left; now symmetry|exact Hflag].
        + intros Hnot. apply Hother. intros Hid. apply Hnot. left. now symmetry. }
    intros more. destruct (Hstop more) as (err & Hrun' & Hint).
    exists err. split; [|exact Hint].
    cbn [map app]. now rewrite Hstep.
Qed.

Lemma RandomFBToken_ok (w : World) :
  no_faults w ->
  List.filter hasToken (users w) <> [] ->
  exists (row : UserRow) (token : string) (w1 : World),
    UserStore_RandomFBToken w = Ret (u_user_id row, token, None) w1
    /\ In row (users w) /\ u_facebook_token row = Some token
    /\ no_faults w1 /\ database w1 = database w
    /\ graph w1 = graph w /\ ctx_err w1 = ctx_err w.
Proof.
  intros Hnf Hne. unfold UserStore_RandomFBToken. sql_ok. rewrite bind_eq.
  cbn [get]. change (users (after_sql SelectRandomToken w)) with (users w).
  destruct (List.filter hasToken (users w)) as [|r0 holders] eqn:Hh;
    [congruence|].
  rewrite bind_eq.
  destruct (draw_eq (after_sql SelectRandomToken w)) as (j & Hj & ->).
  destruct (lookup_lt_is_Some_2 (r0 :: holders)
              (Z.to_nat (j mod Z.of_nat (length (r0 :: holders)))))
    as [row Hrow].
  { assert (Hlen : 0 < Z.of_nat (length (r0 :: holders))) by (simpl; lia).
    pose proof (Z.mod_pos_bound j _ Hlen). lia. }
  rewrite Hrow.
  apply list_elem_of_lookup_2, list_elem_of_In in Hrow.
  rewrite <- Hh in Hrow. apply filter_In in Hrow as [Hin Htok].
  unfold hasToken in Htok.
  destruct (u_facebook_token row) as [token|] eqn:Ht; [|discriminate].
  exists row, token. eexists. split; [reflexivity|]. split; [exact Hin|].
  split; [exact Ht|]. split; [nf|]. repeat split.
Qed.

(** X22.  [EventSubmit] stores and classifies the documents of the Graph API:
    for a caller that is logged in and at most fifty ids, when no
    statement fails, the request is not cancelled, some user holds a
    token and the Graph API answers with documents that parse,
    [EventSubmit] returns no error; afterwards the table of events holds
    the ids it held and the ids of the documents, a row under the id of a
    document holds one of the documents with that id and the flag
    [IsBadEvent] gives its event, every other row is as it was, and the
    dests and the users are untouched. *)
Theorem EventSubmit_stores_the_documents :
  forall (info : Info) (ids : list EventID) (docs : list EventData)
         (later : list FBReply) (w : World),
    AuthID info <> "" ->
    (length ids <= 50)%nat ->
    no_faults w ->
    ctx_err w = None ->
    events_wf (events w) ->
    List.filter hasToken (users w) <> [] ->
    graph w = (map Some docs, None) :: later ->
    exists w' : World,
      EventSubmit info ids w = Ret None w'
      /\ events_wf (events w')
      /\ dests w' = dests w /\ users w' = users w
      /\ (forall id, In id (map e_id (events w')) <->
                     In id (map j_id docs) \/ In id (map e_id (events w)))
      /\ (forall r, In r (events w') ->
            (In (e_id r) (map j_id docs) ->
             In (e_data r) docs
             /\ e_is_bad r = Some (IsBadEvent (toEvent r)))
            /\ (~ In (e_id r) (map j_id docs) -> In r (events w))).
Proof.
  intros info ids docs later w Hid Hlen Hnf Hctx Hwf Hne Hgraph.
  destruct (RandomFBToken_ok w Hnf Hne)
    as (row & token & w1 & Hrand & _ & _ & Hnf1 & Hdb1 & Hg1 & _).
  unfold database in Hdb1. injection Hdb1 as Hd1 _ He1 Hu1 _.
  set (w2 := add_log (GraphAPI token ids) (set_graph later w1)).
  assert (Hnf2 : no_faults w2) by (unfold w2; nf).
  assert (Hwf2 : events_wf (events w2)) by (unfold w2; cbn; now rewrite He1).
  destruct (saveEvents_ok "Service.EventSubmit" docs w2 Hnf2 Hwf2)
    as (w' & Hsave & _ & Hwf' & Hd' & Hu' & Hids & Hrows & _).
  exists w'. split.
  { unfold EventSubmit. cbv zeta.
    rewrite (bool_decide_eq_false_2 _ Hid).
    assert (Hsize : (50 <? Z.of_nat (length ids)) = false)
      by (apply Z.ltb_ge; lia).
    rewrite Hsize, bind_eq. cbn [retry]. rewrite bind_eq. cbn [get].
    rewrite Hctx, bind_eq. unfold submitAttempt.
    rewrite bind_eq, Hrand, bind_eq. unfold GetEventInfo.
    rewrite Hg1, Hgraph. fold w2. cbn [IsTokenExpired]. rewrite Hsave.
    reflexivity. }
  split; [exact Hwf'|].
  split; [rewrite Hd'; unfold w2; cbn; exact Hd1|].
  split; [rewrite Hu'; unfold w2; cbn; exact Hu1|].
  assert (He2 : events w2 = events w) by (unfold w2; cbn; exact He1).
  rewrite He2 in Hids, Hrows. split; [exact Hids|exact Hrows].
Qed.

(** X23.  A document that does not parse stops the loop of [EventSubmit] with
    an Internal error, and the documents before it stay saved: when no
    statement fails and the table of events is well formed, the loop over
    documents that parse followed by one that does not fails with an
    error that [Is] Internal, in a world whose table holds the id of
    every document before the bad one. *)
Theorem EventSubmit_keeps_what_it_saved :
  forall (op : string) (docs : list EventData) (more : list RawMessage)
         (w : World),
    no_faults w ->
    events_wf (events w) ->
    exists (err : error) (w' : World),
      saveEvents op (map Some docs ++ None :: more) w = Ret (Some err) w'
      /\ Is Internal err = true
      /\ (forall d, In d docs -> In (j_id d) (map e_id (events w')))
      /\ (forall id, In id (map e_id (events w)) -> In id (map e_id (events w'))).
Proof.
  intros op docs more w Hnf Hwf.
  destruct (saveEvents_ok op docs w Hnf Hwf)
    as (w' & _ & _ & _ & _ & _ & Hids & _ & Hstop).
  destruct (Hstop more) as (err & Hrun & Hint).
  exists err, w'. split; [exact Hrun|]. split; [exact Hint|]. split.
  - intros d Hd. apply Hids. left. now apply in_map.
  - intros id Hin. apply Hids. now right.
Qed.

(** ** The reply of DestGenerate *)

Lemma takeEvents_Some (dests ds : list Dest) (es : list Event) :
  takeEvents dests = Some (ds, es) ->
  ds = map (setEvent None) dests /\ map DEvent dests = map Some es.
Proof.
  revert ds es. induction dests as [|d dests IH]; intros ds es; simpl.
  - intros [= <- <-]. split; reflexivity.
  - destruct (DEvent d) as [ev|] eqn:Hev; [|discriminate].
    destruct (takeEvents dests) as [[ds0 es0]|]; [|discriminate].
    intros [= <- <-]. destruct (IH _ _ eq_refl) as [-> Hes].
    split; [reflexivity|]. simpl. now rewrite Hes.
Qed.

(** What [DestList] returns without error are dests of the caller. *)
Lemma DestList_own (info : Info) (opts : DestListRequest) (w w' : World)
    (ds : list Dest) :
  DestList info opts w = Ret (ds, None) w' ->
  (length ds <= 10)%nat
  /\ forall d, In d ds ->
       DUserID d = AuthID info
       /\ forall ev, DEvent d = Some ev -> ID ev = DEventID d.
Proof.
  unfold DestList. cbv zeta. case_bool_decide as Hid; [discriminate|].
  unfold DestStore_ListForUser, DestStore_list.
  rewrite !bind_eq, sql_eq. destruct (next_fault w); [discriminate|].
  rewrite bind_eq. cbn [get]. rewrite dests_after_sql.
  destruct (Page opts * pageSize <? 0); [discriminate|].
  set (page := take _ _).
  unfold mret at 1, M_ret at 1. rewrite bind_eq, EventStore_GetMulti_eq.
  destruct (next_fault (after_sql SelectDests w)); [discriminate|].
  intros [= <- _]. split.
  - rewrite !length_map. unfold page. rewrite length_take.
    change (Z.to_nat pageSize) with 10%nat. lia.
  - intros d Hd. apply in_map_iff in Hd as (d0 & <- & Hd0).
    apply in_map_iff in Hd0 as (r & <- & Hr).
    match goal with
    | |- context [sideLoad ?l _] => set (evs := l)
    end.
    destruct (sideLoad_fields evs (toDest r)) as (_ & Hu & He).
    split.
    + rewrite Hu. cbn [toDest DUserID].
      apply list_elem_of_In, subseteq_take, subseteq_drop in Hr.
      apply list_elem_of_In in Hr.
      apply filter_In in Hr as [_ Hr]. now apply bool_decide_eq_true in Hr.
    + intros ev. rewrite He. unfold sideLoad.
      destruct (find _ evs) as [ev'|] eqn:Hfind; cbn [DEvent toDest DEventID];
        [|discriminate].
      intros [= <-]. apply find_some in Hfind as [_ Heq].
      apply bool_decide_eq_true in Heq. now symmetry.
Qed.

Section ReplyFacts.
Context `{Geo}.

(** X24.  The reply of [DestGenerate] lists dests of the caller, also when an
    administrator generates for another user: whenever the call returns
    no error, the reply has at most ten dests, each of the caller and with
    no event attached, and the ids of its events are the event ids of
    those dests, in the same order. *)
Theorem DestGenerate_reply_lists_the_caller :
  forall (fuel : nat) (info : Info) (opts : DestGenerateRequest)
         (w w' : World) (reply : DestGenerateReply),
    DestGenerate fuel info opts w = Ret (reply, None) w' ->
    (length (Dests reply) <= 10)%nat
    /\ map ID (Events reply) = map DEventID (Dests reply)
    /\ forall d, In d (Dests reply) ->
         DUserID d = AuthID info /\ DEvent d = None.
Proof.
  intros fuel info opts w w' reply Hrun.
  destruct (GenerateFacts.authorized_dec info opts) as [Hauth|Hno].
  2:{ rewrite (GenerateFacts.DestGenerate_denied fuel info opts w Hno) in Hrun.
      discriminate. }
  rewrite (GenerateFacts.DestGenerate_eq fuel info opts w Hauth) in Hrun.
  destruct (nextEvent fuel (resolveUser info opts) opts w)
    as [[[id r] [e|]] w1|msg w1|w1]; try discriminate.
  unfold afterChoice in Hrun. cbv zeta in Hrun. rewrite bind_eq in Hrun.
  match type of Hrun with
  | context [match ?c w1 with _ => _ end] =>
      destruct (c w1) as [[e|] w2|msg w2|w2]; try discriminate
  end.
  rewrite bind_eq in Hrun.
  destruct (DestList info (mkDestListRequest 0) w2)
    as [[ds [e|]] w3|msg w3|w3] eqn:Hlist; try discriminate.
  destruct (takeEvents ds) as [[ds' es]|] eqn:Htake; [|discriminate].
  injection Hrun as <- _. cbn [Dests Events].
  destruct (takeEvents_Some _ _ _ Htake) as [-> Hes].
  destruct (DestList_own _ _ _ _ _ Hlist) as [Hlen Hown].
  split; [now rewrite length_map|]. split.
  - clear -Hes Hown. revert es Hes. induction ds as [|d ds IH]; intros es Hes.
    + destruct es; [reflexivity|discriminate].
    + destruct es as [|ev es]; [discriminate|]. injection Hes as Hev Hes.
      cbn [map]. f_equal.
      * cbn. symmetry in Hev. now apply (Hown d (or_introl eq_refl)).
      * apply IH; [|exact Hes]. intros d0 Hd0. apply Hown. now right.
  - intros d Hd. apply in_map_iff in Hd as (d0 & <- & Hd0).
    split; [|reflexivity]. exact (proj1 (Hown d0 Hd0)).
Qed.

End ReplyFacts.

End ServiceOpsFacts.

(* ===================================================================== *)
(** * Properties of package auth                                          *)
(* ===================================================================== *)

Module AuthFacts.
Import Service Auth.

Lemma Split_nonempty (sep : ascii) (s : string) : Split sep s <> [].
Proof.
  destruct s as [|c s]; simpl; [discriminate|].
  case_bool_decide; [discriminate|]. destruct (Split sep s); discriminate.
Qed.

(** A string without the separator is one part. *)
Lemma Split_one (sep : ascii) (s : string) :
  ~ In sep (bytes s) -> Split sep s = [s].
Proof.
  induction s as [|c s IH]; simpl; intros Hno; [reflexivity|].
  rewrite bool_decide_eq_false_2 by (intros ->; apply Hno; now left).
  rewrite IH; [reflexivity|]. intros Hin. apply Hno. now right.
Qed.

Lemma Split_one_inv (sep : ascii) (s a : string) :
  Split sep s = [a] -> s = a /\ ~ In sep (bytes s).
Proof.
  revert a. induction s as [|c s IH]; simpl; intros a.
  - intros [= <-]. split; [reflexivity|intros []].
  - case_bool_decide as Hc.
    + intros [= _ Hnil]. now destruct (Split_nonempty sep s).
    + destruct (Split sep s) as [|h t] eqn:Hs; [now destruct (Split_nonempty sep s)|].
      intros [= <- ->]. destruct (IH h eq_refl) as [-> Hno].
      split; [reflexivity|]. intros [Heq|Hin]; [congruence|contradiction].
Qed.

(** Two parts are what stands before and after the one separator. *)
Lemma Split_two (sep : ascii) (s a b : string) :
  Split sep s = [a; b] <->
  s = a ++ String sep b /\ ~ In sep (bytes a) /\ ~ In sep (bytes b).
Proof.
  revert a. induction s as [|c s IH]; intros a.
  - simpl. split; [discriminate|]. intros [Hs _]. destruct a; discriminate.
  - cbn [Split]. case_bool_decide as Hc.
    + subst c. split.
      * intros [= <- Hrest]. apply Split_one_inv in Hrest as [-> Hno].
        split; [reflexivity|]. split; [intros []|exact Hno].
      * intros (Hs & Ha & Hb). destruct a as [|x a].
        -- injection Hs as ->. now rewrite (Split_one sep b Hb).
        -- injection Hs as <- _. exfalso. apply Ha. now left.
    + destruct (Split sep s) as [|h t] eqn:Hs;
        [now destruct (Split_nonempty sep s)|]. split.
      * intros [= <- ->]. destruct (proj1 (IH h) eq_refl) as (-> & Ha & Hb).
        split; [reflexivity|]. split; [|exact Hb].
        intros [Heq|Hin]; [congruence|contradiction].
      * intros (Heq & Ha & Hb). destruct a as [|x a].
        -- injection Heq as -> _. now destruct Hc.
        -- injection Heq as <- ->.
           assert (Hsplit : h :: t = [a; b]).
           { apply IH. split; [reflexivity|]. split; [|exact Hb].
             intros Hin. apply Ha. now right. }
           injection Hsplit as -> ->. reflexivity.
Qed.

(** X25.  [parseRequest] takes the token from the cookie named jwt when there
    is one, whatever the Authorization header says; without the cookie it
    returns a token and no error exactly when the header is empty, the
    token being empty then, or is the word Bearer, one space and a token
    that has no space in it, in this letter case. *)
Theorem parseRequest_accepts_bearer_tokens :
  forall r : Request,
    (forall value, CookieJWT r = Some value -> parseRequest r = (value, None))
    /\ (CookieJWT r = None ->
        forall token : string,
          parseRequest r = (token, None) <->
          (Authorization r = "" /\ token = "")
          \/ (Authorization r = "Bearer " ++ token
              /\ ~ In " "%char (bytes token))).
Proof.
  intros r. split.
  - intros value Hc. unfold parseRequest. now rewrite Hc.
  - intros Hc token. unfold parseRequest. rewrite Hc. cbv zeta.
    case_bool_decide as Hempty.
    + split.
      * intros [= <-]. now left.
      * intros [[_ ->]|[Hb _]]; [reflexivity|]. rewrite Hempty in Hb.
        discriminate.
    + destruct (Split " " (Authorization r)) as [|a [|b [|c rest]]] eqn:Hs.
      * now destruct (Split_nonempty " " (Authorization r)).
      * split; [discriminate|]. intros [[He _]|[Hb Hno]]; [contradiction|].
        assert (Hsplit : Split " " (Authorization r) = ["Bearer"; token]).
        { apply Split_two. split; [exact Hb|]. split; [|exact Hno].
          vm_compute. intuition discriminate. }
        rewrite Hs in Hsplit. discriminate.
      * apply Split_two in Hs as (Hauth & Ha & Hb).
        case_bool_decide as Htype.
        -- split; [discriminate|]. intros [[He _]|[Hbear Hno]]; [contradiction|].
           rewrite Hauth in Hbear.
           assert (Hsplit : Split " " (a ++ String " " b) = ["Bearer"; token]).
           { rewrite Hbear. apply Split_two. split; [reflexivity|].
             split; [|exact Hno]. vm_compute. intuition discriminate. }
           assert (Hsplit' : Split " " (a ++ String " " b) = [a; b])
             by (apply Split_two; auto).
           rewrite Hsplit' in Hsplit. injection Hsplit as -> _. now destruct Htype.
        -- subst a. split.
           ++ intros [= <-]. right. split; [exact Hauth|exact Hb].
           ++ intros [[He _]|[Hbear Hno]]; [contradiction|].
              rewrite Hauth in Hbear. f_equal.
              change ("Bearer" ++ String " " b) with ("Bearer " ++ b) in Hbear.
              clear -Hbear. now injection Hbear.
      * split; [discriminate|]. intros [[He _]|[Hb Hno]]; [contradiction|].
        assert (Hsplit : Split " " (Authorization r) = ["Bearer"; token]).
        { apply Split_two. split; [exact Hb|]. split; [|exact Hno].
          vm_compute. intuition discriminate. }
        rewrite Hs in Hsplit. discriminate.
Qed.

Section ProviderFacts.
Variables (VerifyIDToken : string -> string + string)
          (AdminUIDs : list string).

#[local] Abbreviation FromRequest := (Auth.FromRequest VerifyIDToken AdminUIDs).

(** X26.  [FromRequest] names a caller only from a verified token: whenever it
    reports an error the caller it returns is the anonymous one; a caller
    with an id has the UID the verifier gave for the token of the
    request; that caller is an administrator exactly when the UID is
    among the administrators'; and a request with no cookie and no
    Authorization header is anonymous, without error. *)
Theorem FromRequest_names_verified_callers :
  forall (r : Request) (info : Info) (err : option authError),
    FromRequest r = (info, err) ->
    (err <> None -> info = mkInfo "" false)
    /\ (AuthID info <> "" ->
        exists token : string,
          token <> "" /\ parseRequest r = (token, None)
          /\ VerifyIDToken token = inl (AuthID info)
          /\ (IsAdmin info = true <-> In (AuthID info) AdminUIDs))
    /\ (IsAdmin info = true ->
        exists token : string,
          token <> "" /\ parseRequest r = (token, None)
          /\ VerifyIDToken token = inl (AuthID info)
          /\ In (AuthID info) AdminUIDs)
    /\ (CookieJWT r = None -> Authorization r = "" ->
        info = mkInfo "" false /\ err = None).
Proof.
  intros r info err. unfold Auth.FromRequest.
  assert (Hadmin : forall uid,
             existsb (fun u => bool_decide (u = uid)) AdminUIDs = true
             <-> In uid AdminUIDs).
  { intros uid. rewrite existsb_exists. split.
    - intros (u & Hin & Hu). apply bool_decide_eq_true in Hu. now subst.
    - intros Hin. exists uid. split; [exact Hin|]. now apply bool_decide_eq_true. }
  destruct (parseRequest r) as [token [e|]] eqn:Hparse.
  { intros [= <- <-]. split; [reflexivity|]. split; [now intros []|].
    split; [discriminate|]. intros Hc Hauth. exfalso.
    unfold parseRequest in Hparse. rewrite Hc, Hauth in Hparse. discriminate. }
  case_bool_decide as Htok.
  { intros [= <- <-]. split; [reflexivity|]. split; [now intros []|].
    split; [discriminate|]. intros _ _. split; reflexivity. }
  assert (Hheader : CookieJWT r = None -> Authorization r = "" -> False).
  { intros Hc Hauth. unfold parseRequest in Hparse.
    rewrite Hc, Hauth in Hparse. injection Hparse as <-. now apply Htok. }
  destruct (VerifyIDToken token) as [uid|text] eqn:Hverify.
  - intros [= <- <-]. cbn [AuthID IsAdmin]. split; [now intros []|].
    split.
    + intros _. exists token. split; [exact Htok|]. split; [reflexivity|].
      split; [exact Hverify|apply Hadmin].
    + split.
      * intros Ha. exists token. split; [exact Htok|]. split; [reflexivity|].
        split; [exact Hverify|now apply Hadmin].
      * intros Hc Hauth. destruct (Hheader Hc Hauth).
  - destruct (Contains text "token has expired");
      intros [= <- <-]; (split; [reflexivity|]); (split; [now intros []|]);
      (split; [discriminate|]); intros Hc Hauth; destruct (Hheader Hc Hauth).
Qed.

End ProviderFacts.

End AuthFacts.

(* ===================================================================== *)
(** * Properties of the name filters                                      *)
(* ===================================================================== *)

Module FilterWordsFacts.
Import Regexp Eventdb FilterWords.

#[local] Open Scope Z_scope.

Lemma lastRune_cons (prev : option rune) (x : rune) (s1 : list rune) :
  lastRune prev (x :: s1) = lastRune (Some x) s1.
Proof. reflexivity. Qed.

(** A run of folded literals matches a prefix that spells them. *)
Lemma run_litsFold (l : list Z) :
  forall (prev : option rune) (s : list rune) (k : option rune -> list rune -> bool),
    run (fold_right (fun c r => Cat (LitFold c) r) Empty l) prev s k = true <->
    exists s1 s2,
      s = (s1 ++ s2)%list
      /\ Forall2 (fun c x => foldEq c x = true) l s1
      /\ k (lastRune prev s1) s2 = true.
Proof.
  induction l as [|c l IH]; intros prev s k; cbn [fold_right run].
  - split.
    + intros Hk. exists [], s. split; [reflexivity|]. split; [constructor|exact Hk].
    + intros (s1 & s2 & -> & Hs1 & Hk). inversion Hs1; subst. exact Hk.
  - destruct s as [|x s].
    + split; [discriminate|]. intros (s1 & s2 & Hs & Hs1 & _).
      inversion Hs1; subst. discriminate.
    + rewrite andb_true_iff, IH. split.
      * intros (Hx & s1 & s2 & -> & Hs1 & Hk). exists (x :: s1), s2.
        split; [reflexivity|]. split; [now constructor|].
        now rewrite lastRune_cons.
      * intros (s1 & s2 & Hs & Hs1 & Hk). inversion Hs1 as [|? y ? s1' Hy Hs1']; subst.
        injection Hs as -> ->. split; [exact Hy|]. exists s1', s2.
        split; [reflexivity|]. split; [exact Hs1'|].
        now rewrite lastRune_cons in Hk.
Qed.

Lemma lastRune_word (prev : option rune) (s1 : list rune) :
  s1 <> [] -> Forall (fun c => isWordChar c = true) s1 ->
  isWord (lastRune prev s1) = true.
Proof.
  revert prev. induction s1 as [|x s1 IH]; intros prev Hne Hall; [congruence|].
  inversion Hall as [|? ? Hx Hrest]; subst. rewrite lastRune_cons.
  destruct s1 as [|y s1]; [exact Hx|]. apply IH; [discriminate|exact Hrest].
Qed.

(** Inside a word and at its end the pattern of a word does not match. *)
Lemma run_wordFold_inside (w : string) (c : rune) (s : list rune) :
  bytes w <> [] -> isWordChar c = true ->
  Forall (fun x => isWordChar x = true) s ->
  run (wordFold w) (Some c) s (fun _ _ => true) = false.
Proof.
  intros Hw Hc Hs. unfold wordFold. cbn [run isWord]. rewrite Hc.
  destruct s as [|x s]; cbn [head isWord].
  - apply not_true_is_false. rewrite andb_true_iff. intros [_ Hrun].
    apply run_litsFold in Hrun as (s1 & s2 & Hs12 & Hs1 & _).
    destruct s1; [|discriminate]. inversion Hs1 as [Hnil|]; subst.
    now apply Hw.
  - inversion Hs as [|? ? Hx _]; subst. rewrite Hx. reflexivity.
Qed.

Lemma search_wordFold_inside (w : string) (s : list rune) :
  bytes w <> [] ->
  forall c, isWordChar c = true ->
  Forall (fun x => isWordChar x = true) s ->
  search (wordFold w) (Some c) s = false.
Proof.
  intros Hw. induction s as [|x s IH]; intros c Hc Hs; cbn [search].
  - rewrite (run_wordFold_inside w c [] Hw Hc Hs). reflexivity.
  - rewrite (run_wordFold_inside w c (x :: s) Hw Hc Hs).
    inversion Hs as [|? ? Hx Hrest]; subst. exact (IH x Hx Hrest).
Qed.

(** On one word, the pattern of a word matches exactly its spellings. *)
Lemma search_wordFold (w : string) (s : list rune) :
  bytes w <> [] ->
  Forall (fun x => isWordChar x = true) s ->
  (search (wordFold w) None s = true <-> spells w s).
Proof.
  intros Hw Hs. unfold spells.
  assert (Hstart : run (wordFold w) None s (fun _ _ => true) = true
                   <-> Forall2 (fun c x => foldEq c x = true) (bytes w) s).
  { unfold wordFold. cbn [run isWord]. rewrite andb_true_iff.
    change (run (litsFold w) None s
              (fun p s' => xorb (isWord p) (isWord (head s')) && true))
      with (run (fold_right (fun c r => Cat (LitFold c) r) Empty (bytes w)) None s
              (fun p s' => xorb (isWord p) (isWord (head s')) && true)).
    rewrite run_litsFold. split.
    - intros (_ & s1 & s2 & -> & Hs1 & Hend).
      apply Forall_app in Hs as [Hw1 Hw2].
      assert (Hne : s1 <> []) by (intros ->; inversion Hs1; subst; now apply Hw).
      rewrite (lastRune_word None s1 Hne Hw1), andb_true_r in Hend.
      destruct s2 as [|x s2]; [now rewrite app_nil_r|].
      inversion Hw2 as [|? ? Hx _]; subst. cbn [head isWord] in Hend.
      rewrite Hx in Hend. discriminate.
    - intros Hsp.
      assert (Hne : s <> []) by (intros ->; inversion Hsp as [Hnil|]; now apply Hw).
      split.
      + destruct s as [|x s]; [congruence|]. inversion Hs as [|? ? Hx _]; subst.
        cbn [head isWord]. now rewrite Hx.
      + exists s, []. split; [now rewrite app_nil_r|]. split; [exact Hsp|].
        now rewrite (lastRune_word None s Hne Hs). }
  destruct s as [|x s]; cbn [search].
  - rewrite orb_false_r. exact Hstart.
  - inversion Hs as [|? ? Hx Hrest]; subst.
    rewrite (search_wordFold_inside w s Hw x Hx Hrest), orb_false_r. exact Hstart.
Qed.

(** X27.  The name filters look for whole words: on a name that is one word
    (letters, digits and underscores of ASCII only), a filter of
    [nameFilters] fires exactly when the name is the word of a filter, in
    any letter case; a name that only begins with such a word, or has it
    inside, passes the name filters. *)
Theorem name_filters_match_whole_words :
  forall name : string,
    Forall (fun c => isWordChar c = true) (runes name) ->
    (existsb (fun filt => MatchString filt name) nameFilters = true <->
     exists word, In word nameWords /\ spells word (runes name)).
Proof.
  intros name Hname.
  change nameFilters with (map wordFold nameWords).
  rewrite existsb_exists. split.
  - intros (filt & Hin & Hm). apply in_map_iff in Hin as (word & <- & Hword).
    exists word. split; [exact Hword|].
    apply (search_wordFold word); [|exact Hname|exact Hm].
    unfold nameWords in Hword. cbn [In] in Hword.
    intuition (subst; discriminate).
  - intros (word & Hword & Hsp). exists (wordFold word).
    split; [now apply in_map|].
    apply (search_wordFold word); [|exact Hname|exact Hsp].
    unfold nameWords in Hword. cbn [In] in Hword.
    intuition (subst; discriminate).
Qed.

End FilterWordsFacts.

Module FilterWordsExamples.
Import Regexp Eventdb FilterWords FilterWordsFacts.

#[local] Open Scope Z_scope.

(** The name Cancelled passes the name filters, the name CANCEL does not. *)
Lemma name_filters_match_whole_words_witness :
  existsb (fun filt => MatchString filt "Cancelled") nameFilters = false
  /\ existsb (fun filt => MatchString filt "CANCEL") nameFilters = true.
Proof.
  split; [vm_compute; reflexivity|].
  apply (name_filters_match_whole_words "CANCEL").
  - vm_compute. repeat (constructor; [reflexivity|]). constructor.
  - exists "Cancel". split; [right; now left|]. unfold spells. vm_compute.
    repeat (constructor; [reflexivity|]). constructor.
Defined.

End FilterWordsExamples.

(* ===================================================================== *)
(** * The properties at work                                              *)
(* ===================================================================== *)

Module ErrorsTextExamples.
Import Errors ErrorsText ErrorsTextFacts MoreExamples.

#[local] Open Scope Z_scope.
#[local] Existing Instance exLibrary.

Lemma Is_names_one_kind_witness :
  Internal <> Other
  /\ forall k', Is k' (E_of (ArgOp "Service.EventGet") [ArgKind Internal]) = true ->
                k' = Internal.
Proof.
  apply (Is_names_one_kind (E_of (ArgOp "Service.EventGet") [ArgKind Internal])).
  reflexivity.
Defined.

Lemma Match_by_kind_witness :
  Match (E [ArgKind NotExist])
    (Some (ErrDomain (mkError "u" "DestStore.Get" NotExist None))) = true.
Proof.
  apply (proj2 (proj2 Match_reflexive_and_by_kind) NotExist); [discriminate|].
  eexists. split; reflexivity.
Defined.

Lemma E_without_kind_keeps_kind_witness :
  exists x : Error,
    E [ArgOp "Service.EventSubmit";
       ArgError (ErrDomain (mkError "u" "Service.EventSubmit" Internal None))]
    = Some (ErrDomain x)
    /\ EKind x = Internal.
Proof.
  destruct (E_without_kind_keeps_kind
              [ArgOp "Service.EventSubmit";
               ArgError (ErrDomain (mkError "u" "Service.EventSubmit" Internal None))]
              (mkError "" "Service.EventSubmit" Other
                 (Some (ErrDomain (mkError "u" "Service.EventSubmit" Internal None))))
              (mkError "u" "Service.EventSubmit" Internal None)
              eq_refl eq_refl eq_refl) as (x & Hx & Hk & _).
  exists x. split; assumption.
Defined.


Lemma Response_hides_the_cause_witness :
  ResponseForError
    (Some (ErrDomain (mkError "u" "Service.DestGenerate" Internal
                        (Some (ErrString "pq: connection refused")))))
  = ResponseForError (Some (ErrDomain (mkError "" "" Internal None))).
Proof.
  apply (proj1 Response_hides_the_cause); [reflexivity|discriminate].
Defined.

Lemma Error_message_shape_witness :
  exists rest,
    Error_ (E_of (ArgOp "Service.EventGet") [ArgKind Internal])
    = "Service.EventGet" ++ rest.
Proof.
  apply (proj1 (proj2 Error_message_shape)
           (mkError "" "Service.EventGet" Internal None)).
  discriminate.
Defined.

End ErrorsTextExamples.

Module StoreExamples.
Import Errors Eventdb World Pg PgUpdate PgViews Service Examples MoreExamples.
Import WorldFacts PgFacts StoreFacts.

#[local] Open Scope Z_scope.
#[local] Existing Instance exGeo.

Lemma no_faults_nil (w : World) : faults w = [] -> no_faults w.
Proof. intros Hf. unfold no_faults. rewrite Hf. constructor. Qed.

Lemma events_wf_one (r : EventRow) :
  e_id r = j_id (e_data r) -> events_wf [r].
Proof.
  intros Hid. split.
  - constructor; [intros []|constructor].
  - constructor; [exact Hid|constructor].
Qed.


Lemma Create_then_Get_witness :
  exists (created : Dest) (w' w'' : World),
    DestStore_Create (mkDest "" "user" "1" None "" "" 0) oneEvent
    = Ret (created, None) w'
    /\ DID created = "1"
    /\ DestStore_Get "1" w' = Ret (created, None) w''.
Proof.
  destruct (Create_then_Get (mkDest "" "user" "1" None "" "" 0) oneEvent
              ltac:(apply no_faults_nil; reflexivity))
    as (created & w' & Hrun & Hc & _ & _ & (w'' & Hget) & _).
  { intros r []. }
  exists created, w', w''. split; [exact Hrun|]. split; [now rewrite Hc|].
  rewrite Hc in Hget |- *. exact Hget.
Defined.

Lemma Update_writes_masked_columns_witness :
  exists (d : Dest) (w' : World),
    DestStore_Update "1" (mkDestUpdate "great" "went" "feedback") afterOne
    = Ret (d, None) w'
    /\ Feedback d = "great" /\ Status d = "".
Proof.
  pose proof (Update_writes_masked_columns "1"
                (mkDestUpdate "great" "went" "feedback") afterOne
                ltac:(apply no_faults_nil; reflexivity)) as Hu.
  cbv zeta in Hu. destruct Hu as [Hu _].
  destruct (Hu firstVisit) as (d & w' & Hrun & _ & _ & _ & _ & Hf & _ & _ & Hs & _).
  - now left.
  - reflexivity.
  - intros r [<-|[]] _. reflexivity.
  - discriminate.
  - apply (proj1 (bool_decide_eq_true _)). vm_compute. reflexivity.
  - exists d, w'. split; [exact Hrun|]. split.
    + apply Hf. vm_compute. now left.
    + rewrite Hs; [reflexivity|]. vm_compute. intros [H|[]]. discriminate H.
Defined.

Lemma Save_then_GetByID_witness :
  exists (event : Event) (w' w'' : World),
    EventStore_Save (Some (exData "7" (100 * Minute) None)) oneEvent
    = Ret (event, None) w'
    /\ EndTime event = 160 * Minute
    /\ EventStore_GetByID "7" w' = Ret (event, None) w''.
Proof.
  destruct (Save_then_GetByID (exData "7" (100 * Minute) None) oneEvent
              ltac:(apply no_faults_nil; reflexivity) ltac:(apply events_wf_one; reflexivity))
    as (event & w' & Hrun & _ & _ & _ & _ & _ & Hend & _ & (w'' & Hget) & _).
  exists event, w', w''. split; [exact Hrun|]. split; [exact Hend|exact Hget].
Defined.

Lemma Search_returns_the_matching_rows_witness :
  exists (evs : list Event) (w' : World),
    EventStore_Search exSearch oneEvent = Ret (evs, None) w'
    /\ StronglySorted byStart evs
    /\ In (toEvent (exRow "1" (100 * Minute) (Some (160 * Minute)))) evs.
Proof.
  destruct (Search_returns_the_matching_rows exSearch oneEvent
              ltac:(apply no_faults_nil; reflexivity) ltac:(apply events_wf_one; reflexivity))
    as (evs & w' & Hrun & _ & Hsorted & Hin).
  exists evs, w'. split; [exact Hrun|]. split; [exact Hsorted|].
  apply Hin. exists (exRow "1" (100 * Minute) (Some (160 * Minute))).
  split; [now left|]. split; [reflexivity|]. split; [reflexivity|].
  split; [vm_compute; eauto|]. split; [vm_compute; reflexivity|].
  split; [vm_compute; reflexivity|]. right. discriminate.
Defined.

Lemma SetBad_hides_from_Search_witness :
  exists w' : World,
    EventStore_SetBad "1" true oneEvent = Ret None w'
    /\ map e_id (events w') = ["1"]
    /\ forall evs w'',
         EventStore_Search exSearch w' = Ret (evs, None) w'' ->
         forall ev, In ev evs -> ID ev <> "1".
Proof.
  destruct (SetBad_hides_from_Search "1" true oneEvent
              ltac:(apply no_faults_nil; reflexivity) ltac:(apply events_wf_one; reflexivity))
    as (w' & Hrun & _ & _ & Hids & _ & _ & Hsearch).
  exists w'. split; [exact Hrun|]. split; [exact Hids|].
  intros evs w'' Hs. exact (Hsearch eq_refl exSearch evs w'' eq_refl Hs).
Defined.


Lemma RandomFBToken_picks_a_holder_witness :
  exists (row : UserRow) (token : string) (w' : World),
    UserStore_RandomFBToken twoHolders = Ret (u_user_id row, token, None) w'
    /\ In row (users twoHolders)
    /\ u_facebook_token row = Some token.
Proof.
  destruct (proj2 (RandomFBToken_picks_a_holder twoHolders
                     ltac:(apply no_faults_nil; reflexivity)))
    as (row & token & w' & Hrun & Hin & Htok & _).
  - discriminate.
  - exists row, token, w'. split; [exact Hrun|]. split; [exact Hin|exact Htok].
Defined.

End StoreExamples.

Module ServiceOpsExamples.
Import Errors Eventdb World Pg PgUpdate PgViews Facebook Service ServiceOps.
Import Examples MoreExamples WorldFacts PgFacts StoreFacts ServiceOpsFacts.
Import StoreExamples.

#[local] Open Scope Z_scope.
#[local] Existing Instance exGeo.

Lemma EventSearch_shortens_descriptions_witness :
  exists (evs stored : list Event) (w' : World),
    EventSearch exAdmin exSearch wordyWorld = Ret (evs, None) w'
    /\ EventStore_Search exSearch wordyWorld = Ret (stored, None) w'
    /\ map (fun ev => String.length (Description ev)) stored = [120%nat]
    /\ map (fun ev => String.length (Description ev)) evs = [100%nat].
Proof.
  set (out := EventSearch exAdmin exSearch wordyWorld).
  set (evs := match out with Ret (l, _) _ => l | _ => [] end).
  assert (Hrun : out = Ret (evs, None) (world_of out)) by (vm_compute; reflexivity).
  destruct (proj2 (EventSearch_shortens_descriptions exAdmin exSearch wordyWorld)
              eq_refl evs (world_of out) Hrun) as (stored & Hstored & _).
  exists evs, stored, (world_of out). split; [exact Hrun|].
  split; [exact Hstored|]. split; [|vm_compute; reflexivity].
  vm_compute in Hstored. injection Hstored as <-. vm_compute. reflexivity.
Defined.

Lemma EventGet_missing_is_internal_witness :
  (exists (err : error) (w' : World),
     EventGet "2" oneEvent = Ret (zeroEvent, Some err) w'
     /\ Is Internal err = true /\ Is NotExist err = false)
  /\ exists w',
       EventGet "1" oneEvent
       = Ret (toEvent (exRow "1" (100 * Minute) (Some (160 * Minute))), None) w'.
Proof.
  split.
  - apply (proj1 (EventGet_missing_is_internal "2" oneEvent
                    ltac:(apply no_faults_nil; reflexivity) ltac:(apply events_wf_one; reflexivity))).
    intros [H|[]]. discriminate H.
  - apply (proj2 (EventGet_missing_is_internal "1" oneEvent
                    ltac:(apply no_faults_nil; reflexivity) ltac:(apply events_wf_one; reflexivity))
             (exRow "1" (100 * Minute) (Some (160 * Minute)))).
    + now left.
    + reflexivity.
Defined.

Lemma NoDup_one {A} (x : A) : NoDup [x].
Proof. constructor; [intros []|constructor]. Qed.

Lemma DestUpdate_is_for_the_owner_witness :
  exists err : error,
    Service_DestUpdate exStranger "1" (mkDestUpdate "great" "" "feedback") afterOne
    = Ret (toDest firstVisit, Some err) (after_sql SelectDests afterOne)
    /\ Is Permission err = true
    /\ database (after_sql SelectDests afterOne) = database afterOne.
Proof.
  destruct (proj1 (DestUpdate_is_for_the_owner exStranger
                     (mkDestUpdate "great" "" "feedback") afterOne firstVisit
                     ltac:(apply no_faults_nil; reflexivity) ltac:(apply NoDup_one) (or_introl eq_refl)))
    as (err & Hrun & Hperm & Hdb & _).
  - reflexivity.
  - discriminate.
  - exists err. split; [exact Hrun|]. split; [exact Hperm|exact Hdb].
Defined.

Lemma DestGet_loads_the_event_witness :
  (exists (err : error) (w' : World),
     DestGet exStranger "1" afterOne = Ret (toDest firstVisit, Some err) w'
     /\ Is Permission err = true)
  /\ exists w',
       DestGet exUser "1" afterOne
       = Ret (setEvent (Some (toEvent (exRow "1" (100 * Minute) (Some (160 * Minute)))))
                (toDest firstVisit), None) w'.
Proof.
  destruct (DestGet_loads_the_event exStranger afterOne firstVisit
              ltac:(apply no_faults_nil; reflexivity) ltac:(apply NoDup_one) ltac:(apply events_wf_one; reflexivity)
              (or_introl eq_refl)) as [Hdenied _].
  destruct (DestGet_loads_the_event exUser afterOne firstVisit
              ltac:(apply no_faults_nil; reflexivity) ltac:(apply NoDup_one) ltac:(apply events_wf_one; reflexivity)
              (or_introl eq_refl)) as [_ Hown].
  split.
  - destruct Hdenied as (err & w' & Hrun & Hperm & _);
      [reflexivity|discriminate|]. eauto.
  - apply (proj1 (Hown (or_intror eq_refl))); [now left|reflexivity].
Defined.

Lemma User_operations_reach_only_me_witness :
  (exists err,
     UserGet (mkInfo "alice" true) "bob" twoHolders = Ret (zeroUser, Some err) twoHolders
     /\ Is Permission err = true)
  /\ exists w',
       UserGet (mkInfo "alice" false) "me" twoHolders
       = Ret (mkUser "alice" "" "" "token-a" 0, None) w'.
Proof.
  destruct (User_operations_reach_only_me (mkInfo "alice" true) "bob"
              (mkUserUpdate "" "" "" 0 "") twoHolders) as [Hother _].
  destruct (User_operations_reach_only_me (mkInfo "alice" false) "me"
              (mkUserUpdate "" "" "" 0 "") twoHolders) as [_ Hme].
  split.
  - apply Hother. discriminate.
  - eexists. apply (proj1 (proj2 (proj2 (Hme eq_refl)))).
    vm_compute. reflexivity.
Defined.


Lemma EventSubmit_stores_the_documents_witness :
  exists w' : World,
    EventSubmit exUser ["7"; "8"] submitWorld = Ret None w'
    /\ (forall id, In id (map e_id (events w')) <-> In id ["7"; "8"] \/ In id ["7"])
    /\ users w' = users submitWorld.
Proof.
  destruct (EventSubmit_stores_the_documents exUser ["7"; "8"] twoDocuments []
              submitWorld)
    as (w' & Hrun & _ & _ & Hu & Hids & _).
  - discriminate.
  - simpl. lia.
  - apply no_faults_nil. reflexivity.
  - reflexivity.
  - apply events_wf_one. reflexivity.
  - discriminate.
  - reflexivity.
  - exists w'. split; [exact Hrun|]. split; [exact Hids|exact Hu].
Defined.

Lemma EventSubmit_keeps_what_it_saved_witness :
  exists (err : error) (w' : World),
    saveEvents "Service.EventSubmit"
      [Some (exData "7" (100 * Minute) None); None;
       Some (exData "8" (200 * Minute) None)] oneEvent
    = Ret (Some err) w'
    /\ Is Internal err = true
    /\ In "7" (map e_id (events w'))
    /\ In "1" (map e_id (events w')).
Proof.
  destruct (EventSubmit_keeps_what_it_saved "Service.EventSubmit"
              [exData "7" (100 * Minute) None]
              [Some (exData "8" (200 * Minute) None)] oneEvent
              ltac:(apply no_faults_nil; reflexivity) ltac:(apply events_wf_one; reflexivity))
    as (err & w' & Hrun & Hint & Hdocs & Hold).
  exists err, w'. split; [exact Hrun|]. split; [exact Hint|]. split.
  - apply (Hdocs (exData "7" (100 * Minute) None)). now left.
  - apply Hold. now left.
Defined.

Lemma DestGenerate_reply_lists_the_caller_witness :
  dests (world_of (DestGenerate 33 exAdmin forUser oneEvent))
  = [mkDestRow 1 "1" "user" "1" None None 0]
  /\ (length (Dests (replyOf (DestGenerate 33 exAdmin forUser oneEvent))) <= 10)%nat
  /\ forall d, In d (Dests (replyOf (DestGenerate 33 exAdmin forUser oneEvent))) ->
       DUserID d = "admin" /\ DEvent d = None.
Proof.
  assert (Hrun : DestGenerate 33 exAdmin forUser oneEvent
                 = Ret (replyOf (DestGenerate 33 exAdmin forUser oneEvent), None)
                     (world_of (DestGenerate 33 exAdmin forUser oneEvent)))
    by (vm_compute; reflexivity).
  destruct (DestGenerate_reply_lists_the_caller 33 exAdmin forUser oneEvent _ _ Hrun)
    as (Hlen & _ & Hown).
  split; [vm_compute; reflexivity|]. split; [exact Hlen|exact Hown].
Defined.

End ServiceOpsExamples.

Module AuthExamples.
Import Service Auth AuthFacts MoreExamples.

Lemma parseRequest_accepts_bearer_tokens_witness :
  parseRequest withCookie = ("cookie-token", None)
  /\ parseRequest withBearer = ("header-token", None).
Proof.
  split.
  - apply (proj1 (parseRequest_accepts_bearer_tokens withCookie)). reflexivity.
  - apply (proj2 (parseRequest_accepts_bearer_tokens withBearer) eq_refl).
    right. split; [reflexivity|]. vm_compute. intuition discriminate.
Defined.

Lemma FromRequest_names_verified_callers_witness :
  exists token : string,
    token <> "" /\ parseRequest withBearer = (token, None)
    /\ exVerify token = inl "admin"
    /\ In "admin" ["root"; "admin"].
Proof.
  apply (proj1 (proj2 (proj2 (FromRequest_names_verified_callers exVerify
                                ["root"; "admin"] withBearer
                                (mkInfo "admin" true) None eq_refl)))).
  reflexivity.
Defined.

End AuthExamples.
